(** * xmr-stak-cpu: the mining worker pool of [minethd.cpp]

    A shallow embedding of [minethd.cpp] and the properties of its
    telemetry ring, context allocator, self test, work switch and
    hashing loops.

    Conventions.
    - A C unsigned integer of width [w] is a [Z] kept reduced modulo
      [2^w]; every wrap-around of the source is written out.
    - Memory buffers are [list byte]; multi-byte loads and stores are
      little-endian, as on the x86-64 targets of the miner.
    - Collaborators whose code is outside [minethd.cpp] (the hash
      kernels, the page allocator, the nonce helpers of [minethd.h],
      the clock) are fields of environment records.
    - The modules hold the model; the sections after them hold the
      lemmas. *)

From Stdlib Require Import ZArith List Lia Bool.
From Stdlib Require Import Init.Byte Strings.Byte Strings.String.
From stdpp Require Import base list.

Local Open Scope Z_scope.

(** ** Machine integers and byte buffers *)

Module Mem.

Definition wrap (w : Z) (x : Z) : Z := x mod 2 ^ w.

Definition u32 (x : Z) : Z := wrap 32 x.
Definition u64 (x : Z) : Z := wrap 64 x.

Definition byte_val (b : byte) : Z := Z.of_N (Byte.to_N b).

Definition byte_of (z : Z) : byte :=
  match Byte.of_N (Z.to_N (z mod 256)) with
  | Some b => b
  | None => x00
  end.

(** The value of a little-endian byte string. *)
Fixpoint le_decode (bs : list byte) : Z :=
  match bs with
  | [] => 0
  | b :: rest => byte_val b + 256 * le_decode rest
  end.

(** The [n] low bytes of [v], least significant first. *)
Fixpoint le_encode (n : nat) (v : Z) : list byte :=
  match n with
  | O => []
  | S k => byte_of v :: le_encode k (v / 256)
  end.

(** [*(uintN_t* )(buf + off)] for [N = 8 * n]. *)
Definition load (n off : nat) (buf : list byte) : Z :=
  le_decode (take n (drop off buf)).

(** [memcpy (buf + off, data, length data)].  A C buffer never grows:
    bytes that would land behind its end are dropped. *)
Definition store_bytes (off : nat) (data buf : list byte) : list byte :=
  take (length buf) (take off buf ++ data ++ drop (off + length data) buf).

(** [*(uint32_t* )(buf + off) = v]. *)
Definition store_u32 (off : nat) (v : Z) (buf : list byte) : list byte :=
  store_bytes off (le_encode 4 v) buf.

Definition bytes_of_string (s : string) : list byte := list_byte_of_string s.

End Mem.

(** ** The telemetry ring: [telemetry::telemetry], [push_perf_value],
       [calc_telemetry_data] *)

Module Telemetry.
Import Mem.

(** One row per worker thread in each of the two buffers. *)
Record telemetry := {
  ppHashCounts : list (list Z);
  ppTimestamps : list (list Z);
  iBucketTop : list Z
}.

(** What [calc_telemetry_data] returns: [nan("")], or the quotient
    [fHashes / (fTime / 1000.0)] of two unsigned 64-bit differences,
    kept as its two integer operands. *)
Inductive hashrate : Type :=
| NaN
| Ratio (fHashes fTime : Z).

(** The local variables of the backward walk. *)
Record walk := {
  iEarliestHashCnt : Z;
  iEarliestStamp : Z;
  iLastestStamp : Z;
  iLastestHashCnt : Z;
  bHaveFullSet : bool
}.

Definition walk_init : walk :=
  {| iEarliestHashCnt := 0; iEarliestStamp := 0; iLastestStamp := 0;
     iLastestHashCnt := 0; bHaveFullSet := false |}.

(** [rows[iThread][idx]], a [uint64_t]. *)
Definition cell (rows : list (list Z)) (iThread : nat) (idx : Z) : Z :=
  match rows !! iThread with
  | Some row => u64 (default 0 (row !! Z.to_nat idx))
  | None => 0
  end.

Section Ring.
(** [iBucketSize] is a constant of [minethd.h], a power of two. *)
Variable iBucketSize : nat.

Definition iBucketMask : Z := Z.of_nat iBucketSize - 1.

(** [new uint64_t[iBucketSize]] does not initialise the array:
    [heap a j] is the word the [a]-th array handed out holds in
    slot [j]. *)
Definition new_row (heap : nat -> nat -> Z) (a : nat) : list Z :=
  map (heap a) (seq 0 iBucketSize).

Definition zero_row : list Z := replicate iBucketSize 0.

(** The arrays of row pointers and of tops before the loop. *)
Definition ctor_alloc (iThd : nat) : telemetry :=
  {| ppHashCounts := replicate iThd [];
     ppTimestamps := replicate iThd [];
     iBucketTop := replicate iThd 0 |}.

(** The body of the constructor's loop for index [i]: both [memset]
    calls name row [0]. *)
Definition ctor_body (heap : nat -> nat -> Z) (t : telemetry) (i : nat)
  : telemetry :=
  let counts := <[i := new_row heap (2 * i)]> (ppHashCounts t) in
  let stamps := <[i := new_row heap (2 * i + 1)]> (ppTimestamps t) in
  let tops := <[i := 0]> (iBucketTop t) in
  {| ppHashCounts := <[0%nat := zero_row]> counts;
     ppTimestamps := <[0%nat := zero_row]> stamps;
     iBucketTop := tops |}.

(** The first [n] passes of the loop. *)
Definition ctor_prefix (heap : nat -> nat -> Z) (iThd n : nat) : telemetry :=
  fold_left (ctor_body heap) (seq 0 n) (ctor_alloc iThd).

Definition telemetry_new (heap : nat -> nat -> Z) (iThd : nat) : telemetry :=
  ctor_prefix heap iThd iThd.

Definition push_perf_value (iThd : nat) (iHashCount iTimestamp : Z)
    (t : telemetry) : telemetry :=
  let iTop := default 0 (iBucketTop t !! iThd) in
  {| ppHashCounts :=
       alter (fun row => <[Z.to_nat iTop := iHashCount]> row) iThd (ppHashCounts t);
     ppTimestamps :=
       alter (fun row => <[Z.to_nat iTop := iTimestamp]> row) iThd (ppTimestamps t);
     iBucketTop := <[iThd := Z.land (iTop + 1) iBucketMask]> (iBucketTop t) |}.

(** [(iBucketTop[iThread] - i) & iBucketMask], the subtraction in
    [size_t]. *)
Definition slot_index (t : telemetry) (iThread : nat) (i : Z) : Z :=
  Z.land (u64 (default 0 (iBucketTop t !! iThread) - i)) iBucketMask.

(** The [for] loop over the remaining values of [i]; a [break]
    returns at once. *)
Fixpoint walk_loop (t : telemetry) (iTimeNow iLastMilisec : Z) (iThread : nat)
    (js : list Z) (w : walk) : walk :=
  match js with
  | [] => w
  | i :: rest =>
      let idx := slot_index t iThread i in
      let stamp := cell (ppTimestamps t) iThread idx in
      let count := cell (ppHashCounts t) iThread idx in
      if stamp =? 0 then w
      else
        let w1 :=
          if iLastestStamp w =? 0
          then {| iEarliestHashCnt := iEarliestHashCnt w;
                  iEarliestStamp := iEarliestStamp w;
                  iLastestStamp := stamp;
                  iLastestHashCnt := count;
                  bHaveFullSet := bHaveFullSet w |}
          else w in
        if u64 (iTimeNow - stamp) >? iLastMilisec
        then {| iEarliestHashCnt := iEarliestHashCnt w1;
                iEarliestStamp := iEarliestStamp w1;
                iLastestStamp := iLastestStamp w1;
                iLastestHashCnt := iLastestHashCnt w1;
                bHaveFullSet := true |}
        else walk_loop t iTimeNow iLastMilisec iThread rest
               {| iEarliestHashCnt := count;
                  iEarliestStamp := stamp;
                  iLastestStamp := iLastestStamp w1;
                  iLastestHashCnt := iLastestHashCnt w1;
                  bHaveFullSet := bHaveFullSet w1 |}
  end.

(** The same loop over the samples it reads, in the order it reads
    them. *)
Fixpoint walk_view (iTimeNow iLastMilisec : Z) (v : list (Z * Z)) (w : walk)
    : walk :=
  match v with
  | [] => w
  | (stamp, count) :: rest =>
      if stamp =? 0 then w
      else
        let w1 :=
          if iLastestStamp w =? 0
          then {| iEarliestHashCnt := iEarliestHashCnt w;
                  iEarliestStamp := iEarliestStamp w;
                  iLastestStamp := stamp;
                  iLastestHashCnt := count;
                  bHaveFullSet := bHaveFullSet w |}
          else w in
        if u64 (iTimeNow - stamp) >? iLastMilisec
        then {| iEarliestHashCnt := iEarliestHashCnt w1;
                iEarliestStamp := iEarliestStamp w1;
                iLastestStamp := iLastestStamp w1;
                iLastestHashCnt := iLastestHashCnt w1;
                bHaveFullSet := true |}
        else walk_view iTimeNow iLastMilisec rest
               {| iEarliestHashCnt := count;
                  iEarliestStamp := stamp;
                  iLastestStamp := iLastestStamp w1;
                  iLastestHashCnt := iLastestHashCnt w1;
                  bHaveFullSet := bHaveFullSet w1 |}
  end.

(** The values [1 .. iBucketSize - 1] of the loop counter. *)
Definition walk_range : list Z := map Z.of_nat (seq 1 (iBucketSize - 1)).

(** [iTimeNow] is the clock read at entry. *)
Definition calc_telemetry_data (t : telemetry) (iTimeNow iLastMilisec : Z)
    (iThread : nat) : hashrate :=
  let w := walk_loop t iTimeNow iLastMilisec iThread walk_range walk_init in
  if negb (bHaveFullSet w) || (iEarliestStamp w =? 0) || (iLastestStamp w =? 0)
  then NaN
  else if u64 (iLastestStamp w - iEarliestStamp w) =? 0
  then NaN
  else Ratio (u64 (iLastestHashCnt w - iEarliestHashCnt w))
             (u64 (iLastestStamp w - iEarliestStamp w)).

(** *** The query in the words of the specification

    The samples met when walking backward from the slot just before
    [top]: (timestamp, count) pairs, newest first. *)
Definition backward_view (t : telemetry) (iThread : nat) : list (Z * Z) :=
  map (fun i : nat =>
         let top := default 0 (iBucketTop t !! iThread) in
         let idx := (top - Z.of_nat i) mod Z.of_nat iBucketSize in
         (cell (ppTimestamps t) iThread idx, cell (ppHashCounts t) iThread idx))
      (seq 1 (iBucketSize - 1)).

Definition written (s : Z * Z) : bool := negb (fst s =? 0).

Definition age (iTimeNow : Z) (s : Z * Z) : Z := u64 (iTimeNow - fst s).

Definition in_window (iTimeNow iLastMilisec : Z) (s : Z * Z) : bool :=
  written s && (age iTimeNow s <=? iLastMilisec).

(** The leading samples of the view that lie inside the window,
    and the rest of the view, whose head is where the walk stops. *)
Fixpoint window_split (iTimeNow iLastMilisec : Z) (v : list (Z * Z))
  : list (Z * Z) * list (Z * Z) :=
  match v with
  | [] => ([], [])
  | s :: rest =>
      if in_window iTimeNow iLastMilisec s
      then (s :: fst (window_split iTimeNow iLastMilisec rest),
            snd (window_split iTimeNow iLastMilisec rest))
      else ([], v)
  end.

Definition stop_sample (iTimeNow iLastMilisec : Z) (v : list (Z * Z))
  : option (Z * Z) :=
  head (snd (window_split iTimeNow iLastMilisec v)).

(** The walk hits an unwritten slot before it leaves the window. *)
Definition hits_unwritten (iTimeNow iLastMilisec : Z) (v : list (Z * Z)) : bool :=
  match stop_sample iTimeNow iLastMilisec v with
  | Some s => negb (written s)
  | None => false
  end.

(** The walk never meets a sample whose age exceeds the window. *)
Definition never_leaves_window (iTimeNow iLastMilisec : Z) (v : list (Z * Z))
  : bool :=
  match stop_sample iTimeNow iLastMilisec v with
  | Some s => negb (written s)
  | None => true
  end.

(** The latest sample found: the written sample just before [top]. *)
Definition latest_found (v : list (Z * Z)) : option (Z * Z) :=
  match v with
  | s :: _ => if written s then Some s else None
  | [] => None
  end.

(** The oldest sample of the walk that lies inside the window. *)
Definition oldest_in_window (iTimeNow iLastMilisec : Z) (v : list (Z * Z))
  : option (Z * Z) :=
  last (fst (window_split iTimeNow iLastMilisec v)).

(** The earliest sample found: the oldest sample inside the window.
    When the newest sample is itself older than the window, the
    walk leaves the window at that sample, the first one whose age
    exceeds the window; it is then the earliest as well as the
    latest. *)
Definition earliest_found (iTimeNow iLastMilisec : Z) (v : list (Z * Z))
  : option (Z * Z) :=
  match oldest_in_window iTimeNow iLastMilisec v with
  | Some e => Some e
  | None =>
      match stop_sample iTimeNow iLastMilisec v with
      | Some s => if written s then Some s else None
      | None => None
      end
  end.

(** The latest and the earliest timestamp found are equal. *)
Definition stamps_equal (iTimeNow iLastMilisec : Z) (v : list (Z * Z)) : bool :=
  match latest_found v, earliest_found iTimeNow iLastMilisec v with
  | Some l, Some e => fst l =? fst e
  | _, _ => false
  end.

(** [(latest.count - earliest.count) / ((latest.ts - earliest.ts) / 1000)];
    a sample that was not found reads as zeros. *)
Definition window_ratio (iTimeNow iLastMilisec : Z) (v : list (Z * Z)) : hashrate :=
  let l := default (0, 0) (latest_found v) in
  let e := default (0, 0) (earliest_found iTimeNow iLastMilisec v) in
  Ratio (u64 (snd l - snd e)) (u64 (fst l - fst e)).

(** The query with the three causes of NaN the specification lists. *)
Definition hashrate_as_specified (iTimeNow iLastMilisec : Z) (v : list (Z * Z))
  : hashrate :=
  if hits_unwritten iTimeNow iLastMilisec v
     || never_leaves_window iTimeNow iLastMilisec v
     || stamps_equal iTimeNow iLastMilisec v
  then NaN
  else window_ratio iTimeNow iLastMilisec v.

End Ring.

(** What the walk leaves in its variables, read off the view. *)
Definition walk_summary (iTimeNow iLastMilisec : Z) (v : list (Z * Z))
    (w : walk) : walk :=
  let e := default (iEarliestStamp w, iEarliestHashCnt w)
                   (oldest_in_window iTimeNow iLastMilisec v) in
  let l := if iLastestStamp w =? 0
           then default (iLastestStamp w, iLastestHashCnt w) (latest_found v)
           else (iLastestStamp w, iLastestHashCnt w) in
  {| iEarliestHashCnt := snd e;
     iEarliestStamp := fst e;
     iLastestStamp := fst l;
     iLastestHashCnt := snd l;
     bHaveFullSet :=
       bHaveFullSet w
       || match stop_sample iTimeNow iLastMilisec v with
          | Some s => written s
          | None => false
          end |}.

End Telemetry.

(** ** Start-up: [minethd_alloc_ctx] and [minethd::self_test] *)

Module Startup.
Import Mem.

(** [jconf::slow_mem_cfg]. *)
Inductive slow_mem_cfg : Type :=
| always_use
| no_mlck
| print_warning
| never_use
| unknown_value.

(** The lines handed to [printer::print_msg]. *)
Inductive log_msg : Type :=
| MemoryAllocFailed (warning : option string)
| MemoryInitError (warning : string)
| SelfTestFailed.

(** What the start-up code changes around itself: how many times the
    page allocator was called, what was printed, which contexts were
    given back. *)
Record world := {
  alloc_calls : nat;
  printed : list log_msg;
  released : list nat
}.

(** The collaborators of [crypto/cryptonight_aesni.h].  Both memory
    calls answer with their result and the [warning] they leave in
    [alloc_msg]; the allocator's answer may differ from call to call.
    A kernel is a function of its input and length and gives the
    bytes it writes to [out]; [stack_out] is what the 192 bytes of
    [out] hold before the first kernel runs. *)
Record platform := {
  cryptonight_init : bool -> bool -> Z * option string;
  cryptonight_alloc_ctx : nat -> bool -> bool -> option nat * option string;
  cryptonight_hash : list byte -> Z -> list byte;
  cryptonight_double_hash : list byte -> Z -> list byte;
  cryptonight_quad_hash : list byte -> Z -> list byte;
  cryptonight_pent_hash : list byte -> Z -> list byte;
  cryptonight_hex_hash : list byte -> Z -> list byte;
  stack_out : list byte
}.

(** State passing for the start-up code. *)
Definition M (A : Type) : Type := world -> A * world.

Definition ret {A : Type} (a : A) : M A := fun w => (a, w).

Definition bind {A B : Type} (m : M A) (k : A -> M B) : M B :=
  fun w => let (a, w') := m w in k a w'.

Notation "x <- m ;; k" := (bind m (fun x => k))
  (at level 100, m at next level, right associativity).
Notation "m ;;; k" := (bind m (fun _ => k))
  (at level 100, right associativity).

Definition print_msg (m : log_msg) : M unit :=
  fun w => (tt, {| alloc_calls := alloc_calls w;
                   printed := printed w ++ [m];
                   released := released w |}).

Definition alloc_ctx (P : platform) (use_fast_mem use_mlock : bool)
  : M (option nat * option string) :=
  fun w => (cryptonight_alloc_ctx P (alloc_calls w) use_fast_mem use_mlock,
            {| alloc_calls := S (alloc_calls w);
               printed := printed w;
               released := released w |}).

Definition cryptonight_free_ctx (c : nat) : M unit :=
  fun w => (tt, {| alloc_calls := alloc_calls w;
                   printed := printed w;
                   released := released w ++ [c] |}).

Definition when (b : bool) (m : M unit) : M unit := if b then m else ret tt.

Definition is_null {A : Type} (p : option A) : bool :=
  match p with Some _ => false | None => true end.

Definition minethd_alloc_ctx (P : platform) (mode : slow_mem_cfg) : M (option nat) :=
  match mode with
  | never_use =>
      r <- alloc_ctx P true true ;;
      when (is_null (fst r)) (print_msg (MemoryAllocFailed (snd r))) ;;;
      ret (fst r)
  | no_mlck =>
      r <- alloc_ctx P true false ;;
      when (is_null (fst r)) (print_msg (MemoryAllocFailed (snd r))) ;;;
      ret (fst r)
  | print_warning =>
      r <- alloc_ctx P true true ;;
      when (negb (is_null (snd r))) (print_msg (MemoryAllocFailed (snd r))) ;;;
      match fst r with
      | None => r' <- alloc_ctx P false false ;; ret (fst r')
      | Some c => ret (Some c)
      end
  | always_use =>
      r <- alloc_ctx P false false ;; ret (fst r)
  | unknown_value => ret None
  end.

Fixpoint free_all (cs : list nat) : M unit :=
  match cs with
  | [] => ret tt
  | c :: rest => cryptonight_free_ctx c ;;; free_all rest
  end.

(** The allocation loop of [self_test] with [n] contexts still to
    get; [None] after a failure, once the contexts got so far are
    freed. *)
Fixpoint alloc_contexts (P : platform) (mode : slow_mem_cfg) (n : nat)
    (ctx : list nat) : M (option (list nat)) :=
  match n with
  | O => ret (Some ctx)
  | S k =>
      r <- minethd_alloc_ctx P mode ;;
      match r with
      | None => free_all ctx ;;; ret None
      | Some c => alloc_contexts P mode k (ctx ++ [c])
      end
  end.

Fixpoint bytes_eqb (a b : list byte) : bool :=
  match a, b with
  | [], [] => true
  | x :: a', y :: b' => Byte.eqb x y && bytes_eqb a' b'
  | _, _ => false
  end.

(** [memcmp (out, expected, length expected) == 0]. *)
Definition memcmp_eq (out expected : list byte) : bool :=
  bytes_eqb (take (length expected) out) expected.

(** The digest [cryptonight_hash] must give. *)
Definition expected_single : list byte :=
  [xa0; x84; xf0; x1d; x14; x37; xa0; x9c;
   x69; x85; x40; x1b; x60; xd4; x35; x54;
   xae; x10; x58; x02; xc5; xf5; xd8; xa9;
   xb3; x25; x36; x49; xc0; xbe; x66; x05].

(** The 64 bytes [cryptonight_double_hash] must give. *)
Definition expected_double : list byte :=
  [x3e; xbb; x7f; x9f; x7d; x27; x3d; x7c;
   x31; x8d; x86; x94; x77; x55; x0c; xc8;
   x00; xcf; xb1; x1b; x0c; xad; xb7; xff;
   xbd; xf6; xf8; x9f; x3a; x47; x1c; x59;
   xb4; x77; xd5; x02; xe4; xd8; x48; x7f;
   x42; xdf; xe3; x8e; xed; x73; x81; x7a;
   xda; x91; xb7; xe2; x63; xd2; x91; x71;
   xb6; x5c; x44; x3a; x01; x2a; x41; x22].

(** The 128 bytes [cryptonight_quad_hash] must give. *)
Definition expected_quad : list byte :=
  [xa0; x84; xf0; x1d; x14; x37; xa0; x9c;
   x69; x85; x40; x1b; x60; xd4; x35; x54;
   xae; x10; x58; x02; xc5; xf5; xd8; xa9;
   xb3; x25; x36; x49; xc0; xbe; x66; x05;
   xa0; x84; xf0; x1d; x14; x37; xa0; x9c;
   x69; x85; x40; x1b; x60; xd4; x35; x54;
   xae; x10; x58; x02; xc5; xf5; xd8; xa9;
   xb3; x25; x36; x49; xc0; xbe; x66; x05;
   xa0; x84; xf0; x1d; x14; x37; xa0; x9c;
   x69; x85; x40; x1b; x60; xd4; x35; x54;
   xae; x10; x58; x02; xc5; xf5; xd8; xa9;
   xb3; x25; x36; x49; xc0; xbe; x66; x05;
   xa0; x84; xf0; x1d; x14; x37; xa0; x9c;
   x69; x85; x40; x1b; x60; xd4; x35; x54;
   xae; x10; x58; x02; xc5; xf5; xd8; xa9;
   xb3; x25; x36; x49; xc0; xbe; x66; x05].

(** The 160 bytes [cryptonight_pent_hash] must give. *)
Definition expected_pent : list byte :=
  [xa0; x84; xf0; x1d; x14; x37; xa0; x9c;
   x69; x85; x40; x1b; x60; xd4; x35; x54;
   xae; x10; x58; x02; xc5; xf5; xd8; xa9;
   xb3; x25; x36; x49; xc0; xbe; x66; x05;
   xa0; x84; xf0; x1d; x14; x37; xa0; x9c;
   x69; x85; x40; x1b; x60; xd4; x35; x54;
   xae; x10; x58; x02; xc5; xf5; xd8; xa9;
   xb3; x25; x36; x49; xc0; xbe; x66; x05;
   xa0; x84; xf0; x1d; x14; x37; xa0; x9c;
   x69; x85; x40; x1b; x60; xd4; x35; x54;
   xae; x10; x58; x02; xc5; xf5; xd8; xa9;
   xb3; x25; x36; x49; xc0; xbe; x66; x05;
   xa0; x84; xf0; x1d; x14; x37; xa0; x9c;
   x69; x85; x40; x1b; x60; xd4; x35; x54;
   xae; x10; x58; x02; xc5; xf5; xd8; xa9;
   xb3; x25; x36; x49; xc0; xbe; x66; x05;
   xa0; x84; xf0; x1d; x14; x37; xa0; x9c;
   x69; x85; x40; x1b; x60; xd4; x35; x54;
   xae; x10; x58; x02; xc5; xf5; xd8; xa9;
   xb3; x25; x36; x49; xc0; xbe; x66; x05].

(** The 192 bytes [cryptonight_hex_hash] must give. *)
Definition expected_hex : list byte :=
  [xa0; x84; xf0; x1d; x14; x37; xa0; x9c;
   x69; x85; x40; x1b; x60; xd4; x35; x54;
   xae; x10; x58; x02; xc5; xf5; xd8; xa9;
   xb3; x25; x36; x49; xc0; xbe; x66; x05;
   xa0; x84; xf0; x1d; x14; x37; xa0; x9c;
   x69; x85; x40; x1b; x60; xd4; x35; x54;
   xae; x10; x58; x02; xc5; xf5; xd8; xa9;
   xb3; x25; x36; x49; xc0; xbe; x66; x05;
   xa0; x84; xf0; x1d; x14; x37; xa0; x9c;
   x69; x85; x40; x1b; x60; xd4; x35; x54;
   xae; x10; x58; x02; xc5; xf5; xd8; xa9;
   xb3; x25; x36; x49; xc0; xbe; x66; x05;
   xa0; x84; xf0; x1d; x14; x37; xa0; x9c;
   x69; x85; x40; x1b; x60; xd4; x35; x54;
   xae; x10; x58; x02; xc5; xf5; xd8; xa9;
   xb3; x25; x36; x49; xc0; xbe; x66; x05;
   xa0; x84; xf0; x1d; x14; x37; xa0; x9c;
   x69; x85; x40; x1b; x60; xd4; x35; x54;
   xae; x10; x58; x02; xc5; xf5; xd8; xa9;
   xb3; x25; x36; x49; xc0; xbe; x66; x05;
   xa0; x84; xf0; x1d; x14; x37; xa0; x9c;
   x69; x85; x40; x1b; x60; xd4; x35; x54;
   xae; x10; x58; x02; xc5; xf5; xd8; xa9;
   xb3; x25; x36; x49; xc0; xbe; x66; x05].

Definition input_single : string := "This is a test".
Definition input_double : string :=
  "The quick brown fox jumps over the lazy dogThe quick brown fox jumps over the lazy log".
Definition input_quad : string :=
  "This is a testThis is a testThis is a testThis is a test".
Definition input_pent : string :=
  "This is a testThis is a testThis is a testThis is a testThis is a test".
Definition input_hex : string :=
  "This is a testThis is a testThis is a testThis is a testThis is a testThis is a test".

(** The contents of [out] after each of the five kernel calls. *)
Definition out_single (P : platform) : list byte :=
  store_bytes 0 (cryptonight_hash P (bytes_of_string input_single) 14) (stack_out P).
Definition out_double (P : platform) : list byte :=
  store_bytes 0 (cryptonight_double_hash P (bytes_of_string input_double) 43)
              (out_single P).
Definition out_quad (P : platform) : list byte :=
  store_bytes 0 (cryptonight_quad_hash P (bytes_of_string input_quad) 14)
              (out_double P).
Definition out_pent (P : platform) : list byte :=
  store_bytes 0 (cryptonight_pent_hash P (bytes_of_string input_pent) 14)
              (out_quad P).
Definition out_hex (P : platform) : list byte :=
  store_bytes 0 (cryptonight_hex_hash P (bytes_of_string input_hex) 14)
              (out_pent P).

(** [bResult] after the five comparisons. *)
Definition kernels_match (P : platform) : bool :=
  memcmp_eq (out_single P) expected_single
  && memcmp_eq (out_double P) expected_double
  && memcmp_eq (out_quad P) expected_quad
  && memcmp_eq (out_pent P) expected_pent
  && memcmp_eq (out_hex P) expected_hex.

(** [fatal] as the [switch] of [self_test] sets it. *)
Definition fatal_mode (mode : slow_mem_cfg) : bool :=
  match mode with
  | never_use | no_mlck => true
  | _ => false
  end.

(** The call of [cryptonight_init] the [switch] makes; for
    [unknown_value] the [switch] returns without a call, and the
    value here is never looked at. *)
Definition init_call (P : platform) (mode : slow_mem_cfg) : Z * option string :=
  match mode with
  | never_use => cryptonight_init P true true
  | no_mlck => cryptonight_init P true false
  | print_warning => cryptonight_init P true true
  | always_use => cryptonight_init P false false
  | unknown_value => (0, None)
  end.

Definition self_test (P : platform) (mode : slow_mem_cfg) : M bool :=
  match mode with
  | unknown_value => ret false
  | _ =>
      let res := fst (init_call P mode) in
      let warning := snd (init_call P mode) in
      match warning with
      | Some m => print_msg (MemoryInitError m)
      | None => ret tt
      end ;;;
      if (res =? 0) && fatal_mode mode then ret false
      else
        ctx <- alloc_contexts P mode 6 [] ;;
        match ctx with
        | None => ret false
        | Some cs =>
            let bResult := kernels_match P in
            free_all cs ;;;
            when (negb bResult) (print_msg SelfTestFailed) ;;;
            ret bResult
        end
  end.

(** *** The self test in the words of the specification

    The known answer the specification lists for the single kernel
    on the 14 bytes [This is a test]. *)
Definition spec_known_answer : list byte :=
  [xa0; x84; xf0; x1d; x14; x37; xa0; x9c;
   x69; x85; x40; x1b; x60; xd4; x35; x54;
   xae; x10; x58; x02; xc5; xf5; xd8; xa9;
   xb3; x25; x36; x49; xc0; xbe; x66; x05].

(** The contract of the kernels and the size of [out]: a kernel of
    width [n] writes [32 * n] bytes, [out] has 192. *)
Definition writes_digests (P : platform) : Prop :=
  length (stack_out P) = 192%nat
  /\ forall (input : list byte) (len : Z),
       length (cryptonight_hash P input len) = 32%nat
       /\ length (cryptonight_double_hash P input len) = 64%nat
       /\ length (cryptonight_quad_hash P input len) = 128%nat
       /\ length (cryptonight_pent_hash P input len) = 160%nat
       /\ length (cryptonight_hex_hash P input len) = 192%nat.

(** The answers of [n] successive calls of [minethd_alloc_ctx]. *)
Fixpoint alloc_answers (P : platform) (mode : slow_mem_cfg) (n : nat)
    : M (list (option nat)) :=
  match n with
  | O => ret []
  | S k =>
      r <- minethd_alloc_ctx P mode ;;
      rs <- alloc_answers P mode k ;;
      ret (r :: rs)
  end.

(** The [i + 1] calls of [minethd_alloc_ctx] the allocation loop
    makes when it gives up in pass [i]: [i] contexts, then null. *)
Definition allocation_fails (P : platform) (mode : slow_mem_cfg) (w : world)
    (i : nat) : Prop :=
  exists cs : list nat,
    length cs = i
    /\ fst (alloc_answers P mode (S i) w) = map Some cs ++ [None].

End Startup.

(** ** The pool: shared work slot, [switch_work], [consume_work], the
       constructor of [minethd] *)

Module Pool.
Import Mem.

(** [minethd::miner_work]. *)
Record miner_work := {
  sJobID : list byte;
  bWorkBlob : list byte;
  iWorkSize : Z;
  iResumeCnt : Z;
  iTarget : Z;
  bNiceHash : bool;
  bStall : bool;
  iPoolId : Z
}.

(** The static members of [minethd]. *)
Record shared := {
  iGlobalJobNo : Z;
  iConsumeCnt : Z;
  oGlobalWork : miner_work;
  iThreadCount : Z
}.

(** The member functions a worker thread can be started on. *)
Inductive entry : Type :=
| work_main
| double_work_main
| quad_work_main
| pent_work_main
| hex_work_main.

(** The non-static members of [minethd]. *)
Record minethd := {
  oWork : miner_work;
  bQuit : Z;
  iThreadNo : Z;
  iJobNo : Z;
  iHashCount : Z;
  iTimestamp : Z;
  affinity : Z;
  oWorkThd : entry
}.

(** The [switch (iMultiway)] of the constructor. *)
Definition thread_entry (iMultiway : Z) : entry :=
  match iMultiway with
  | 6 => hex_work_main
  | 5 => pent_work_main
  | 4 => quad_work_main
  | 2 => double_work_main
  | 1 => work_main
  | _ => work_main
  end.

(** [minethd::minethd]; [iMultiway] is an [int], [iNo] is narrowed
    to [uint8_t]. *)
Definition minethd_new (pWork : miner_work) (iNo : Z) (iMultiway : Z)
    (affinity : Z) : minethd :=
  {| oWork := pWork;
     bQuit := 0;
     iThreadNo := wrap 8 iNo;
     iJobNo := 0;
     iHashCount := 0;
     iTimestamp := 0;
     affinity := affinity;
     oWorkThd := thread_entry iMultiway |}.

(** The number of nonces a thread hashes at a time: the first
    argument the entry point passes to [multiway_work_main]. *)
Definition entry_width (e : entry) : nat :=
  match e with
  | work_main => 1
  | double_work_main => 2
  | quad_work_main => 4
  | pent_work_main => 5
  | hex_work_main => 6
  end.

(** What [switch_work] does to the world, in program order. *)
Inductive action : Type :=
| Sleep (ms : Z)
| WriteGlobalWork (w : miner_work)
| StoreConsumeCnt (v : Z)
| IncGlobalJobNo.

(** The polling loop.  The workers raise [iConsumeCnt] while the
    publisher waits: [polls j] is the value the [j]-th load returns.
    The result is the number of sleeps, [None] when [fuel] polls
    were not enough. *)
Fixpoint switch_wait (polls : nat -> Z) (iThreadCount : Z) (fuel j : nat)
    : option nat :=
  match fuel with
  | O => None
  | S fuel' =>
      if polls j <? iThreadCount
      then switch_wait polls iThreadCount fuel' (S j)
      else Some j
  end.

Definition write_global_work (pWork : miner_work) (g : shared) : shared :=
  {| iGlobalJobNo := iGlobalJobNo g; iConsumeCnt := iConsumeCnt g;
     oGlobalWork := pWork; iThreadCount := iThreadCount g |}.

Definition store_consume_cnt (v : Z) (g : shared) : shared :=
  {| iGlobalJobNo := iGlobalJobNo g; iConsumeCnt := v;
     oGlobalWork := oGlobalWork g; iThreadCount := iThreadCount g |}.

Definition inc_global_job_no (g : shared) : shared :=
  {| iGlobalJobNo := u64 (iGlobalJobNo g + 1); iConsumeCnt := iConsumeCnt g;
     oGlobalWork := oGlobalWork g; iThreadCount := iThreadCount g |}.

(** The three statements after the loop, each with the action it
    performs. *)
Definition publish (pWork : miner_work) (g : shared) : list action * shared :=
  let g1 := write_global_work pWork g in
  let g2 := store_consume_cnt 0 g1 in
  let g3 := inc_global_job_no g2 in
  ([WriteGlobalWork pWork; StoreConsumeCnt 0; IncGlobalJobNo], g3).

Definition switch_work (polls : nat -> Z) (fuel : nat) (pWork : miner_work)
    (g : shared) : option (list action * shared) :=
  match switch_wait polls (iThreadCount g) fuel 0 with
  | None => None
  | Some sleeps =>
      let (acts, g') := publish pWork g in
      Some (replicate sleeps (Sleep 100) ++ acts, g')
  end.

Definition set_work (w : miner_work) (iJobNo' : Z) (t : minethd) : minethd :=
  {| oWork := w; bQuit := bQuit t; iThreadNo := iThreadNo t;
     iJobNo := iJobNo'; iHashCount := iHashCount t;
     iTimestamp := iTimestamp t; affinity := affinity t;
     oWorkThd := oWorkThd t |}.

Definition set_stats (iHashCount' iTimestamp' : Z) (t : minethd) : minethd :=
  {| oWork := oWork t; bQuit := bQuit t; iThreadNo := iThreadNo t;
     iJobNo := iJobNo t; iHashCount := iHashCount';
     iTimestamp := iTimestamp'; affinity := affinity t;
     oWorkThd := oWorkThd t |}.

Definition set_blob (blob : list byte) (w : miner_work) : miner_work :=
  {| sJobID := sJobID w; bWorkBlob := blob; iWorkSize := iWorkSize w;
     iResumeCnt := iResumeCnt w; iTarget := iTarget w;
     bNiceHash := bNiceHash w; bStall := bStall w; iPoolId := iPoolId w |}.

(** [minethd::consume_work]. *)
Definition consume_work (g : shared) (t : minethd) : minethd * shared :=
  (set_work (oGlobalWork g) (u64 (iJobNo t + 1)) t,
   store_consume_cnt (u64 (iConsumeCnt g + 1)) g).

End Pool.

(** ** What the hashing loops share

    A worker is modelled from the first test of [oWork.bStall] on and
    for as long as [bQuit] is 0.  Pinning the thread and allocating the
    contexts, which come before, do not touch the state kept here. *)

Module Worker.
Import Mem Pool.

(** [job_result] and [ex_event], as far as a solution fills them. *)
Record job_result := {
  bResult : list byte;
  res_sJobID : list byte;
  res_iNonce : Z
}.

Record ex_event := {
  ev_result : job_result;
  ev_iPoolId : Z
}.

(** The nonce helpers of [minethd.h], whose bodies are not part of
    [minethd.cpp]; both return a [uint32_t]. *)
Record nonce_helpers := {
  calc_start_nonce : Z -> Z;
  calc_nicehash_nonce : Z -> Z -> Z
}.

(** What a worker sees when it tests [iGlobalJobNo == iJobNo]: the
    same job ([iStamp] is the clock, should the round read it), or a
    new one, with the shared state [consume_work] then finds. *)
Inductive obs : Type :=
| Same (iStamp : Z)
| Changed (g : shared).

(** Modelled from the spec: [sizeof (miner_work::bWorkBlob)], declared
    in [minethd.h]; the work blob holds at most 112 bytes. *)
Definition blob_capacity : nat := 112.

Definition MAX_N : nat := 8.

(** A buffer of [n] bytes that was never written: [junk j] is what
    byte [j] happens to hold. *)
Definition uninit (junk : nat -> byte) (n : nat) : list byte :=
  map junk (seq 0 n).

(** The trailing little-endian 64-bit word of a 32-byte digest:
    its bytes 24 to 31. *)
Definition trailing_word (digest : list byte) : Z := load 8 24 digest.

End Worker.

(** ** [minethd::work_main] *)

Module Single.
Import Mem Pool Worker.

(** The locals of [work_main], the members of the thread, the events
    pushed so far, whether the inner loop is running, and the number
    of [consume_work] calls made. *)
Record config := {
  thd : minethd;
  iCount : Z;
  result : job_result;
  hashing : bool;
  events : list ex_event;
  consumes : nat
}.

(** [(iCount & 0xF) == 0]. *)
Definition stats_due (iCount : Z) : bool := Z.land iCount 15 =? 0.

(** [piHashVal = result.bResult + 24], [piNonce = oWork.bWorkBlob + 39]. *)
Definition piHashVal : nat := 24.
Definition piNonce : nat := 39.

Definition work_start (t : minethd) (result0 : job_result) : config :=
  {| thd := t; iCount := 0; result := result0; hashing := false;
     events := []; consumes := 0 |}.

(** The statements between the stall test and the inner loop. *)
Definition begin_job (H : nonce_helpers) (c : config) : config :=
  let w := oWork (thd c) in
  let n :=
    if bNiceHash w
    then u32 (calc_nicehash_nonce H (load 4 piNonce (bWorkBlob w)) (iResumeCnt w))
    else u32 (calc_start_nonce H (iResumeCnt w)) in
  {| thd := thd c; iCount := iCount c;
     result := {| bResult := bResult (result c);
                  res_sJobID := sJobID w;
                  res_iNonce := n |};
     hashing := true; events := events c; consumes := consumes c |}.

(** One pass through the body of the inner loop. *)
Definition round (cryptonight_hash : list byte -> Z -> list byte)
    (iStamp : Z) (c : config) : config :=
  let t1 := if stats_due (iCount c)
            then set_stats (iCount c) iStamp (thd c) else thd c in
  let iCount' := u64 (iCount c + 1) in
  let n := u32 (res_iNonce (result c) + 1) in
  let w := set_blob (store_u32 piNonce n (bWorkBlob (oWork t1))) (oWork t1) in
  let out := store_bytes 0 (cryptonight_hash (bWorkBlob w) (iWorkSize w))
                         (bResult (result c)) in
  let result' := {| bResult := out;
                    res_sJobID := res_sJobID (result c);
                    res_iNonce := n |} in
  let pushed :=
    if load 8 piHashVal out <? iTarget w
    then [{| ev_result := result'; ev_iPoolId := iPoolId w |}]
    else [] in
  {| thd := set_work w (iJobNo t1) t1; iCount := iCount';
     result := result'; hashing := true;
     events := events c ++ pushed; consumes := consumes c |}.

Definition consume (g : shared) (c : config) : config :=
  {| thd := fst (consume_work g (thd c)); iCount := iCount c;
     result := result c; hashing := false;
     events := events c; consumes := S (consumes c) |}.

(** The way from the head of the outer loop to the next test of
    the job number: a thread whose work is not stalled begins the
    job. *)
Definition ready (H : nonce_helpers) (c : config) : config :=
  if hashing c then c
  else if bStall (oWork (thd c)) then c
  else begin_job H c.

(** One test of the job number, from wherever the thread stands. *)
Definition step (H : nonce_helpers)
    (cryptonight_hash : list byte -> Z -> list byte)
    (o : obs) (c : config) : config :=
  let c1 := ready H c in
  match o with
  | Changed g => consume g c1
  | Same iStamp => if hashing c1 then round cryptonight_hash iStamp c1 else c1
  end.

Definition run (H : nonce_helpers)
    (cryptonight_hash : list byte -> Z -> list byte)
    (os : list obs) (c : config) : config :=
  fold_left (fun c o => step H cryptonight_hash o c) os c.

End Single.

(** ** [minethd::multiway_work_main] *)

Module Multiway.
Import Mem Pool Worker.

(** The locals of [multiway_work_main]; a pointer into [bWorkBlob]
    is its offset, [nullptr] is [None]. *)
Record config := {
  thd : minethd;
  iCount : Z;
  piNonce : list (option nat);
  bHashOut : list byte;
  bWorkBlob : list byte;
  iNonce : Z;
  hashing : bool;
  events : list ex_event;
  consumes : nat
}.

(** [(iCount & 0x3) == 0]. *)
Definition stats_due (iCount : Z) : bool := Z.land iCount 3 =? 0.

(** [piHashVal[i] = bHashOut + 32 * i + 24]. *)
Definition piHashVal (i : nat) : nat := (32 * i + 24)%nat.

(** The pointers the loop before the main loop sets. *)
Definition initial_pointers (N : nat) : list (option nat) :=
  map (fun i : nat => if (i =? 0)%nat then Some 39%nat else None) (seq 0 N).

Definition work_start (N : nat) (t : minethd) (junk_hash junk_blob : nat -> byte)
    (iNonce0 : Z) : config :=
  {| thd := t; iCount := 0;
     piNonce := initial_pointers N;
     bHashOut := uninit junk_hash (MAX_N * 32);
     bWorkBlob := uninit junk_blob (blob_capacity * MAX_N);
     iNonce := iNonce0;
     hashing := false; events := []; consumes := 0 |}.

(** The offset of the nonce slot of lane [i] after a refresh. *)
Definition lane_slot (w : miner_work) (i : nat) : nat :=
  (Z.to_nat (iWorkSize w) * i + 39)%nat.

(** The loop after [consume_work]: each lane gets a copy of the work
    blob and its nonce pointer. *)
Definition refresh_blob (N : nat) (w : miner_work) (blob : list byte) : list byte :=
  fold_left
    (fun b (i : nat) =>
       store_bytes (Z.to_nat (iWorkSize w) * i)
                   (take (Z.to_nat (iWorkSize w)) (Pool.bWorkBlob w)) b)
    (seq 0 N) blob.

Definition refresh_pointers (N : nat) (w : miner_work) : list (option nat) :=
  map (fun i : nat => Some (lane_slot w i)) (seq 0 N).

Definition consume (N : nat) (g : shared) (c : config) : config :=
  let t := fst (consume_work g (thd c)) in
  {| thd := t; iCount := iCount c;
     piNonce := refresh_pointers N (oWork t);
     bHashOut := bHashOut c;
     bWorkBlob := refresh_blob N (oWork t) (bWorkBlob c);
     iNonce := iNonce c;
     hashing := false; events := events c; consumes := S (consumes c) |}.

(** [*piNonce[0]]. *)
Definition first_nonce (c : config) : Z :=
  match piNonce c !! 0%nat with
  | Some (Some off) => load 4 off (bWorkBlob c)
  | _ => 0
  end.

Definition begin_job (H : nonce_helpers) (c : config) : config :=
  let w := oWork (thd c) in
  let n :=
    if bNiceHash w
    then u32 (calc_nicehash_nonce H (first_nonce c) (iResumeCnt w))
    else u32 (calc_start_nonce H (iResumeCnt w)) in
  {| thd := thd c; iCount := iCount c; piNonce := piNonce c;
     bHashOut := bHashOut c; bWorkBlob := bWorkBlob c;
     iNonce := n;
     hashing := true; events := events c; consumes := consumes c |}.

(** [for (i < N) if (piNonce[i]) *piNonce[i] = ++iNonce;] over the
    pointers that are left. *)
Fixpoint write_nonces (ps : list (option nat)) (iNonce : Z) (blob : list byte)
    : Z * list byte :=
  match ps with
  | [] => (iNonce, blob)
  | Some off :: rest =>
      write_nonces rest (u32 (iNonce + 1)) (store_u32 off (u32 (iNonce + 1)) blob)
  | None :: rest => write_nonces rest iNonce blob
  end.

(** The digest of lane [i] and the event [push_event] gets for it. *)
Definition lane_digest (bHashOut : list byte) (i : nat) : list byte :=
  take 32 (drop (32 * i) bHashOut).

Definition lane_event (w : miner_work) (N : nat) (iNonce : Z)
    (bHashOut : list byte) (i : nat) : ex_event :=
  {| ev_result :=
       {| bResult := lane_digest bHashOut i;
          res_sJobID := sJobID w;
          res_iNonce := u32 (iNonce - Z.of_nat N + 1 + Z.of_nat i) |};
     ev_iPoolId := iPoolId w |}.

Definition emit_lane (w : miner_work) (N : nat) (iNonce : Z)
    (bHashOut : list byte) (i : nat) : list ex_event :=
  if load 8 (piHashVal i) bHashOut <? iTarget w
  then [lane_event w N iNonce bHashOut i]
  else [].

Definition emit_solutions (w : miner_work) (N : nat) (iNonce : Z)
    (bHashOut : list byte) : list ex_event :=
  flat_map (emit_lane w N iNonce bHashOut) (seq 0 N).

(** One pass through the body of the inner loop. *)
Definition round (hash_fn : list byte -> Z -> list byte) (N : nat)
    (iStamp : Z) (c : config) : config :=
  let t1 := if stats_due (iCount c)
            then set_stats (iCount c) iStamp (thd c) else thd c in
  let iCount' := u64 (iCount c + Z.of_nat N) in
  let wr := write_nonces (piNonce c) (iNonce c) (bWorkBlob c) in
  let out := store_bytes 0 (hash_fn (snd wr) (iWorkSize (oWork t1)))
                         (bHashOut c) in
  {| thd := t1; iCount := iCount';
     piNonce := piNonce c;
     bHashOut := out;
     bWorkBlob := snd wr;
     iNonce := fst wr;
     hashing := true;
     events := events c ++ emit_solutions (oWork t1) N (fst wr) out;
     consumes := consumes c |}.

(** The way from the head of the outer loop to the next test of
    the job number: a thread whose work is not stalled begins the
    job. *)
Definition ready (H : nonce_helpers) (c : config) : config :=
  if hashing c then c
  else if bStall (oWork (thd c)) then c
  else begin_job H c.

Definition step (H : nonce_helpers) (hash_fn : list byte -> Z -> list byte)
    (N : nat) (o : obs) (c : config) : config :=
  let c1 := ready H c in
  match o with
  | Changed g => consume N g c1
  | Same iStamp => if hashing c1 then round hash_fn N iStamp c1 else c1
  end.

Definition run (H : nonce_helpers) (hash_fn : list byte -> Z -> list byte)
    (N : nat) (os : list obs) (c : config) : config :=
  fold_left (fun c o => step H hash_fn N o c) os c.

(** What holds of the pointers along a run: a thread that has not
    consumed yet has the pointers of the loop before the main loop, a
    thread that has consumed has those of the refresh. *)
Definition pointers_ok (N : nat) (c : config) : Prop :=
  length (bWorkBlob c) = (blob_capacity * MAX_N)%nat
  /\ match consumes c with
     | O => piNonce c = initial_pointers N
     | S _ => piNonce c = refresh_pointers N (oWork (thd c))
     end.

(** The nonce the blob holds for lane [i] when the kernel runs on a
    work item [w]. *)
Definition nonce_slot (w : miner_work) (blob : list byte) (i : nat) : Z :=
  load 4 (lane_slot w i) blob.

End Multiway.

(** ** Sampling cadence of the two loops *)

Module Cadence.
Import Mem.

(** The values of [iCount] the next [rounds] passes store to
    [iHashCount], for a loop that tests [due] and then adds [N]. *)
Fixpoint stat_stores (due : Z -> bool) (N : Z) (rounds : nat) (iCount : Z)
    : list Z :=
  match rounds with
  | O => []
  | S r =>
      (if due iCount then [iCount] else [])
        ++ stat_stores due N r (u64 (iCount + N))
  end.

(** Hashes done between the first two samples of a fresh worker. *)
Definition sample_gap (due : Z -> bool) (N : Z) : Z :=
  match stat_stores due N 64 0 with
  | a :: b :: _ => b - a
  | _ => 0
  end.

(** Rounds between two samples of a worker of width [N]. *)
Definition sample_period (N : Z) : Z :=
  match N with
  | 1 => 16
  | 2 => 2
  | 4 => 1
  | 5 => 4
  | 6 => 2
  | _ => 0
  end.

(** A distance that is 16 up to a factor of two. *)
Definition about_16 (d : Z) : Prop := 8 <= d <= 32.

(** The gap of a worker of width [N]: [work_main] for width 1,
    [multiway_work_main] otherwise. *)
Definition width_gap (N : Z) : Z :=
  sample_gap (if N =? 1 then Single.stats_due else Multiway.stats_due) N.

End Cadence.

(** ** Concrete inputs *)

Module Fixtures.
Import Mem Pool Worker.

Definition zero_junk : nat -> byte := fun _ => x00.

(** Helpers that start every job at the resume counter. *)
Definition plain_helpers : nonce_helpers :=
  {| calc_start_nonce := fun resume => resume;
     calc_nicehash_nonce := fun start resume => resume |}.

(** A kernel whose digests are all zero, so every lane beats any
    positive target. *)
Definition zero_kernel : list byte -> Z -> list byte :=
  fun _ _ => replicate 256 x00.

(** A 76-byte job that is not stalled, resuming at nonce 5. *)
Definition job_a : miner_work :=
  {| sJobID := [x41]; bWorkBlob := replicate 112 x00; iWorkSize := 76;
     iResumeCnt := 5; iTarget := 1; bNiceHash := false; bStall := false;
     iPoolId := 0 |}.

(** A double-hash thread constructed on [job_a], before its first
    round and after it. *)
Definition double_thread : Multiway.config :=
  Multiway.work_start 2 (minethd_new job_a 0 2 (-1)) zero_junk zero_junk 0.

Definition double_thread_round1 : Multiway.config :=
  Multiway.step plain_helpers zero_kernel 2 (Same 0) double_thread.

(** A heap whose fresh arrays hold sevens. *)
Definition sevens : nat -> nat -> Z := fun _ _ => 7.

(** The ring of a single thread, sixteen slots, after one sample: 50
    hashes at time 1000. *)
Definition stale_ring : Telemetry.telemetry :=
  Telemetry.push_perf_value 16 0 50 1000 (Telemetry.telemetry_new 16 sevens 1).

(** The same ring after three samples. *)
Definition busy_ring : Telemetry.telemetry :=
  Telemetry.push_perf_value 16 0 400 4500
    (Telemetry.push_perf_value 16 0 160 2000
       (Telemetry.push_perf_value 16 0 0 1000
          (Telemetry.telemetry_new 16 sevens 1))).

End Fixtures.


(** ** [minethd::thread_starter] and the hand-over of a job *)

Module Starter.
Import Mem Pool.

(** [jconf::thd_cfg], as far as [thread_starter] reads it. *)
Record thd_cfg := {
  iMultiway : Z;
  iCpuAff : Z
}.

(** The two lines [thread_starter] prints. *)
Inductive start_msg : Type :=
| StartingWithAffinity (iMultiway affinity : Z)
| StartingNoAffinity (iMultiway : Z).

(** [(int) x] for a 64-bit [x]. *)
Definition to_int (x : Z) : Z := (x + 2 ^ 31) mod 2 ^ 32 - 2 ^ 31.

Definition start_line (cfg : thd_cfg) : start_msg :=
  if iCpuAff cfg >=? 0
  then StartingWithAffinity (iMultiway cfg) (to_int (iCpuAff cfg))
  else StartingNoAffinity (iMultiway cfg).

(** [thread_starter]: [n] is [GetThreadCount ()], [cfg i] is what
    [GetThreadConfig (i, cfg)] leaves in [cfg].  The result is the
    vector of threads, what was printed, and the static members as
    [thread_starter] itself leaves them (the threads it starts raise
    [iConsumeCnt] on their own, see [signal_ready]). *)
Definition thread_starter (n : nat) (cfg : nat -> thd_cfg) (pWork : miner_work)
    (g : shared) : list minethd * list start_msg * shared :=
  (map (fun i : nat =>
          minethd_new pWork (Z.of_nat i) (iMultiway (cfg i)) (iCpuAff (cfg i)))
       (seq 0 n),
   map (fun i : nat => start_line (cfg i)) (seq 0 n),
   {| iGlobalJobNo := 0; iConsumeCnt := 0;
      oGlobalWork := oGlobalWork g; iThreadCount := Z.of_nat n |}).

(** [iConsumeCnt++] before the main loop of a worker. *)
Definition signal_ready (g : shared) : shared :=
  store_consume_cnt (u64 (iConsumeCnt g + 1)) g.

(** [consume_work] by each thread of a list, one after the other. *)
Fixpoint consume_all (g : shared) (ts : list minethd) : list minethd * shared :=
  match ts with
  | [] => ([], g)
  | t :: rest =>
      let t' := fst (consume_work g t) in
      let g1 := snd (consume_work g t) in
      (t' :: fst (consume_all g1 rest), snd (consume_all g1 rest))
  end.

End Starter.

(** ** Notions for the properties of the loops *)

Module Trace.
Import Mem Pool Worker.

(** The work items a run gets to see: the one the thread was built
    on and those [consume_work] finds. *)
Fixpoint changed_works (os : list obs) : list miner_work :=
  match os with
  | [] => []
  | Same _ :: rest => changed_works rest
  | Changed g :: rest => oGlobalWork g :: changed_works rest
  end.

(** The event carries the job id and the pool id of [w]. *)
Definition tagged_by (w : miner_work) (e : ex_event) : Prop :=
  res_sJobID (ev_result e) = sJobID w /\ ev_iPoolId e = iPoolId w.

(** The thread's work carries the ids of a work item seen so far,
    the result under construction carries the job id of the thread's
    work, and so does every event pushed. *)
Definition single_ids_ok (seen : list miner_work) (c : Single.config) : Prop :=
  (exists w, w ∈ seen /\ sJobID (oWork (Single.thd c)) = sJobID w
             /\ iPoolId (oWork (Single.thd c)) = iPoolId w)
  /\ (Single.hashing c = true ->
      res_sJobID (Single.result c) = sJobID (oWork (Single.thd c)))
  /\ Forall (fun e => exists w, w ∈ seen /\ tagged_by w e) (Single.events c).

Definition multi_ids_ok (seen : list miner_work) (c : Multiway.config) : Prop :=
  (exists w, w ∈ seen /\ sJobID (oWork (Multiway.thd c)) = sJobID w
             /\ iPoolId (oWork (Multiway.thd c)) = iPoolId w)
  /\ Forall (fun e => exists w, w ∈ seen /\ tagged_by w e) (Multiway.events c).

(** The leading non-null answers of a list of allocations. *)
Fixpoint leading_contexts (rs : list (option nat)) : list nat :=
  match rs with
  | Some c :: rest => c :: leading_contexts rest
  | _ => []
  end.

(** The bytes of lane [i] of an interleaved blob of lanes of [ws]
    bytes. *)
Definition lane (ws : nat) (blob : list byte) (i : nat) : list byte :=
  take ws (drop (ws * i) blob).

(** A work item as the structure declares it: a blob of
    [blob_capacity] bytes of which [iWorkSize], at least the 43 that
    end with the nonce, are in use. *)
Definition work_fits (w : miner_work) : Prop :=
  length (bWorkBlob w) = blob_capacity /\ 43 <= iWorkSize w <= 112.

(** Once a thread of [multiway_work_main] has consumed, every lane
    of its interleaved blob agrees with the thread's work blob
    outside the four bytes of the nonce. *)
Definition lanes_hold_job (N : nat) (c : Multiway.config) : Prop :=
  (0 < Multiway.consumes c)%nat ->
  work_fits (oWork (Multiway.thd c)) ->
  forall i x : nat,
    (i < N)%nat -> (x < Z.to_nat (iWorkSize (oWork (Multiway.thd c))))%nat ->
    (x < 39)%nat \/ (43 <= x)%nat ->
    Multiway.bWorkBlob c
      !! (Z.to_nat (iWorkSize (oWork (Multiway.thd c))) * i + x)%nat
    = bWorkBlob (oWork (Multiway.thd c)) !! x.

End Trace.

(** ** More concrete inputs *)

Module Fixtures2.
Import Mem Pool Worker.

(** The shared slot holding [Fixtures.job_a] as job number 1 of a
    pool of one thread. *)
Definition slot_a : shared :=
  {| iGlobalJobNo := 1; iConsumeCnt := 0;
     oGlobalWork := Fixtures.job_a; iThreadCount := 1 |}.

(** A stalled work item, as a pool hands out before the first job. *)
Definition idle_work : miner_work :=
  {| sJobID := []; bWorkBlob := replicate 112 x00; iWorkSize := 0;
     iResumeCnt := 0; iTarget := 0; bNiceHash := false; bStall := true;
     iPoolId := 0 |}.

Definition idle_single : Single.config :=
  Single.work_start (minethd_new idle_work 0 1 (-1))
    {| bResult := replicate 32 x00; res_sJobID := []; res_iNonce := 0 |}.

Definition idle_double : Multiway.config :=
  Multiway.work_start 2 (minethd_new idle_work 0 2 (-1))
    Fixtures.zero_junk Fixtures.zero_junk 0.

(** Two threads, the second a double-hash thread pinned to CPU 3. *)
Definition two_threads (i : nat) : Starter.thd_cfg :=
  match i with
  | O => {| Starter.iMultiway := 1; Starter.iCpuAff := -1 |}
  | _ => {| Starter.iMultiway := 2; Starter.iCpuAff := 3 |}
  end.

(** A platform whose memory calls succeed without a warning and
    whose kernels give the bytes [self_test] expects, whatever they
    are asked to hash. *)
Definition sound_platform : Startup.platform :=
  {| Startup.cryptonight_init := fun _ _ => (1, None);
     Startup.cryptonight_alloc_ctx := fun n _ _ => (Some n, None);
     Startup.cryptonight_hash := fun _ _ => Startup.expected_single;
     Startup.cryptonight_double_hash := fun _ _ => Startup.expected_double;
     Startup.cryptonight_quad_hash := fun _ _ => Startup.expected_quad;
     Startup.cryptonight_pent_hash := fun _ _ => Startup.expected_pent;
     Startup.cryptonight_hex_hash := fun _ _ => Startup.expected_hex;
     Startup.stack_out := replicate 192 x00 |}.

(** The same platform with a quad kernel that gives zeros. *)
Definition bad_quad_platform : Startup.platform :=
  {| Startup.cryptonight_init := fun _ _ => (1, None);
     Startup.cryptonight_alloc_ctx := fun n _ _ => (Some n, None);
     Startup.cryptonight_hash := fun _ _ => Startup.expected_single;
     Startup.cryptonight_double_hash := fun _ _ => Startup.expected_double;
     Startup.cryptonight_quad_hash := fun _ _ => replicate 128 x00;
     Startup.cryptonight_pent_hash := fun _ _ => Startup.expected_pent;
     Startup.cryptonight_hex_hash := fun _ _ => Startup.expected_hex;
     Startup.stack_out := replicate 192 x00 |}.

(** A stack that holds the byte [0xee] everywhere. *)
Definition ee_junk : nat -> byte := fun _ => xee.

(** A double-hash thread constructed on [Fixtures.job_a] whose
    [bWorkBlob] lies on such a stack, and a [work_main] thread
    constructed on the same job. *)
Definition raw_double : Multiway.config :=
  Multiway.work_start 2 (minethd_new Fixtures.job_a 0 2 (-1))
    Fixtures.zero_junk ee_junk 0.

Definition live_single : Single.config :=
  Single.work_start (minethd_new Fixtures.job_a 0 1 (-1))
    {| bResult := replicate 32 x00; res_sJobID := []; res_iNonce := 0 |}.

Definition fresh_world : Startup.world :=
  {| Startup.alloc_calls := 0; Startup.printed := []; Startup.released := [] |}.

End Fixtures2.


(** * Properties *)

(** ** Machine integers and byte buffers *)

Section MemFacts.
Import Mem.

Lemma byte_val_range (b : byte) : 0 <= byte_val b < 256.
Proof.
  unfold byte_val.
  pose proof (Byte.to_N_bounded b) as Hb.
  lia.
Qed.

Lemma byte_val_of (z : Z) : byte_val (byte_of z) = z mod 256.
Proof.
  unfold byte_val, byte_of.
  assert (Hr : 0 <= z mod 256 < 256) by (apply Z.mod_pos_bound; lia).
  destruct (Byte.of_N (Z.to_N (z mod 256))) as [b|] eqn:Hb.
  - apply Byte.to_of_N in Hb. rewrite Hb. lia.
  - apply Byte.of_N_None_iff in Hb. lia.
Qed.

Lemma le_encode_length (n : nat) (v : Z) : length (le_encode n v) = n.
Proof.
  revert v. induction n as [|n IH]; intros v; simpl; [reflexivity|].
  now rewrite IH.
Qed.

Lemma le_decode_encode (n : nat) (v : Z) :
  le_decode (le_encode n v) = v mod 256 ^ Z.of_nat n.
Proof.
  revert v. induction n as [|n IH]; intros v.
  - simpl. now rewrite Z.mod_1_r.
  - cbn [le_encode le_decode]. rewrite IH, byte_val_of.
    rewrite Nat2Z.inj_succ, Z.pow_succ_r by lia.
    rewrite Z.rem_mul_r by lia. reflexivity.
Qed.

Lemma le_decode_bound (bs : list byte) :
  0 <= le_decode bs < 256 ^ Z.of_nat (length bs).
Proof.
  induction bs as [|b bs IH].
  - simpl. lia.
  - cbn [le_decode length]. rewrite Nat2Z.inj_succ, Z.pow_succ_r by lia.
    pose proof (byte_val_range b). lia.
Qed.

Lemma store_bytes_length (off : nat) (data buf : list byte) :
  length (store_bytes off data buf) = length buf.
Proof.
  unfold store_bytes. rewrite length_take, !length_app, length_take, length_drop.
  lia.
Qed.

(** A store leaves the bytes outside its range alone. *)
Lemma store_bytes_frame (off : nat) (data buf : list byte) (j : nat) :
  (j < off)%nat \/ (off + length data <= j)%nat ->
  store_bytes off data buf !! j = buf !! j.
Proof.
  intros Hj. unfold store_bytes.
  destruct (decide (j < length buf)%nat) as [Hlt|Hge].
  2:{ rewrite lookup_take_ge by lia. symmetry. apply lookup_ge_None. lia. }
  rewrite lookup_take_lt by lia.
  destruct Hj as [Hj|Hj].
  - rewrite lookup_app_l by (rewrite length_take; lia).
    now rewrite lookup_take_lt.
  - assert (Hoff : (off <= length buf)%nat) by lia.
    rewrite lookup_app_r by (rewrite length_take; lia).
    rewrite length_take, Nat.min_l by lia.
    rewrite lookup_app_r by lia.
    rewrite lookup_drop. f_equal. lia.
Qed.

(** Inside the buffer, the stored bytes are read back. *)
Lemma store_bytes_hit (off : nat) (data buf : list byte) (j : nat) :
  (off + length data <= length buf)%nat ->
  (j < length data)%nat ->
  store_bytes off data buf !! (off + j)%nat = data !! j.
Proof.
  intros Hfit Hj. unfold store_bytes.
  rewrite lookup_take_lt by lia.
  rewrite lookup_app_r by (rewrite length_take; lia).
  rewrite length_take, Nat.min_l by lia.
  rewrite lookup_app_l by lia. f_equal. lia.
Qed.

Lemma load_ext (n off : nat) (a b : list byte) :
  (forall j, (j < n)%nat -> a !! (off + j)%nat = b !! (off + j)%nat) ->
  load n off a = load n off b.
Proof.
  intros H. unfold load. f_equal. apply list_eq. intros j.
  rewrite !lookup_take. destruct (decide (j < n)%nat); [|reflexivity].
  rewrite !lookup_drop. now apply H.
Qed.

Lemma load_exact (n off : nat) (data buf : list byte) :
  length data = n ->
  (forall j, (j < n)%nat -> buf !! (off + j)%nat = data !! j) ->
  load n off buf = le_decode data.
Proof.
  intros Hlen H. unfold load. f_equal. apply list_eq. intros j.
  rewrite lookup_take. destruct (decide (j < n)%nat) as [Hj|Hj].
  - rewrite lookup_drop. now apply H.
  - symmetry. apply lookup_ge_None. lia.
Qed.

Lemma load_store_u32 (off : nat) (v : Z) (buf : list byte) :
  (off + 4 <= length buf)%nat ->
  load 4 off (store_u32 off v buf) = u32 v.
Proof.
  intros Hfit. unfold store_u32.
  rewrite (load_exact 4 off (le_encode 4 v)).
  - rewrite le_decode_encode. reflexivity.
  - apply le_encode_length.
  - intros j Hj. apply store_bytes_hit; rewrite le_encode_length; lia.
Qed.

Lemma load_store_u32_other (n off off' : nat) (v : Z) (buf : list byte) :
  (off' + n <= off)%nat \/ (off + 4 <= off')%nat ->
  load n off' (store_u32 off v buf) = load n off' buf.
Proof.
  intros Hdis. apply load_ext. intros j Hj. unfold store_u32.
  apply store_bytes_frame. rewrite le_encode_length. lia.
Qed.

Lemma u32_idem (x : Z) : u32 (u32 x) = u32 x.
Proof. unfold u32, wrap. apply Z.mod_mod. lia. Qed.

Lemma u32_add_l (x y : Z) : u32 (u32 x + y) = u32 (x + y).
Proof. unfold u32, wrap. apply Zplus_mod_idemp_l. Qed.

Lemma u32_range (x : Z) : 0 <= u32 x < 2 ^ 32.
Proof. unfold u32, wrap. apply Z.mod_pos_bound. lia. Qed.

Lemma u64_range (x : Z) : 0 <= u64 x < 2 ^ 64.
Proof. unfold u64, wrap. apply Z.mod_pos_bound. lia. Qed.

Lemma u64_small (x : Z) : 0 <= x < 2 ^ 64 -> u64 x = x.
Proof. unfold u64, wrap. apply Z.mod_small. Qed.

End MemFacts.


(** ** The constructor and [switch_work] *)

Section PoolFacts.
Import Mem Pool.

Lemma thread_entry_cases (iMultiway : Z) :
  thread_entry iMultiway =
    if iMultiway =? 6 then hex_work_main
    else if iMultiway =? 5 then pent_work_main
    else if iMultiway =? 4 then quad_work_main
    else if iMultiway =? 2 then double_work_main
    else work_main.
Proof.
  destruct iMultiway as [|p|p]; try reflexivity.
  do 4 (try destruct p as [p|p|]; try reflexivity).
Qed.

(** C10.  A thread constructed with a multiway value other than 2, 4,
    5 and 6 (so also 0, 3 and every negative value) is started on
    [work_main] and hashes one nonce at a time. *)
Theorem unknown_width_runs_work_main
    (pWork : miner_work) (iNo iMultiway affinity : Z) :
  iMultiway <> 2 -> iMultiway <> 4 -> iMultiway <> 5 -> iMultiway <> 6 ->
  oWorkThd (minethd_new pWork iNo iMultiway affinity) = work_main
  /\ entry_width (oWorkThd (minethd_new pWork iNo iMultiway affinity)) = 1%nat.
Proof.
  intros H2 H4 H5 H6. cbn [minethd_new oWorkThd].
  rewrite thread_entry_cases.
  destruct (Z.eqb_spec iMultiway 6); [contradiction|].
  destruct (Z.eqb_spec iMultiway 5); [contradiction|].
  destruct (Z.eqb_spec iMultiway 4); [contradiction|].
  destruct (Z.eqb_spec iMultiway 2); [contradiction|].
  split; reflexivity.
Qed.

Lemma unknown_width_witness :
  (oWorkThd (minethd_new Fixtures.job_a 0 0 (-1)) = work_main
   /\ entry_width (oWorkThd (minethd_new Fixtures.job_a 0 0 (-1))) = 1%nat)
  /\ (oWorkThd (minethd_new Fixtures.job_a 1 3 (-1)) = work_main
      /\ entry_width (oWorkThd (minethd_new Fixtures.job_a 1 3 (-1))) = 1%nat)
  /\ (oWorkThd (minethd_new Fixtures.job_a 2 (-4) 0) = work_main
      /\ entry_width (oWorkThd (minethd_new Fixtures.job_a 2 (-4) 0)) = 1%nat).
Proof.
  split; [|split].
  - apply (unknown_width_runs_work_main Fixtures.job_a 0 0 (-1)); lia.
  - apply (unknown_width_runs_work_main Fixtures.job_a 1 3 (-1)); lia.
  - apply (unknown_width_runs_work_main Fixtures.job_a 2 (-4) 0); lia.
Defined.

(** The four known widths keep their own entry points. *)
Lemma known_widths :
  thread_entry 2 = double_work_main /\ thread_entry 4 = quad_work_main
  /\ thread_entry 5 = pent_work_main /\ thread_entry 6 = hex_work_main.
Proof. repeat split. Qed.

(** The polling loop sleeps once for every load that finds the
    counter below the thread count. *)
Lemma switch_wait_below (polls : nat -> Z) (n : Z) (k fuel j : nat) :
  (forall i, (i < k)%nat -> polls (j + i)%nat < n) ->
  switch_wait polls n (k + fuel) j = switch_wait polls n fuel (j + k).
Proof.
  revert j. induction k as [|k IH]; intros j Hlow.
  - simpl. f_equal. lia.
  - cbn [Nat.add switch_wait].
    assert (H0 : polls j < n) by (specialize (Hlow 0%nat); rewrite Nat.add_0_r in Hlow; apply Hlow; lia).
    apply Z.ltb_lt in H0. rewrite H0.
    rewrite IH.
    + f_equal. lia.
    + intros i Hi. replace (S j + i)%nat with (j + S i)%nat by lia.
      apply Hlow. lia.
Qed.

Lemma switch_wait_done (polls : nat -> Z) (n : Z) (k extra : nat) :
  (forall i, (i < k)%nat -> polls i < n) ->
  n <= polls k ->
  switch_wait polls n (S k + extra) 0 = Some k.
Proof.
  intros Hlow Hk.
  replace (S k + extra)%nat with (k + S extra)%nat by lia.
  rewrite switch_wait_below by (intros i Hi; apply Hlow; lia).
  cbn [switch_wait Nat.add].
  assert (Hge : (polls k <? n) = false) by (apply Z.ltb_ge; lia).
  now rewrite Hge.
Qed.

(** Too little fuel gives no answer, never a wrong one. *)
Lemma switch_wait_sound (polls : nat -> Z) (n : Z) (fuel j k : nat) :
  switch_wait polls n fuel j = Some k ->
  n <= polls k /\ (j <= k)%nat
  /\ forall i, (j <= i < k)%nat -> polls i < n.
Proof.
  revert j. induction fuel as [|fuel IH]; intros j; simpl; [discriminate|].
  destruct (Z.ltb_spec (polls j) n) as [Hlt|Hge].
  - intros H. apply IH in H as (H1 & H2 & H3).
    split; [exact H1|]. split; [lia|].
    intros i Hi. destruct (decide (i = j)) as [->|Hne]; [exact Hlt|].
    apply H3. lia.
  - intros [= <-]. split; [exact Hge|]. split; [lia|]. intros i Hi. lia.
Qed.

(** C3.  While [iConsumeCnt] stays within [0, iThreadCount],
    [switch_work] sleeps 100 ms after every poll that does not find
    [iConsumeCnt] equal to [iThreadCount]; after the first poll that
    finds them equal it writes the new work into [oGlobalWork], then
    stores 0 to [iConsumeCnt], then adds one to [iGlobalJobNo], and
    returns. *)
Theorem switch_work_order
    (polls : nat -> Z) (pWork : miner_work) (g : shared) (k extra : nat) :
  (forall j, polls j <= iThreadCount g) ->
  (forall j, (j < k)%nat -> polls j <> iThreadCount g) ->
  polls k = iThreadCount g ->
  switch_work polls (S k + extra) pWork g =
    Some (replicate k (Sleep 100)
            ++ [WriteGlobalWork pWork; StoreConsumeCnt 0; IncGlobalJobNo],
          inc_global_job_no (store_consume_cnt 0 (write_global_work pWork g)))
  /\ oGlobalWork (inc_global_job_no
                    (store_consume_cnt 0 (write_global_work pWork g))) = pWork
  /\ iConsumeCnt (inc_global_job_no
                    (store_consume_cnt 0 (write_global_work pWork g))) = 0
  /\ iGlobalJobNo (inc_global_job_no
                     (store_consume_cnt 0 (write_global_work pWork g)))
     = u64 (iGlobalJobNo g + 1).
Proof.
  intros Hinv Hwait Hk.
  split; [|repeat split].
  unfold switch_work.
  rewrite switch_wait_done.
  - reflexivity.
  - intros i Hi. specialize (Hinv i). specialize (Hwait i Hi). lia.
  - lia.
Qed.

Lemma switch_work_order_witness :
  switch_work (fun j => Z.of_nat (Nat.min j 2)) 5 Fixtures.job_a
    {| iGlobalJobNo := 7; iConsumeCnt := 0;
       oGlobalWork := Fixtures.job_a; iThreadCount := 2 |}
  = Some ([Sleep 100; Sleep 100; WriteGlobalWork Fixtures.job_a;
           StoreConsumeCnt 0; IncGlobalJobNo],
          {| iGlobalJobNo := 8; iConsumeCnt := 0;
             oGlobalWork := Fixtures.job_a; iThreadCount := 2 |}).
Proof.
  refine (proj1 (switch_work_order (fun j => Z.of_nat (Nat.min j 2))
                   Fixtures.job_a
                   {| iGlobalJobNo := 7; iConsumeCnt := 0;
                      oGlobalWork := Fixtures.job_a; iThreadCount := 2 |}
                   2 2 _ _ _)); cbn; intros; lia.
Defined.

End PoolFacts.


(** ** The telemetry constructor *)

Section CtorFacts.
Import Telemetry.

Variable iBucketSize : nat.
Variable heap : nat -> nat -> Z.

Local Abbreviation ctor_prefix := (Telemetry.ctor_prefix iBucketSize heap).

Lemma ctor_prefix_S (iThd n : nat) :
  ctor_prefix iThd (S n) = ctor_body iBucketSize heap (ctor_prefix iThd n) n.
Proof.
  unfold ctor_prefix. rewrite seq_S, fold_left_app. reflexivity.
Qed.

Lemma ctor_prefix_lengths (iThd n : nat) :
  length (ppHashCounts (ctor_prefix iThd n)) = iThd
  /\ length (ppTimestamps (ctor_prefix iThd n)) = iThd.
Proof.
  induction n as [|n [IH1 IH2]].
  - cbn. now rewrite !length_replicate.
  - rewrite ctor_prefix_S. cbn. now rewrite !length_insert.
Qed.

Lemma body_row (rows : list (list Z)) (n r : nat) (fresh zero : list Z) :
  (n < length rows)%nat ->
  <[0%nat := zero]> (<[n := fresh]> rows) !! r
    = if (r =? 0)%nat then Some zero
      else if (r =? n)%nat then Some fresh
      else rows !! r.
Proof.
  intros Hn.
  destruct (Nat.eqb_spec r 0) as [Hr0|Hr0].
  - subst r. apply list_lookup_insert_eq. rewrite length_insert. lia.
  - rewrite list_lookup_insert_ne by lia.
    destruct (Nat.eqb_spec r n) as [Hrn|Hrn].
    + subst r. now apply list_lookup_insert_eq.
    + apply list_lookup_insert_ne. lia.
Qed.

(** Row 0 is cleared in every pass; a later row keeps what its
    fresh array held. *)
Lemma ctor_prefix_rows (iThd n r : nat) :
  (r < n)%nat -> (n <= iThd)%nat ->
  ppHashCounts (ctor_prefix iThd n) !! r
    = Some (if (r =? 0)%nat then zero_row iBucketSize
            else new_row iBucketSize heap (2 * r))
  /\ ppTimestamps (ctor_prefix iThd n) !! r
    = Some (if (r =? 0)%nat then zero_row iBucketSize
            else new_row iBucketSize heap (2 * r + 1)).
Proof.
  induction n as [|n IH]; intros Hr Hn; [lia|].
  rewrite ctor_prefix_S.
  destruct (ctor_prefix_lengths iThd n) as [L1 L2].
  cbn [ctor_body ppHashCounts ppTimestamps].
  rewrite !body_row by lia.
  destruct (Nat.eqb_spec r 0) as [Hr0|Hr0]; [now split|].
  destruct (Nat.eqb_spec r n) as [Hrn|Hrn]; [subst r; now split|].
  destruct IH as [IH1 IH2]; [lia|lia|].
  rewrite IH1, IH2.
  destruct (Nat.eqb_spec r 0); [lia|]. now split.
Qed.

Lemma telemetry_new_rows (iThd r : nat) :
  (0 < r < iThd)%nat ->
  ppHashCounts (telemetry_new iBucketSize heap iThd) !! r
    = Some (new_row iBucketSize heap (2 * r))
  /\ ppTimestamps (telemetry_new iBucketSize heap iThd) !! r
    = Some (new_row iBucketSize heap (2 * r + 1)).
Proof.
  intros Hr.
  destruct (ctor_prefix_rows iThd iThd r) as [H1 H2]; [lia|lia|].
  destruct (Nat.eqb_spec r 0); [lia|]. now split.
Qed.

Lemma telemetry_new_row0 (iThd : nat) :
  (0 < iThd)%nat ->
  ppHashCounts (telemetry_new iBucketSize heap iThd) !! 0%nat
    = Some (zero_row iBucketSize)
  /\ ppTimestamps (telemetry_new iBucketSize heap iThd) !! 0%nat
    = Some (zero_row iBucketSize).
Proof.
  intros Hr. exact (ctor_prefix_rows iThd iThd 0%nat Hr (Nat.le_refl _)).
Qed.

End CtorFacts.

(** C5.  The code at the failing input: a telemetry object for two
    threads on a heap whose fresh arrays hold sevens.  Row 0 of both
    buffers is zero, row 1 of both still holds the sevens, so each of
    its slots reads as a written sample (timestamp 7). *)
Theorem telemetry_ctor_clears_row0_only :
  let t := Telemetry.telemetry_new 16 Fixtures.sevens 2 in
  Telemetry.ppTimestamps t !! 0%nat = Some (replicate 16 0)
  /\ Telemetry.ppHashCounts t !! 0%nat = Some (replicate 16 0)
  /\ Telemetry.ppTimestamps t !! 1%nat = Some (replicate 16 7)
  /\ Telemetry.ppHashCounts t !! 1%nat = Some (replicate 16 7)
  /\ Telemetry.written (Telemetry.cell (Telemetry.ppTimestamps t) 1 0,
                        Telemetry.cell (Telemetry.ppHashCounts t) 1 0) = true.
Proof. repeat split. Qed.

(** ** The context allocator and the self test *)

Section StartupFacts.
Import Mem Startup.

Variable P : platform.

(** C8.  In [print_warning] mode [minethd_alloc_ctx] first asks for
    a context on huge pages with mlock; it prints the warning of that
    attempt if there is one; when the attempt gave no context it asks
    again for regular pages and returns that answer.  So it returns
    null only when both attempts, the second on regular pages, gave
    null. *)
Theorem print_warning_falls_back (w : world) :
  let first := cryptonight_alloc_ctx P (alloc_calls w) true true in
  let second := cryptonight_alloc_ctx P (S (alloc_calls w)) false false in
  let r := minethd_alloc_ctx P print_warning w in
  fst r = match fst first with
          | Some c => Some c
          | None => fst second
          end
  /\ printed (snd r)
     = printed w ++ match snd first with
                    | Some m => [MemoryAllocFailed (Some m)]
                    | None => []
                    end
  /\ alloc_calls (snd r)
     = (if is_null (fst first) then 2 + alloc_calls w else 1 + alloc_calls w)%nat
  /\ (fst r = None <-> fst first = None /\ fst second = None).
Proof.
  cbn zeta. unfold minethd_alloc_ctx, bind, alloc_ctx, when, print_msg, ret.
  cbn.
  destruct (cryptonight_alloc_ctx P (alloc_calls w) true true) as [[c|] [m|]];
    cbn; rewrite ?app_nil_r; repeat split; try tauto; try discriminate;
    try (intros [? ?]; discriminate).
Qed.

Lemma bytes_eqb_eq (a b : list byte) : bytes_eqb a b = true <-> a = b.
Proof.
  revert b. induction a as [|x a IH]; intros [|y b]; simpl;
    try (split; [discriminate|discriminate]); [tauto|].
  rewrite andb_true_iff, IH. split.
  - intros [Hxy ->]. apply Byte.byte_dec_bl in Hxy. now subst.
  - intros [= -> ->]. split; [now apply Byte.byte_dec_lb|reflexivity].
Qed.

Lemma memcmp_eq_false (out expected : list byte) :
  memcmp_eq out expected = false <-> take (length expected) out <> expected.
Proof.
  unfold memcmp_eq. rewrite <- not_true_iff_false, bytes_eqb_eq. tauto.
Qed.

Lemma kernels_match_false :
  kernels_match P = false <->
    take 32 (out_single P) <> expected_single
    \/ take 64 (out_double P) <> expected_double
    \/ take 128 (out_quad P) <> expected_quad
    \/ take 160 (out_pent P) <> expected_pent
    \/ take 192 (out_hex P) <> expected_hex.
Proof.
  unfold kernels_match. rewrite !andb_false_iff, !memcmp_eq_false.
  change (length expected_single) with 32%nat.
  change (length expected_double) with 64%nat.
  change (length expected_quad) with 128%nat.
  change (length expected_pent) with 160%nat.
  change (length expected_hex) with 192%nat.
  tauto.
Qed.

(** The allocator's answers depend on the world only through the
    number of calls made so far. *)
Lemma minethd_alloc_ctx_calls (mode : slow_mem_cfg) (w1 w2 : world) :
  alloc_calls w1 = alloc_calls w2 ->
  fst (minethd_alloc_ctx P mode w1) = fst (minethd_alloc_ctx P mode w2)
  /\ alloc_calls (snd (minethd_alloc_ctx P mode w1))
     = alloc_calls (snd (minethd_alloc_ctx P mode w2)).
Proof.
  intros Hc.
  destruct mode; unfold minethd_alloc_ctx, bind, alloc_ctx, when, print_msg, ret;
    cbn; rewrite Hc;
    repeat match goal with
           | |- context [cryptonight_alloc_ctx P ?n ?a ?b] =>
               let r := fresh "r" in
               destruct (cryptonight_alloc_ctx P n a b) as [[?|] [?|]] eqn:r; cbn
           end; rewrite ?Hc; auto.
Qed.

Lemma alloc_answers_calls (mode : slow_mem_cfg) (n : nat) (w1 w2 : world) :
  alloc_calls w1 = alloc_calls w2 ->
  fst (alloc_answers P mode n w1) = fst (alloc_answers P mode n w2).
Proof.
  revert w1 w2. induction n as [|n IH]; intros w1 w2 Hc; [reflexivity|].
  cbn [alloc_answers]. unfold bind at 1 3.
  destruct (minethd_alloc_ctx_calls mode w1 w2 Hc) as [Hr Hw].
  destruct (minethd_alloc_ctx P mode w1) as [r1 w1'].
  destruct (minethd_alloc_ctx P mode w2) as [r2 w2'].
  cbn in Hr, Hw. subst r2.
  unfold bind, ret.
  specialize (IH w1' w2' Hw).
  destruct (alloc_answers P mode n w1') as [a1 ?].
  destruct (alloc_answers P mode n w2') as [a2 ?].
  cbn in IH |- *. now subst.
Qed.

Lemma alloc_answers_S (mode : slow_mem_cfg) (n : nat) (w : world) :
  fst (alloc_answers P mode (S n) w)
  = fst (minethd_alloc_ctx P mode w)
      :: fst (alloc_answers P mode n (snd (minethd_alloc_ctx P mode w))).
Proof.
  cbn [alloc_answers]. unfold bind, ret.
  destruct (minethd_alloc_ctx P mode w) as [r w']. cbn [fst snd].
  destruct (alloc_answers P mode n w') as [rs w'']. reflexivity.
Qed.

(** The allocation loop fails exactly when one of its passes gets
    null after contexts in all earlier passes. *)
Lemma alloc_contexts_none (mode : slow_mem_cfg) (n : nat) (ctx : list nat)
    (w : world) :
  fst (alloc_contexts P mode n ctx w) = None <->
  exists i, (i < n)%nat /\ allocation_fails P mode w i.
Proof.
  unfold allocation_fails.
  revert ctx w. induction n as [|n IH]; intros ctx w.
  - cbn. split; [discriminate|]. intros (i & Hi & _). lia.
  - cbn [alloc_contexts]. unfold bind at 1.
    destruct (minethd_alloc_ctx P mode w) as [[c|] w'] eqn:Hr.
    + rewrite IH. split.
      * intros (i & Hi & cs & Hlen & Hans). exists (S i). split; [lia|].
        exists (c :: cs). split; [cbn; lia|].
        rewrite alloc_answers_S, Hr. cbn [fst snd]. rewrite Hans. reflexivity.
      * intros (i & Hi & cs & Hlen & Hans).
        rewrite alloc_answers_S, Hr in Hans. cbn [fst snd] in Hans.
        destruct i as [|i].
        -- destruct cs; [|discriminate]. discriminate.
        -- destruct cs as [|c' cs]; [discriminate|].
           cbn [map app] in Hans. injection Hans as _ Hans.
           exists i. split; [lia|]. exists cs. split; [cbn in Hlen; lia|exact Hans].
    + unfold bind, ret. destruct (free_all ctx w') as [u w'']. cbn [fst].
      split; [|reflexivity]. intros _. exists 0%nat. split; [lia|].
      exists []. split; [reflexivity|].
      rewrite alloc_answers_S, Hr. reflexivity.
Qed.

Lemma allocation_fails_calls (mode : slow_mem_cfg) (i : nat) (w1 w2 : world) :
  alloc_calls w1 = alloc_calls w2 ->
  allocation_fails P mode w1 i <-> allocation_fails P mode w2 i.
Proof.
  intros Hc. unfold allocation_fails.
  now rewrite (alloc_answers_calls mode (S i) w1 w2 Hc).
Qed.

(** What the first bytes of a buffer hold after a kernel wrote
    there. *)
Lemma take_store_bytes (data buf : list byte) :
  (length data <= length buf)%nat ->
  take (length data) (store_bytes 0 data buf) = data.
Proof.
  intros Hlen. unfold store_bytes. rewrite take_0. cbn [app Nat.add].
  rewrite take_take, Nat.min_l by exact Hlen.
  apply take_app_length.
Qed.

(** With kernels that keep their contract, each comparison of
    [self_test] reads what the kernel just wrote. *)
Lemma kernel_outputs :
  writes_digests P ->
  take 32 (out_single P) = cryptonight_hash P (bytes_of_string input_single) 14
  /\ take 64 (out_double P)
     = cryptonight_double_hash P (bytes_of_string input_double) 43
  /\ take 128 (out_quad P)
     = cryptonight_quad_hash P (bytes_of_string input_quad) 14
  /\ take 160 (out_pent P)
     = cryptonight_pent_hash P (bytes_of_string input_pent) 14
  /\ take 192 (out_hex P)
     = cryptonight_hex_hash P (bytes_of_string input_hex) 14.
Proof.
  intros [Hout Hk].
  assert (L1 : length (out_single P) = 192%nat)
    by (unfold out_single; now rewrite store_bytes_length).
  assert (L2 : length (out_double P) = 192%nat)
    by (unfold out_double; now rewrite store_bytes_length).
  assert (L3 : length (out_quad P) = 192%nat)
    by (unfold out_quad; now rewrite store_bytes_length).
  assert (L4 : length (out_pent P) = 192%nat)
    by (unfold out_pent; now rewrite store_bytes_length).
  destruct (Hk (bytes_of_string input_single) 14) as (K1 & _).
  destruct (Hk (bytes_of_string input_double) 43) as (_ & K2 & _).
  destruct (Hk (bytes_of_string input_quad) 14) as (_ & _ & K3 & _).
  destruct (Hk (bytes_of_string input_pent) 14) as (_ & _ & _ & K4 & _).
  destruct (Hk (bytes_of_string input_hex) 14) as (_ & _ & _ & _ & K5).
  repeat split.
  - rewrite <- K1 at 1. apply take_store_bytes. lia.
  - rewrite <- K2 at 1. apply take_store_bytes. lia.
  - rewrite <- K3 at 1. apply take_store_bytes. lia.
  - rewrite <- K4 at 1. apply take_store_bytes. lia.
  - rewrite <- K5 at 1. apply take_store_bytes. lia.
Qed.

(** [self_test] in a mode other than [unknown_value], as a
    function of the three things it looks at. *)
Lemma self_test_result (mode : slow_mem_cfg) (w : world) :
  mode <> unknown_value ->
  exists w1,
    alloc_calls w1 = alloc_calls w
    /\ fst (self_test P mode w)
       = if (fst (init_call P mode) =? 0) && fatal_mode mode
         then false
         else match fst (alloc_contexts P mode 6 [] w1) with
              | None => false
              | Some _ => kernels_match P
              end.
Proof.
  intros Hmode.
  exists (snd (match snd (init_call P mode) with
               | Some m => print_msg (MemoryInitError m)
               | None => ret tt
               end w)).
  split; [destruct (snd (init_call P mode)); reflexivity|].
  destruct mode; try congruence; cbn [self_test]; unfold bind at 1;
    destruct (snd (init_call P _)); cbn [print_msg ret snd];
    destruct ((fst (init_call P _) =? 0) && fatal_mode _); try reflexivity;
    unfold bind at 1;
    match goal with
    | |- context [alloc_contexts P ?m 6 [] ?w0] =>
        destruct (alloc_contexts P m 6 [] w0) as [[cs|] w2]; cbn [fst];
        [|reflexivity]
    end;
    unfold bind, when, ret;
    destruct (free_all cs w2) as [u w3];
    destruct (negb (kernels_match P)); reflexivity.
Qed.

(** C7.  In each of the four memory modes [self_test] returns false
    exactly when [cryptonight_init] gives 0 in a strict mode (called
    with huge pages and mlock in [never_use], with huge pages and
    without mlock in [no_mlck]), or one of the six passes of the
    allocation loop gets null from [minethd_alloc_ctx], or the bytes
    one of the five kernels writes differ from the bytes expected of
    it.  The single kernel is run on the 14 bytes [This is a test]
    and must give the known answer; the quad, pent and hex kernels
    are run on 4, 5 and 6 copies of these 14 bytes, with length 14,
    and must give 4, 5 and 6 copies of that answer; the double
    kernel is run with length 43 on its own input.  The kernels are
    taken to write 32 bytes per lane.  For the value [unknown_value],
    which is none of the four modes, [self_test] returns false at
    once: nothing is called and nothing printed. *)
Theorem self_test_false_iff (mode : slow_mem_cfg) (w : world) :
  writes_digests P ->
  let test := bytes_of_string "This is a test" in
  let fox :=
    bytes_of_string
      "The quick brown fox jumps over the lazy dogThe quick brown fox jumps over the lazy log" in
  (mode = unknown_value -> self_test P mode w = (false, w))
  /\ (mode <> unknown_value ->
      (fst (self_test P mode w) = false <->
         (mode = never_use /\ fst (cryptonight_init P true true) = 0)
         \/ (mode = no_mlck /\ fst (cryptonight_init P true false) = 0)
         \/ (exists i, (i < 6)%nat /\ allocation_fails P mode w i)
         \/ cryptonight_hash P test 14 <> spec_known_answer
         \/ cryptonight_double_hash P fox 43 <> expected_double
         \/ cryptonight_quad_hash P (concat (replicate 4 test)) 14
            <> concat (replicate 4 spec_known_answer)
         \/ cryptonight_pent_hash P (concat (replicate 5 test)) 14
            <> concat (replicate 5 spec_known_answer)
         \/ cryptonight_hex_hash P (concat (replicate 6 test)) 14
            <> concat (replicate 6 spec_known_answer)))
  /\ length test = 14%nat
  /\ take 8 expected_double = [x3e; xbb; x7f; x9f; x7d; x27; x3d; x7c].
Proof.
  intros Hsizes test fox.
  split; [intros ->; reflexivity|].
  split; [|split; reflexivity].
  intros Hmode.
  destruct (self_test_result mode w Hmode) as (w1 & Hw1 & ->).
  destruct (kernel_outputs Hsizes) as (K1 & K2 & K3 & K4 & K5).
  pose proof kernels_match_false as Hk.
  rewrite K1, K2, K3, K4, K5 in Hk.
  change (bytes_of_string input_single) with test in Hk.
  change (bytes_of_string input_double) with fox in Hk.
  change (bytes_of_string input_quad) with (concat (replicate 4 test)) in Hk.
  change (bytes_of_string input_pent) with (concat (replicate 5 test)) in Hk.
  change (bytes_of_string input_hex) with (concat (replicate 6 test)) in Hk.
  change expected_single with spec_known_answer in Hk.
  change expected_quad with (concat (replicate 4 spec_known_answer)) in Hk.
  change expected_pent with (concat (replicate 5 spec_known_answer)) in Hk.
  change expected_hex with (concat (replicate 6 spec_known_answer)) in Hk.
  rewrite <- Hk.
  assert (Ha : (exists i, (i < 6)%nat /\ allocation_fails P mode w i)
               <-> fst (alloc_contexts P mode 6 [] w1) = None).
  { rewrite alloc_contexts_none. split; intros (i & Hi & Hf); exists i;
      (split; [exact Hi|]);
      now apply (allocation_fails_calls mode i w1 w Hw1). }
  rewrite Ha.
  clear Hk K1 K2 K3 K4 K5 Ha Hsizes. clear test fox.
  generalize (fst (alloc_contexts P mode 6 [] w1)) (kernels_match P).
  intros ctx bResult.
  destruct mode; [| | | |contradiction]; cbn [init_call fatal_mode];
    rewrite ?andb_true_r, ?andb_false_r; cbn [negb];
    try match goal with
        | |- context [fst (cryptonight_init P ?a ?b) =? 0] =>
            destruct (Z.eqb_spec (fst (cryptonight_init P a b)) 0)
        end;
    destruct ctx; destruct bResult;
    intuition (try discriminate; try contradiction).
Qed.

End StartupFacts.

(** [self_test] on a platform whose quad kernel gives zeros. *)
Lemma self_test_false_iff_witness :
  Startup.writes_digests Fixtures2.bad_quad_platform
  /\ (fst (Startup.self_test Fixtures2.bad_quad_platform Startup.no_mlck
             Fixtures2.fresh_world) = false <->
        (Startup.no_mlck = Startup.never_use
         /\ fst (Startup.cryptonight_init Fixtures2.bad_quad_platform true true) = 0)
        \/ (Startup.no_mlck = Startup.no_mlck
            /\ fst (Startup.cryptonight_init Fixtures2.bad_quad_platform true false) = 0)
        \/ (exists i, (i < 6)%nat
                      /\ Startup.allocation_fails Fixtures2.bad_quad_platform
                           Startup.no_mlck Fixtures2.fresh_world i)
        \/ Startup.cryptonight_hash Fixtures2.bad_quad_platform
             (Mem.bytes_of_string "This is a test") 14
           <> Startup.spec_known_answer
        \/ Startup.cryptonight_double_hash Fixtures2.bad_quad_platform
             (Mem.bytes_of_string
                "The quick brown fox jumps over the lazy dogThe quick brown fox jumps over the lazy log")
             43
           <> Startup.expected_double
        \/ Startup.cryptonight_quad_hash Fixtures2.bad_quad_platform
             (concat (replicate 4 (Mem.bytes_of_string "This is a test"))) 14
           <> concat (replicate 4 Startup.spec_known_answer)
        \/ Startup.cryptonight_pent_hash Fixtures2.bad_quad_platform
             (concat (replicate 5 (Mem.bytes_of_string "This is a test"))) 14
           <> concat (replicate 5 Startup.spec_known_answer)
        \/ Startup.cryptonight_hex_hash Fixtures2.bad_quad_platform
             (concat (replicate 6 (Mem.bytes_of_string "This is a test"))) 14
           <> concat (replicate 6 Startup.spec_known_answer)).
Proof.
  assert (Hs : Startup.writes_digests Fixtures2.bad_quad_platform)
    by (split; [reflexivity|intros input len; repeat split]).
  split; [exact Hs|].
  apply (self_test_false_iff Fixtures2.bad_quad_platform Startup.no_mlck
           Fixtures2.fresh_world Hs).
  discriminate.
Defined.

(** The self test passes on [sound_platform] and fails on
    [bad_quad_platform], in each case after freeing the six contexts
    it got. *)
Example self_test_runs :
  Startup.self_test Fixtures2.sound_platform Startup.always_use
    Fixtures2.fresh_world
  = (true, {| Startup.alloc_calls := 6; Startup.printed := [];
              Startup.released := [0; 1; 2; 3; 4; 5]%nat |})
  /\ Startup.self_test Fixtures2.bad_quad_platform Startup.always_use
       Fixtures2.fresh_world
     = (false, {| Startup.alloc_calls := 6;
                  Startup.printed := [Startup.SelfTestFailed];
                  Startup.released := [0; 1; 2; 3; 4; 5]%nat |}).
Proof. split; reflexivity. Qed.


(** ** The hashrate query *)

Section HashrateFacts.
Import Mem Telemetry.

Variable iBucketSize : nat.
Variable k : nat.
Hypothesis size_pow2 : Z.of_nat iBucketSize = 2 ^ Z.of_nat k.
Hypothesis size_fits : (k <= 64)%nat.

(** Masking the wrapped difference is reduction modulo the ring
    size. *)
Lemma slot_index_mod (t : telemetry) (iThread : nat) (i : Z) :
  slot_index iBucketSize t iThread i
  = (default 0 (iBucketTop t !! iThread) - i) mod Z.of_nat iBucketSize.
Proof.
  unfold slot_index, iBucketMask, u64, wrap.
  rewrite size_pow2.
  replace (2 ^ Z.of_nat k - 1) with (Z.ones (Z.of_nat k))
    by (rewrite Z.ones_equiv; lia).
  rewrite Z.land_ones by lia.
  apply Z.mod_mod_divide.
  exists (2 ^ (64 - Z.of_nat k)).
  rewrite <- Z.pow_add_r by lia. f_equal. lia.
Qed.

Lemma walk_loop_view (t : telemetry) (now win : Z) (iThread : nat)
    (js : list nat) (w : walk) :
  walk_loop iBucketSize t now win iThread (map Z.of_nat js) w
  = walk_view now win
      (map (fun i : nat =>
              let top := default 0 (iBucketTop t !! iThread) in
              let idx := (top - Z.of_nat i) mod Z.of_nat iBucketSize in
              (cell (ppTimestamps t) iThread idx,
               cell (ppHashCounts t) iThread idx)) js) w.
Proof.
  revert w. induction js as [|j js IH]; intros w; [reflexivity|].
  cbn [map walk_loop walk_view]. rewrite slot_index_mod.
  destruct (_ =? 0); [reflexivity|].
  destruct (_ >? win); [reflexivity|].
  apply IH.
Qed.

Lemma calc_telemetry_data_view (t : telemetry) (now win : Z) (iThread : nat) :
  calc_telemetry_data iBucketSize t now win iThread
  = let w := walk_view now win (backward_view iBucketSize t iThread) walk_init in
    if negb (bHaveFullSet w) || (iEarliestStamp w =? 0) || (iLastestStamp w =? 0)
    then NaN
    else if u64 (iLastestStamp w - iEarliestStamp w) =? 0
    then NaN
    else Ratio (u64 (iLastestHashCnt w - iEarliestHashCnt w))
               (u64 (iLastestStamp w - iEarliestStamp w)).
Proof.
  unfold calc_telemetry_data, walk_range, backward_view.
  now rewrite walk_loop_view.
Qed.

End HashrateFacts.

Section WalkFacts.
Import Mem Telemetry.

Variables now win : Z.

Local Abbreviation walk_summary := (Telemetry.walk_summary now win).

Lemma walk_view_summary (v : list (Z * Z)) (w : walk) :
  bHaveFullSet w = false ->
  walk_view now win v w = walk_summary v w.
Proof.
  revert w. induction v as [|[stamp count] rest IH]; intros w Hfull.
  - unfold walk_summary, oldest_in_window, stop_sample. cbn.
    destruct w as [a b c d f]. cbn in *. subst f.
    destruct (c =? 0); reflexivity.
  - cbn [walk_view].
    unfold walk_summary, oldest_in_window, stop_sample, latest_found.
    cbn [window_split]. unfold in_window, written, age. cbn [fst snd].
    destruct (stamp =? 0) eqn:Hs.
    + cbn. destruct w as [a b c d f]. cbn in *. subst f. rewrite ?Hs.
      destruct (c =? 0); reflexivity.
    + cbn [negb andb].
      destruct (Z.gtb_spec (u64 (now - stamp)) win) as [Hold|Hin].
      * assert (Hle : (u64 (now - stamp) <=? win) = false)
          by (apply Z.leb_gt; lia).
        rewrite Hle. cbn. rewrite Hfull, Hs. cbn.
        destruct (iLastestStamp w =? 0); reflexivity.
      * assert (Hle : (u64 (now - stamp) <=? win) = true)
          by (apply Z.leb_le; lia).
        rewrite Hle. cbn [fst snd].
        rewrite IH.
        2:{ destruct (iLastestStamp w =? 0); exact Hfull. }
        unfold walk_summary, oldest_in_window, stop_sample.
        cbn [iEarliestStamp iEarliestHashCnt iLastestStamp iLastestHashCnt
             bHaveFullSet].
        assert (Hl : (iLastestStamp
                        (if iLastestStamp w =? 0
                         then {| iEarliestHashCnt := iEarliestHashCnt w;
                                 iEarliestStamp := iEarliestStamp w;
                                 iLastestStamp := stamp;
                                 iLastestHashCnt := count;
                                 bHaveFullSet := bHaveFullSet w |}
                         else w) =? 0) = false).
        { destruct (iLastestStamp w =? 0) eqn:Hw; [exact Hs|exact Hw]. }
        rewrite Hl.
        assert (Hlast : default (stamp, count)
                          (last (fst (window_split now win rest)))
                        = default (iEarliestStamp w, iEarliestHashCnt w)
                            (last ((stamp, count)
                                     :: fst (window_split now win rest)))).
        { destruct (fst (window_split now win rest)) as [|s p]; [reflexivity|].
          change (last ((stamp, count) :: s :: p)) with (last (s :: p)).
          destruct (last (s :: p)) as [e|] eqn:He; [reflexivity|].
          apply last_None in He. discriminate. }
        rewrite Hlast.
        destruct (iLastestStamp w =? 0); reflexivity.
Qed.




End WalkFacts.


Section HashrateClaim.
Import Mem Telemetry.

Variable iBucketSize : nat.
Variable k : nat.
Hypothesis size_pow2 : Z.of_nat iBucketSize = 2 ^ Z.of_nat k.
Hypothesis size_fits : (k <= 64)%nat.













End HashrateClaim.


(** The query on [busy_ring] at time 5000 with a window of 3500 ms:
    240 hashes in 2500 ms. *)
Example busy_ring_rate :
  Telemetry.calc_telemetry_data 16 Fixtures.busy_ring 5000 3500 0
  = Telemetry.Ratio 240 2500.
Proof. reflexivity. Qed.

(** The earliest sample of the quotient is the oldest one inside the
    window (2000, 160), not the sample at which the walk stops
    (1000, 0). *)
Example earliest_is_inside_window :
  Telemetry.stop_sample 5000 3500 (Telemetry.backward_view 16 Fixtures.busy_ring 0)
  = Some (1000, 0)
  /\ Telemetry.earliest_found 5000 3500
       (Telemetry.backward_view 16 Fixtures.busy_ring 0)
     = Some (2000, 160)
  /\ Telemetry.calc_telemetry_data 16 Fixtures.busy_ring 5000 3500 0
     = Telemetry.Ratio (400 - 160) (4500 - 2000).
Proof. repeat split. Qed.

(** The only sample of [stale_ring] is 4000 ms old at time 5000.  With
    a window of 1000 ms the walk leaves the window at this sample: it
    is the latest and the earliest sample found, their timestamps are
    equal, and the query is NaN. *)
Example stale_ring_is_nan :
  let v := Telemetry.backward_view 16 Fixtures.stale_ring 0 in
  Telemetry.latest_found v = Some (1000, 50)
  /\ Telemetry.earliest_found 5000 1000 v = Some (1000, 50)
  /\ Telemetry.hits_unwritten 5000 1000 v = false
  /\ Telemetry.stamps_equal 5000 1000 v = true
  /\ Telemetry.hashrate_as_specified 5000 1000 v = Telemetry.NaN
  /\ Telemetry.calc_telemetry_data 16 Fixtures.stale_ring 5000 1000 0
     = Telemetry.NaN.
Proof. repeat split. Qed.

(** One sample inside the window and an older one outside it: the
    latest and the earliest sample found are the same sample, and the
    query is NaN. *)
Example one_sample_in_window :
  let v := Telemetry.backward_view 16 Fixtures.busy_ring 0 in
  Telemetry.latest_found v = Some (4500, 400)
  /\ Telemetry.earliest_found 5000 1000 v = Some (4500, 400)
  /\ Telemetry.stop_sample 5000 1000 v = Some (2000, 160)
  /\ Telemetry.calc_telemetry_data 16 Fixtures.busy_ring 5000 1000 0
     = Telemetry.NaN.
Proof. repeat split. Qed.


(** ** The target test of the two hashing loops *)

Section TargetFacts.
Import Mem Pool Worker.

Lemma trailing_word_nonneg (digest : list byte) : 0 <= trailing_word digest.
Proof. unfold trailing_word, load. apply le_decode_bound. Qed.

(** [*piHashVal[i]] is the trailing word of the digest of lane [i]. *)
Lemma piHashVal_trailing (out : list byte) (i : nat) :
  load 8 (Multiway.piHashVal i) out
  = trailing_word (Multiway.lane_digest out i).
Proof.
  unfold trailing_word, load, Multiway.piHashVal, Multiway.lane_digest.
  f_equal. apply list_eq. intros j.
  rewrite !lookup_take. destruct (decide (j < 8)%nat) as [Hj|Hj]; [|reflexivity].
  rewrite !lookup_drop, lookup_take_lt by lia. rewrite lookup_drop.
  f_equal. lia.
Qed.

(** Lanes of one round carry different nonces, so their events
    differ. *)
Lemma lane_event_inj (w : miner_work) (N : nat) (iNonce : Z) (out : list byte)
    (i j : nat) :
  (i < N)%nat -> (j < N)%nat -> (N <= MAX_N)%nat ->
  Multiway.lane_event w N iNonce out i = Multiway.lane_event w N iNonce out j ->
  i = j.
Proof.
  unfold MAX_N. intros Hi Hj HN Heq.
  apply (f_equal (fun e => res_iNonce (ev_result e))) in Heq. cbn in Heq.
  unfold u32, wrap in Heq.
  assert (Hd : ((iNonce - Z.of_nat N + 1 + Z.of_nat i)
                - (iNonce - Z.of_nat N + 1 + Z.of_nat j)) mod 2 ^ 32 = 0).
  { rewrite Zminus_mod, Heq, Z.sub_diag. reflexivity. }
  apply Z.mod_divide in Hd; [|lia]. destruct Hd as [q Hq].
  assert (q = 0) by nia. lia.
Qed.

Lemma emit_solutions_in (w : miner_work) (N : nat) (iNonce : Z) (out : list byte)
    (e : ex_event) :
  In e (Multiway.emit_solutions w N iNonce out) <->
  exists j, (j < N)%nat
            /\ trailing_word (Multiway.lane_digest out j) < iTarget w
            /\ e = Multiway.lane_event w N iNonce out j.
Proof.
  unfold Multiway.emit_solutions. rewrite in_flat_map. split.
  - intros (j & Hj & He). apply in_seq in Hj.
    unfold Multiway.emit_lane in He. rewrite piHashVal_trailing in He.
    destruct (Z.ltb_spec (trailing_word (Multiway.lane_digest out j)) (iTarget w))
      as [Hlt|Hge]; [|destruct He].
    destruct He as [<-|[]]. exists j. repeat split; [lia|exact Hlt].
  - intros (j & Hj & Hlt & ->). exists j. split; [apply in_seq; lia|].
    unfold Multiway.emit_lane. rewrite piHashVal_trailing.
    apply Z.ltb_lt in Hlt. rewrite Hlt. now left.
Qed.

(** C1.  In a round of [work_main] an event is pushed exactly when
    the trailing 64-bit word of the digest just computed is below
    [iTarget].  In a round of [multiway_work_main] the events pushed
    are events of lanes, and the event of lane [i] is among them
    exactly when the trailing word of the digest of lane [i] is below
    [iTarget].  With a target of 0 no round pushes anything, and a
    trailing word equal to the target pushes nothing. *)
Theorem solution_iff_below_target
    (cryptonight_hash hash_fn : list byte -> Z -> list byte)
    (N : nat) (iStamp : Z) (s : Single.config) (m : Multiway.config) :
  (N <= MAX_N)%nat ->
  let s' := Single.round cryptonight_hash iStamp s in
  let m' := Multiway.round hash_fn N iStamp m in
  let sw := oWork (Single.thd s) in
  let mw := oWork (Multiway.thd m) in
  let word := trailing_word (bResult (Single.result s')) in
  let lane_word i := trailing_word (Multiway.lane_digest (Multiway.bHashOut m') i) in
  let lane_ev i :=
    Multiway.lane_event mw N (Multiway.iNonce m') (Multiway.bHashOut m') i in
  (* single *)
  (word < iTarget sw ->
   Single.events s'
   = Single.events s ++ [{| ev_result := Single.result s';
                            ev_iPoolId := iPoolId sw |}])
  /\ (iTarget sw <= word -> Single.events s' = Single.events s)
  /\ (iTarget sw = 0 -> Single.events s' = Single.events s)
  (* multiway *)
  /\ (exists pushed,
        Multiway.events m' = Multiway.events m ++ pushed
        /\ (forall e, In e pushed -> exists i, (i < N)%nat /\ e = lane_ev i)
        /\ (forall i, (i < N)%nat ->
                      (In (lane_ev i) pushed <-> lane_word i < iTarget mw))
        /\ (iTarget mw = 0 -> pushed = [])
        /\ (forall i, (i < N)%nat -> lane_word i = iTarget mw ->
                      ~ In (lane_ev i) pushed)).
Proof.
  intros HN s' m' sw mw word lane_word lane_ev.
  assert (Hsw : iTarget (oWork (if Single.stats_due (Single.iCount s)
                                then set_stats (Single.iCount s) iStamp (Single.thd s)
                                else Single.thd s)) = iTarget sw
                /\ iPoolId (oWork (if Single.stats_due (Single.iCount s)
                                   then set_stats (Single.iCount s) iStamp (Single.thd s)
                                   else Single.thd s)) = iPoolId sw)
    by (destruct (Single.stats_due (Single.iCount s)); split; reflexivity).
  assert (Hmw : oWork (if Multiway.stats_due (Multiway.iCount m)
                       then set_stats (Multiway.iCount m) iStamp (Multiway.thd m)
                       else Multiway.thd m) = mw)
    by (destruct (Multiway.stats_due (Multiway.iCount m)); reflexivity).
  destruct Hsw as [Hst Hsp].
  assert (Hnone : iTarget sw <= word -> Single.events s' = Single.events s).
  { intros Hge. subst s' word. unfold Single.round in *.
    cbn [Single.events Single.result bResult iTarget iPoolId set_blob] in *.
    rewrite Hst. unfold trailing_word, Single.piHashVal in *.
    apply Z.ltb_ge in Hge. rewrite Hge. apply app_nil_r. }
  split; [|split; [exact Hnone|split]].
  - intros Hlt. subst s' word. unfold Single.round in *.
    cbn [Single.events Single.result bResult iTarget iPoolId set_blob] in *.
    rewrite Hst, Hsp. unfold trailing_word, Single.piHashVal in *.
    apply Z.ltb_lt in Hlt. rewrite Hlt. reflexivity.
  - intros Hz. apply Hnone. rewrite Hz. apply trailing_word_nonneg.
  - exists (Multiway.emit_solutions mw N (Multiway.iNonce m')
              (Multiway.bHashOut m')).
    assert (Hin : forall i, (i < N)%nat ->
              In (lane_ev i)
                 (Multiway.emit_solutions mw N (Multiway.iNonce m')
                    (Multiway.bHashOut m'))
              <-> lane_word i < iTarget mw).
    { intros i Hi. rewrite emit_solutions_in. split.
      - intros (j & Hj & Hlt & Heq).
        apply lane_event_inj in Heq; [|assumption..]. now subst j.
      - intros Hlt. exists i. auto. }
    split; [|split; [|split; [|split]]].
    + subst m'. unfold Multiway.round.
      cbn [Multiway.events Multiway.iNonce Multiway.bHashOut].
      now rewrite Hmw.
    + intros e He. apply emit_solutions_in in He as (j & Hj & _ & ->). eauto.
    + exact Hin.
    + intros Hz.
      destruct (Multiway.emit_solutions mw N (Multiway.iNonce m')
                  (Multiway.bHashOut m')) as [|e rest] eqn:Hem; [reflexivity|].
      assert (He : In e (Multiway.emit_solutions mw N (Multiway.iNonce m')
                           (Multiway.bHashOut m')))
        by (rewrite Hem; now left).
      apply emit_solutions_in in He as (j & _ & Hlt & _).
      pose proof (trailing_word_nonneg
                    (Multiway.lane_digest (Multiway.bHashOut m') j)). lia.
    + intros i Hi Heq Hcontra. apply Hin in Hcontra; [|exact Hi].
      subst lane_word. cbn beta in *. lia.
Qed.

End TargetFacts.

Lemma solution_iff_below_target_witness :
  (2 <= Worker.MAX_N)%nat
  /\ Single.events
       (Single.round Fixtures.zero_kernel 0
          (Single.begin_job Fixtures.plain_helpers
             (Single.work_start (Pool.minethd_new Fixtures.job_a 0 1 (-1))
                {| Worker.bResult := replicate 32 x00;
                   Worker.res_sJobID := []; Worker.res_iNonce := 0 |})))
     = [{| Worker.ev_result :=
             {| Worker.bResult := replicate 32 x00;
                Worker.res_sJobID := [x41]; Worker.res_iNonce := 6 |};
           Worker.ev_iPoolId := 0 |}].
Proof.
  assert (HN : (2 <= Worker.MAX_N)%nat) by (unfold Worker.MAX_N; lia).
  split; [exact HN|].
  apply (proj1 (solution_iff_below_target Fixtures.zero_kernel Fixtures.zero_kernel
                  2 0
                  (Single.begin_job Fixtures.plain_helpers
                     (Single.work_start (Pool.minethd_new Fixtures.job_a 0 1 (-1))
                        {| Worker.bResult := replicate 32 x00;
                           Worker.res_sJobID := []; Worker.res_iNonce := 0 |}))
                  Fixtures.double_thread HN)).
  vm_compute. reflexivity.
Defined.


(** ** Telemetry cadence *)

Section CadenceFacts.
Import Mem Pool Worker Cadence.

Variable H : nonce_helpers.
Variable hash : list byte -> Z -> list byte.

Lemma single_stats_due (x : Z) : Single.stats_due x = true <-> x mod 16 = 0.
Proof.
  unfold Single.stats_due. change 15 with (Z.ones 4).
  rewrite Z.land_ones by lia. apply Z.eqb_eq.
Qed.

Lemma multi_stats_due (x : Z) : Multiway.stats_due x = true <-> x mod 4 = 0.
Proof.
  unfold Multiway.stats_due. change 3 with (Z.ones 2).
  rewrite Z.land_ones by lia. apply Z.eqb_eq.
Qed.

(** A multiple of the width is a multiple of four exactly every
    [sample_period] rounds. *)
Lemma period_of_width (N : nat) (r : Z) :
  In N [2; 4; 5; 6]%nat ->
  (r * Z.of_nat N) mod 4 = 0 <-> r mod sample_period (Z.of_nat N) = 0.
Proof.
  intros HN. cbn in HN.
  destruct HN as [<-|[<-|[<-|[<-|[]]]]];
    match goal with
    | |- context [Z.of_nat ?n] =>
        let v := eval vm_compute in (Z.of_nat n) in
        change (Z.of_nat n) with v
    end;
    match goal with
    | |- context [sample_period ?n] =>
        let v := eval vm_compute in (sample_period n) in
        change (sample_period n) with v
    end;
    split; intros Hm; Z.div_mod_to_equations; lia.
Qed.

Lemma single_step_same (st : Z) (c : Single.config) :
  Single.hashing c = true ->
  Single.step H hash (Same st) c = Single.round hash st c.
Proof.
  intros Hh. unfold Single.step, Single.ready. rewrite Hh. cbn zeta.
  now rewrite Hh.
Qed.

Lemma multi_step_same (N : nat) (st : Z) (c : Multiway.config) :
  Multiway.hashing c = true ->
  Multiway.step H hash N (Same st) c = Multiway.round hash N st c.
Proof.
  intros Hh. unfold Multiway.step, Multiway.ready. rewrite Hh. cbn zeta.
  now rewrite Hh.
Qed.

Lemma single_run_count (stamps : list Z) (c : Single.config) :
  Single.hashing c = true ->
  Single.hashing (Single.run H hash (map Same stamps) c) = true
  /\ u64 (Single.iCount (Single.run H hash (map Same stamps) c))
     = u64 (Single.iCount c + Z.of_nat (length stamps)).
Proof.
  revert c. induction stamps as [|st stamps IH]; intros c Hh.
  - cbn. rewrite Z.add_0_r. auto.
  - cbn [map length]. unfold Single.run. cbn [fold_left].
    fold (Single.run H hash (map Same stamps) (Single.step H hash (Same st) c)).
    rewrite single_step_same by exact Hh.
    destruct (IH (Single.round hash st c) eq_refl) as [IH1 IH2].
    split; [exact IH1|]. rewrite IH2.
    cbn [Single.round Single.iCount]. unfold u64, wrap.
    rewrite Zplus_mod_idemp_l. f_equal. lia.
Qed.

Lemma multi_run_count (N : nat) (stamps : list Z) (c : Multiway.config) :
  Multiway.hashing c = true ->
  Multiway.hashing (Multiway.run H hash N (map Same stamps) c) = true
  /\ u64 (Multiway.iCount (Multiway.run H hash N (map Same stamps) c))
     = u64 (Multiway.iCount c + Z.of_nat (length stamps) * Z.of_nat N).
Proof.
  revert c. induction stamps as [|st stamps IH]; intros c Hh.
  - cbn. rewrite Z.add_0_r. auto.
  - cbn [map length]. unfold Multiway.run. cbn [fold_left].
    fold (Multiway.run H hash N (map Same stamps)
            (Multiway.step H hash N (Same st) c)).
    rewrite multi_step_same by exact Hh.
    destruct (IH (Multiway.round hash N st c) eq_refl) as [IH1 IH2].
    split; [exact IH1|]. rewrite IH2.
    cbn [Multiway.round Multiway.iCount]. unfold u64, wrap.
    rewrite Zplus_mod_idemp_l. f_equal. lia.
Qed.

(** After a round the count is a reduced 64-bit number. *)
Lemma single_round_count (st : Z) (c : Single.config) :
  Single.iCount (Single.round hash st c) = u64 (Single.iCount c + 1).
Proof. reflexivity. Qed.

Lemma multi_round_count (N : nat) (st : Z) (c : Multiway.config) :
  Multiway.iCount (Multiway.round hash N st c)
  = u64 (Multiway.iCount c + Z.of_nat N).
Proof. reflexivity. Qed.

Lemma u64_idem (x : Z) : u64 (u64 x) = u64 x.
Proof. unfold u64, wrap. apply Z.mod_mod. lia. Qed.

Lemma single_run_count_exact (stamps : list Z) (c : Single.config) :
  Single.hashing c = true -> Single.iCount c = 0 ->
  Z.of_nat (length stamps) < 2 ^ 64 ->
  Single.iCount (Single.run H hash (map Same stamps) c)
  = Z.of_nat (length stamps).
Proof.
  intros Hh H0 Hlen.
  destruct (single_run_count stamps c Hh) as [_ Hc].
  rewrite H0, Z.add_0_l in Hc.
  rewrite (u64_small (Z.of_nat (length stamps))) in Hc by lia.
  rewrite <- Hc. symmetry.
  destruct stamps as [|st stamps] using rev_ind.
  - cbn. rewrite H0. reflexivity.
  - rewrite map_app. unfold Single.run. rewrite fold_left_app. cbn [map fold_left].
    fold (Single.run H hash (map Same stamps) c).
    rewrite single_step_same
      by (apply (single_run_count stamps c Hh)).
    rewrite single_round_count. apply u64_idem.
Qed.

Lemma multi_run_count_exact (N : nat) (stamps : list Z) (c : Multiway.config) :
  Multiway.hashing c = true -> Multiway.iCount c = 0 ->
  Z.of_nat (length stamps) * Z.of_nat N < 2 ^ 64 ->
  Multiway.iCount (Multiway.run H hash N (map Same stamps) c)
  = Z.of_nat (length stamps) * Z.of_nat N.
Proof.
  intros Hh H0 Hlen.
  destruct (multi_run_count N stamps c Hh) as [_ Hc].
  rewrite H0, Z.add_0_l in Hc.
  rewrite (u64_small (Z.of_nat (length stamps) * Z.of_nat N)) in Hc by lia.
  rewrite <- Hc. symmetry.
  destruct stamps as [|st stamps] using rev_ind.
  - cbn. rewrite H0. reflexivity.
  - rewrite map_app. unfold Multiway.run. rewrite fold_left_app.
    cbn [map fold_left].
    fold (Multiway.run H hash N (map Same stamps) c).
    rewrite multi_step_same
      by (apply (multi_run_count N stamps c Hh)).
    rewrite multi_round_count. apply u64_idem.
Qed.

(** The cadence of the code.  Take a worker that has begun a job with
    a count of 0 and has made [r] rounds.  Its count is [r] in
    [work_main] and [r * N] in [multiway_work_main].  The next round
    stores the count and the clock exactly when [count & 0xF == 0]
    resp. [count & 0x3 == 0].  For [work_main] these are the rounds
    [r] divisible by 16: a sample every 16 hashes.  For width 2, 4, 5
    and 6 these are the rounds divisible by 2, 1, 4 and 2: a sample
    every 4, 4, 20 and 12 hashes. *)
Theorem sampling_cadence
    (N : nat) (stamps : list Z) (iStamp : Z)
    (s : Single.config) (m : Multiway.config) :
  In N [2; 4; 5; 6]%nat ->
  Single.hashing s = true -> Single.iCount s = 0 ->
  Multiway.hashing m = true -> Multiway.iCount m = 0 ->
  Z.of_nat (length stamps) * Z.of_nat N < 2 ^ 64 ->
  let r := Z.of_nat (length stamps) in
  let s_r := Single.run H hash (map Same stamps) s in
  let m_r := Multiway.run H hash N (map Same stamps) m in
  let s' := Single.round hash iStamp s_r in
  let m' := Multiway.round hash N iStamp m_r in
  Single.iCount s_r = r
  /\ Multiway.iCount m_r = r * Z.of_nat N
  /\ (iHashCount (Single.thd s'), iTimestamp (Single.thd s'))
     = (if Z.land (Single.iCount s_r) 15 =? 0
        then (Single.iCount s_r, iStamp)
        else (iHashCount (Single.thd s_r), iTimestamp (Single.thd s_r)))
  /\ (iHashCount (Multiway.thd m'), iTimestamp (Multiway.thd m'))
     = (if Z.land (Multiway.iCount m_r) 3 =? 0
        then (Multiway.iCount m_r, iStamp)
        else (iHashCount (Multiway.thd m_r), iTimestamp (Multiway.thd m_r)))
  /\ (Z.land (Single.iCount s_r) 15 = 0 <-> r mod 16 = 0)
  /\ (Z.land (Multiway.iCount m_r) 3 = 0
      <-> r mod sample_period (Z.of_nat N) = 0)
  /\ In (N, sample_period (Z.of_nat N) * Z.of_nat N)
        [(2%nat, 4); (4%nat, 4); (5%nat, 20); (6%nat, 12)].
Proof.
  intros HN Hs Hs0 Hm Hm0 Hlen r s_r m_r s' m'.
  assert (HN2 : 2 <= Z.of_nat N)
    by (cbn in HN; destruct HN as [<-|[<-|[<-|[<-|[]]]]]; lia).
  assert (Hsr : Single.iCount s_r = r).
  { apply single_run_count_exact; [assumption..|]. subst r. nia. }
  assert (Hmr : Multiway.iCount m_r = r * Z.of_nat N)
    by (apply multi_run_count_exact; assumption).
  split; [exact Hsr|]. split; [exact Hmr|].
  split; [|split; [|split; [|split]]].
  - subst s'. unfold Single.round. cbn [Single.thd set_work iHashCount iTimestamp].
    unfold Single.stats_due.
    destruct (Z.land (Single.iCount s_r) 15 =? 0); reflexivity.
  - subst m'. unfold Multiway.round. cbn [Multiway.thd].
    unfold Multiway.stats_due.
    destruct (Z.land (Multiway.iCount m_r) 3 =? 0); reflexivity.
  - rewrite Hsr. rewrite <- single_stats_due. unfold Single.stats_due.
    symmetry. apply Z.eqb_eq.
  - rewrite Hmr. rewrite <- period_of_width by exact HN.
    rewrite <- multi_stats_due. unfold Multiway.stats_due.
    symmetry. apply Z.eqb_eq.
  - cbn in HN. destruct HN as [<-|[<-|[<-|[<-|[]]]]]; cbn; tauto.
Qed.

End CadenceFacts.

Lemma sampling_cadence_witness :
  let m := Multiway.begin_job Fixtures.plain_helpers Fixtures.double_thread in
  let m_r := Multiway.run Fixtures.plain_helpers Fixtures.zero_kernel 2
               (map Worker.Same [10; 20; 30]) m in
  Multiway.iCount m_r = 6
  /\ (Z.land (Multiway.iCount m_r) 3 = 0 <-> 3 mod 2 = 0).
Proof.
  pose proof (sampling_cadence Fixtures.plain_helpers Fixtures.zero_kernel
                2 [10; 20; 30] 40
                (Single.begin_job Fixtures.plain_helpers
                   (Single.work_start (Pool.minethd_new Fixtures.job_a 0 1 (-1))
                      {| Worker.bResult := replicate 32 x00;
                         Worker.res_sJobID := []; Worker.res_iNonce := 0 |}))
                (Multiway.begin_job Fixtures.plain_helpers Fixtures.double_thread)
                ltac:(cbn; tauto) eq_refl eq_refl eq_refl eq_refl
                ltac:(cbn; lia)) as Hc.
  cbn zeta in Hc. destruct Hc as (_ & Hcount & _ & _ & _ & Hdue & _).
  split; [exact Hcount|exact Hdue].
Defined.

(** C6.  The code at the failing input: a double-hash thread on a job
    that is not stalled.  Its count advances by 2 per round and the
    test [(iCount & 0x3) == 0] holds at every multiple of 4: the
    thread stores a sample in its first round (count 0) and again in
    its third (count 4), every 4 hashes.  The comment at the test says
    every [N * 4] hashes, which is 8 here, and the specification says
    about every 16.  Over the five widths the samples are 16, 4, 4, 20
    and 12 hashes apart, where [N * 4] is 8, 16, 20 and 24 for the
    widths 2, 4, 5 and 6: only the widths 1 and 5 keep to it. *)
Theorem multiway_samples_every_4_hashes :
  let after (os : list Worker.obs) :=
    Multiway.run Fixtures.plain_helpers Fixtures.zero_kernel 2 os
      Fixtures.double_thread in
  let sample (c : Multiway.config) :=
    (Multiway.iCount c, Pool.iHashCount (Multiway.thd c),
     Pool.iTimestamp (Multiway.thd c)) in
  sample (after [Worker.Same 10]) = (2, 0, 10)
  /\ sample (after [Worker.Same 10; Worker.Same 20]) = (4, 0, 10)
  /\ sample (after [Worker.Same 10; Worker.Same 20; Worker.Same 30]) = (6, 4, 30)
  /\ Cadence.stat_stores Multiway.stats_due 2 8 0 = [0; 4; 8; 12]
  /\ map Cadence.width_gap [1; 2; 4; 5; 6] = [16; 4; 4; 20; 12]
  /\ map (fun N => N * 4) [2; 4; 5; 6] = [8; 16; 20; 24]
  /\ Cadence.width_gap 2 <> 2 * 4
  /\ ~ Cadence.about_16 (Cadence.width_gap 2)
  /\ ~ (forall N, In N [1; 2; 4; 5; 6] -> Cadence.about_16 (Cadence.width_gap N)).
Proof.
  cbn zeta.
  assert (Hgap : Cadence.width_gap 2 = 4) by reflexivity.
  repeat (split; [reflexivity|]).
  split; [rewrite Hgap; discriminate|].
  assert (Hnot : ~ Cadence.about_16 (Cadence.width_gap 2))
    by (rewrite Hgap; unfold Cadence.about_16; lia).
  split; [exact Hnot|].
  intros Hall. apply Hnot, Hall. cbn. tauto.
Qed.


(** ** Nonces of the multiway loop *)

Section NonceFacts.
Import Mem Pool Worker Multiway.

Variable H : nonce_helpers.
Variable hash_fn : list byte -> Z -> list byte.
Variable N : nat.

Lemma store_u32_length (off : nat) (v : Z) (blob : list byte) :
  length (store_u32 off v blob) = length blob.
Proof. apply store_bytes_length. Qed.

Lemma write_nonces_null (n : nat) (k : Z) (blob : list byte) :
  write_nonces (replicate n None) k blob = (k, blob).
Proof. induction n as [|n IH]; [reflexivity|exact IH]. Qed.

Lemma null_pointers (a n : nat) :
  (0 < a)%nat ->
  map (fun i : nat => if (i =? 0)%nat then Some 39%nat else None) (seq a n)
  = replicate n None.
Proof.
  revert a. induction n as [|n IH]; intros a Ha; [reflexivity|].
  cbn [seq map replicate]. rewrite IH by lia.
  destruct (Nat.eqb_spec a 0); [lia|reflexivity].
Qed.

Lemma initial_pointers_S (n : nat) :
  initial_pointers (S n) = Some 39%nat :: replicate n None.
Proof.
  unfold initial_pointers. cbn [seq map Nat.eqb]. now rewrite null_pointers by lia.
Qed.

Lemma write_nonces_length (ps : list (option nat)) (k : Z) (blob : list byte) :
  length (snd (write_nonces ps k blob)) = length blob.
Proof.
  revert k blob. induction ps as [|[off|] ps IH]; intros k blob; cbn;
    [reflexivity| |apply IH].
  rewrite IH. apply store_u32_length.
Qed.

(** With every pointer set and the lanes [ws >= 4] bytes apart, the
    lanes [a .. a + n - 1] get the [n] nonces after [k], and nothing
    below the slot of lane [a] changes. *)
Lemma write_nonces_lanes (ws n a : nat) (k : Z) (blob : list byte) :
  (4 <= ws)%nat ->
  (ws * (a + n) + 43 <= length blob + ws)%nat ->
  let r := write_nonces
             (map (fun i : nat => Some (ws * i + 39)%nat) (seq a n)) k blob in
  fst r = match n with
          | O => k
          | S _ => u32 (k + Z.of_nat n)
          end
  /\ (forall i, (a <= i < a + n)%nat ->
                load 4 (ws * i + 39) (snd r)
                = u32 (k + 1 + Z.of_nat (i - a)))
  /\ (forall off, (off + 4 <= ws * a + 39)%nat ->
                  load 4 off (snd r) = load 4 off blob).
Proof.
  intros Hws. revert a k blob.
  induction n as [|n IH]; intros a k blob Hfit r.
  - subst r. cbn. split; [reflexivity|]. split; [intros i Hi; lia|reflexivity].
  - subst r. cbn [seq map write_nonces].
    set (blob' := store_u32 (ws * a + 39) (u32 (k + 1)) blob).
    destruct (IH (S a) (u32 (k + 1)) blob') as (IH1 & IH2 & IH3).
    { unfold blob'. rewrite store_u32_length. lia. }
    split; [|split].
    + rewrite IH1. destruct n as [|n]; [reflexivity|].
      rewrite u32_add_l. f_equal. lia.
    + intros i Hi. destruct (decide (i = a)) as [->|Hne].
      * rewrite IH3 by nia. unfold blob'.
        rewrite load_store_u32 by nia.
        rewrite u32_idem. f_equal. lia.
      * rewrite IH2 by lia. rewrite <- Z.add_assoc, u32_add_l. f_equal. lia.
    + intros off Hoff. rewrite IH3 by nia. unfold blob'.
      apply load_store_u32_other. lia.
Qed.

(** The event of lane [i] carries the [i]-th nonce after the
    counter the round began with. *)
Lemma lane_nonce (n : nat) (k : Z) (i : nat) :
  u32 (u32 (k + Z.of_nat n) - Z.of_nat n + 1 + Z.of_nat i)
  = u32 (k + 1 + Z.of_nat i).
Proof.
  unfold u32, wrap.
  replace ((k + Z.of_nat n) mod 2 ^ 32 - Z.of_nat n + 1 + Z.of_nat i)
    with ((k + Z.of_nat n) mod 2 ^ 32 + (- Z.of_nat n + 1 + Z.of_nat i)) by lia.
  rewrite Zplus_mod_idemp_l. f_equal. lia.
Qed.

(** *** What holds along a run *)

Local Abbreviation pointers_ok := (Multiway.pointers_ok N).

Lemma refresh_blob_length (w : miner_work) (blob : list byte) :
  length (refresh_blob N w blob) = length blob.
Proof.
  unfold refresh_blob. generalize (seq 0 N). intros l. revert blob.
  induction l as [|i l IH]; intros blob; [reflexivity|].
  cbn [fold_left]. rewrite IH. apply store_bytes_length.
Qed.

Lemma round_oWork (st : Z) (c : config) :
  oWork (thd (round hash_fn N st c)) = oWork (thd c).
Proof.
  unfold round. cbn [thd]. destruct (stats_due (iCount c)); reflexivity.
Qed.

Lemma ready_fields (c : config) :
  thd (ready H c) = thd c /\ piNonce (ready H c) = piNonce c
  /\ bWorkBlob (ready H c) = bWorkBlob c /\ consumes (ready H c) = consumes c
  /\ bHashOut (ready H c) = bHashOut c /\ iCount (ready H c) = iCount c.
Proof.
  unfold ready. destruct (hashing c); [repeat split|].
  destruct (bStall (oWork (thd c))); repeat split.
Qed.

Lemma ready_hashing (c : config) :
  bStall (oWork (thd c)) = false -> hashing (ready H c) = true.
Proof.
  intros Hs. unfold ready. destruct (hashing c) eqn:Hh; [exact Hh|].
  now rewrite Hs.
Qed.

Lemma step_pointers_ok (o : obs) (c : config) :
  pointers_ok c -> pointers_ok (step H hash_fn N o c).
Proof.
  intros [Hlen Hp]. unfold step.
  destruct (ready_fields c) as (Ht & Hpn & Hb & Hc & _).
  destruct o as [st|g].
  - destruct (hashing (ready H c)).
    + split.
      * cbn [round bWorkBlob]. rewrite write_nonces_length, Hb. exact Hlen.
      * cbn [round consumes piNonce]. rewrite Hc, Hpn.
        destruct (consumes c); [exact Hp|].
        rewrite Hp.
        change (thd (round hash_fn N st (ready H c)))
          with (if stats_due (iCount (ready H c))
                then set_stats (iCount (ready H c)) st (thd (ready H c))
                else thd (ready H c)).
        rewrite Ht. destruct (stats_due (iCount (ready H c))); reflexivity.
    + split; [now rewrite Hb|]. rewrite Hc, Hpn, Ht. exact Hp.
  - split.
    + cbn [consume bWorkBlob]. rewrite refresh_blob_length, Hb. exact Hlen.
    + reflexivity.
Qed.

Lemma run_pointers_ok (os : list obs) (c : config) :
  pointers_ok c -> pointers_ok (run H hash_fn N os c).
Proof.
  revert c. induction os as [|o os IH]; intros c Hc; [exact Hc|].
  apply IH. now apply step_pointers_ok.
Qed.

Lemma work_start_pointers_ok (t : minethd) (junk_hash junk_blob : nat -> byte)
    (iNonce0 : Z) :
  pointers_ok (work_start N t junk_hash junk_blob iNonce0).
Proof.
  split; [|reflexivity]. cbn [work_start bWorkBlob]. unfold uninit.
  now rewrite length_map, length_seq.
Qed.

(** C9.  A thread whose initial work is not stalled, for as long as
    it sees no job change: it has consumed nothing, only the nonce
    pointer of lane 0 is set (to offset 39 of the interleaved blob),
    the pointer of every other lane is null.  Each round then
    advances the nonce counter by exactly 1 (in 32-bit arithmetic)
    and changes the blob only by storing that nonce into the slot of
    lane 0, while the hash count advances by [N].  The first
    [consume_work] sets the pointers of all lanes. *)
Theorem initial_job_writes_lane0_only
    (t : minethd) (junk_hash junk_blob : nat -> byte) (iNonce0 : Z)
    (stamps : list Z) (iStamp : Z) :
  (1 <= N)%nat ->
  bStall (oWork t) = false ->
  let c := run H hash_fn N (map Same stamps)
             (work_start N t junk_hash junk_blob iNonce0) in
  let c' := step H hash_fn N (Same iStamp) c in
  consumes c = 0%nat
  /\ piNonce c !! 0%nat = Some (Some 39%nat)
  /\ (forall i, (1 <= i < N)%nat -> piNonce c !! i = Some None)
  /\ iNonce c' = u32 (iNonce (ready H c) + 1)
  /\ bWorkBlob c' = store_u32 39 (iNonce c') (bWorkBlob c)
  /\ iCount c' = u64 (iCount c + Z.of_nat N)
  /\ (forall g i, (i < N)%nat ->
        piNonce (step H hash_fn N (Changed g) c) !! i
        = Some (Some (lane_slot (oGlobalWork g) i))).
Proof.
  intros HN Hstall c c'.
  assert (Hinv : consumes c = 0%nat /\ piNonce c = initial_pointers N
                 /\ oWork (thd c) = oWork t).
  { subst c. induction stamps as [|st sts IH] using rev_ind.
    - cbn. auto.
    - rewrite map_app. unfold run in *. rewrite fold_left_app. cbn [map fold_left].
      destruct IH as (IH1 & IH2 & IH3).
      set (d := fold_left (fun c o => step H hash_fn N o c) (map Same sts)
                  (work_start N t junk_hash junk_blob iNonce0)) in *.
      destruct (ready_fields d) as (Ht & Hpn & Hb & Hc & _).
      unfold step. rewrite ready_hashing by (rewrite IH3; exact Hstall).
      cbn [round consumes piNonce]. rewrite Hc, Hpn, round_oWork, Ht. auto. }
  destruct Hinv as (Hc0 & Hp & Hw).
  destruct (ready_fields c) as (Ht & Hpn & Hb & Hc & _ & Hcnt).
  destruct N as [|n]; [lia|].
  split; [exact Hc0|].
  split; [rewrite Hp, initial_pointers_S; reflexivity|].
  split.
  { intros i Hi. rewrite Hp, initial_pointers_S.
    destruct i as [|i]; [lia|]. cbn [lookup list_lookup].
    apply lookup_replicate_2. lia. }
  assert (Hwr : write_nonces (piNonce (ready H c)) (iNonce (ready H c))
                  (bWorkBlob (ready H c))
                = (u32 (iNonce (ready H c) + 1),
                   store_u32 39 (u32 (iNonce (ready H c) + 1)) (bWorkBlob c))).
  { rewrite Hpn, Hp, initial_pointers_S, Hb. cbn [write_nonces].
    apply write_nonces_null. }
  subst c'. unfold step.
  rewrite ready_hashing by (rewrite Hw; exact Hstall).
  cbn [round iNonce bWorkBlob iCount]. rewrite Hwr, Hcnt. cbn [fst snd].
  repeat split.
  intros g i Hi. cbn [consume piNonce]. unfold refresh_pointers.
  rewrite list_lookup_fmap, lookup_seq_lt by lia. reflexivity.
Qed.

(** X18.  Consecutive nonces after a job change.  Once the thread
    has called [consume_work], and for a work item of at least 4 and
    at most 112 bytes that is not stalled, a round stores [k+1 .. k+N] (in
    32-bit arithmetic) into the nonce slots of the lanes [0 .. N-1]
    of the blob the kernel is run on, where [k] is the nonce counter
    the round begins with, and the event of lane [i] carries
    [k+1+i]. *)
Theorem consecutive_nonces_after_consume
    (t : minethd) (junk_hash junk_blob : nat -> byte) (iNonce0 : Z)
    (os : list obs) (iStamp : Z) :
  (N <= MAX_N)%nat ->
  let c := run H hash_fn N os (work_start N t junk_hash junk_blob iNonce0) in
  let w := oWork (thd c) in
  let k := iNonce (ready H c) in
  let c' := step H hash_fn N (Same iStamp) c in
  (0 < consumes c)%nat ->
  bStall w = false ->
  4 <= iWorkSize w <= 112 ->
  bHashOut c' = store_bytes 0 (hash_fn (bWorkBlob c') (iWorkSize w)) (bHashOut c)
  /\ (forall i, (i < N)%nat ->
        nonce_slot w (bWorkBlob c') i = u32 (k + 1 + Z.of_nat i)
        /\ res_iNonce (ev_result (lane_event w N (iNonce c') (bHashOut c') i))
           = u32 (k + 1 + Z.of_nat i)).
Proof.
  intros HN c w k c' Hcons Hstall Hws. unfold MAX_N in HN.
  assert (Hok : pointers_ok c)
    by (apply run_pointers_ok, work_start_pointers_ok).
  destruct Hok as [Hlen Hp].
  destruct (consumes c) as [|n] eqn:Hn; [lia|].
  destruct (ready_fields c) as (Ht & Hpn & Hb & Hc & Hout & Hcnt).
  unfold blob_capacity, MAX_N in Hlen.
  destruct (write_nonces_lanes (Z.to_nat (iWorkSize w)) N 0 k (bWorkBlob c))
    as (W1 & W2 & _); [lia|nia|].
  assert (Hwr : write_nonces (piNonce (ready H c)) (iNonce (ready H c))
                  (bWorkBlob (ready H c))
                = write_nonces
                    (map (fun i : nat => Some (Z.to_nat (iWorkSize w) * i + 39)%nat)
                         (seq 0 N)) k (bWorkBlob c)).
  { rewrite Hpn, Hp, Hb. reflexivity. }
  subst c'. unfold step. rewrite ready_hashing by exact Hstall.
  cbn [round iNonce bWorkBlob bHashOut thd]. rewrite Hwr, Hout, Ht.
  split.
  { destruct (stats_due (iCount (ready H c))); reflexivity. }
  intros i Hi. split.
  - unfold nonce_slot, lane_slot. rewrite W2 by lia. f_equal. lia.
  - cbn [lane_event ev_result res_iNonce]. rewrite W1.
    destruct N as [|n']; [lia|]. apply lane_nonce.
Qed.

End NonceFacts.


Lemma initial_job_witness :
  let c := Multiway.run Fixtures.plain_helpers Fixtures.zero_kernel 2
             (map Worker.Same [10; 20]) Fixtures.double_thread in
  let c' := Multiway.step Fixtures.plain_helpers Fixtures.zero_kernel 2
              (Worker.Same 30) c in
  Multiway.consumes c = 0%nat
  /\ Multiway.piNonce c = [Some 39%nat; None]
  /\ Multiway.iNonce c = 7
  /\ Multiway.iNonce c' = 8
  /\ Multiway.bWorkBlob c' = Mem.store_u32 39 8 (Multiway.bWorkBlob c).
Proof.
  pose proof (initial_job_writes_lane0_only
                Fixtures.plain_helpers Fixtures.zero_kernel 2
                (Pool.minethd_new Fixtures.job_a 0 2 (-1))
                Fixtures.zero_junk Fixtures.zero_junk 0 [10; 20] 30
                ltac:(lia) eq_refl) as Hc.
  cbn zeta in Hc. destruct Hc as (H0 & _ & _ & Hn & Hb & _).
  cbn zeta.
  split; [exact H0|]. split; [reflexivity|]. split; [reflexivity|].
  split; [etransitivity; [exact Hn|reflexivity]|].
  etransitivity; [exact Hb|reflexivity].
Defined.

(** A double-hash thread that has consumed [job_a] once. *)
Lemma consecutive_nonces_witness :
  let g := {| Pool.iGlobalJobNo := 1; Pool.iConsumeCnt := 0;
              Pool.oGlobalWork := Fixtures.job_a; Pool.iThreadCount := 1 |} in
  let c := Multiway.run Fixtures.plain_helpers Fixtures.zero_kernel 2
             [Worker.Changed g] Fixtures.double_thread in
  let c' := Multiway.step Fixtures.plain_helpers Fixtures.zero_kernel 2
              (Worker.Same 10) c in
  Multiway.nonce_slot Fixtures.job_a (Multiway.bWorkBlob c') 0 = 6
  /\ Multiway.nonce_slot Fixtures.job_a (Multiway.bWorkBlob c') 1 = 7
  /\ map (fun e => Worker.res_iNonce (Worker.ev_result e)) (Multiway.events c')
     = [6; 7].
Proof.
  intros g c c'.
  pose proof (consecutive_nonces_after_consume
                Fixtures.plain_helpers Fixtures.zero_kernel 2
                (Pool.minethd_new Fixtures.job_a 0 2 (-1))
                Fixtures.zero_junk Fixtures.zero_junk 0
                [Worker.Changed g] 10
                ltac:(unfold Worker.MAX_N; lia)
                ltac:(cbn; lia) eq_refl ltac:(cbn; lia)) as [_ Hl].
  split; [|split].
  - etransitivity; [exact (proj1 (Hl 0%nat ltac:(lia)))|reflexivity].
  - etransitivity; [exact (proj1 (Hl 1%nat ltac:(lia)))|reflexivity].
  - reflexivity.
Defined.

(** C2.  The code at the failing input: a double-hash thread
    constructed on [job_a], which is not stalled and resumes at nonce
    5, on a stack whose [bWorkBlob] holds the byte [0xee] everywhere.
    In its first round, before any [consume_work], only the pointer of
    lane 0 is set: the counter advances from 5 to 6 and not to 7, the
    kernel is run on the local buffer nothing was copied to, with 6
    stored in the slot of lane 0 and the slot of lane 1 as the stack
    left it, and the events of lanes 0 and 1 carry the nonces 5 and 6.
    So the two slots are not [k+1] and [k+2] for any [k], and the
    event of lane 0 does not carry the nonce of its slot.  A
    [work_main] thread constructed on the same job hashes the job's
    blob with nonce 6 and reports 6. *)
Theorem first_job_nonces_not_consecutive :
  let c0 := Fixtures2.raw_double in
  let c' := Multiway.step Fixtures.plain_helpers Fixtures.zero_kernel 2
              (Worker.Same 0) c0 in
  let s' := Single.step Fixtures.plain_helpers Fixtures.zero_kernel
              (Worker.Same 0) Fixtures2.live_single in
  Multiway.consumes c' = 0%nat
  /\ Multiway.piNonce c0 = [Some 39%nat; None]
  /\ Multiway.iNonce c' = 6
  /\ Multiway.bWorkBlob c'
     = Mem.store_u32 39 6 (Worker.uninit Fixtures2.ee_junk (112 * 8))
  /\ Trace.lane 76 (Multiway.bWorkBlob c') 0
     <> Mem.store_u32 39 6 (take 76 (Pool.bWorkBlob Fixtures.job_a))
  /\ Multiway.nonce_slot Fixtures.job_a (Multiway.bWorkBlob c') 0 = 6
  /\ Multiway.nonce_slot Fixtures.job_a (Multiway.bWorkBlob c') 1 = 4008636142
  /\ map (fun e => Worker.res_iNonce (Worker.ev_result e)) (Multiway.events c')
     = [5; 6]
  /\ ~ (exists k, forall i, (i < 2)%nat ->
          Multiway.nonce_slot Fixtures.job_a (Multiway.bWorkBlob c') i
          = Mem.u32 (k + 1 + Z.of_nat i))
  /\ ~ (exists k,
          Multiway.nonce_slot Fixtures.job_a (Multiway.bWorkBlob c') 0
          = Mem.u32 (k + 1 + 0)
          /\ Worker.res_iNonce
               (Worker.ev_result
                  (Multiway.lane_event Fixtures.job_a 2 (Multiway.iNonce c')
                     (Multiway.bHashOut c') 0))
             = Mem.u32 (k + 1 + 0))
  /\ Mem.load 4 39 (Pool.bWorkBlob (Pool.oWork (Single.thd s'))) = 6
  /\ Pool.bWorkBlob (Pool.oWork (Single.thd s'))
     = Mem.store_u32 39 6 (Pool.bWorkBlob Fixtures.job_a)
  /\ map (fun e => Worker.res_iNonce (Worker.ev_result e)) (Single.events s')
     = [6].
Proof.
  intros c0 c' s'.
  assert (H0 : Multiway.nonce_slot Fixtures.job_a (Multiway.bWorkBlob c') 0 = 6)
    by reflexivity.
  assert (H1 : Multiway.nonce_slot Fixtures.job_a (Multiway.bWorkBlob c') 1
               = 4008636142)
    by reflexivity.
  split; [reflexivity|]. split; [reflexivity|]. split; [reflexivity|].
  split; [reflexivity|].
  split; [intros Hl; apply (f_equal (fun l => l !! 0%nat)) in Hl; discriminate|].
  split; [exact H0|]. split; [exact H1|]. split; [reflexivity|].
  split; [|split; [|repeat split]].
  - intros [k Hk].
    pose proof (Hk 0%nat ltac:(lia)) as Ha. pose proof (Hk 1%nat ltac:(lia)) as Hb.
    rewrite H0 in Ha. rewrite H1 in Hb.
    change (Z.of_nat 0) with 0 in Ha. change (Z.of_nat 1) with 1 in Hb.
    rewrite Z.add_0_r in Ha.
    rewrite <- u32_add_l, <- Ha in Hb. discriminate.
  - intros [k [Ha Hb]]. rewrite H0 in Ha.
    assert (He : Worker.res_iNonce
                   (Worker.ev_result
                      (Multiway.lane_event Fixtures.job_a 2 (Multiway.iNonce c')
                         (Multiway.bHashOut c') 0)) = 5) by reflexivity.
    rewrite He in Hb. rewrite <- Hb in Ha. discriminate.
Qed.


(** * Further properties of the code *)

(** ** The telemetry ring *)

Section RingExtras.
Import Mem Telemetry.

Variable iBucketSize : nat.

Lemma new_row_lookup (heap : nat -> nat -> Z) (a j : nat) :
  (j < iBucketSize)%nat ->
  new_row iBucketSize heap a !! j = Some (heap a j).
Proof.
  intros Hj. unfold new_row.
  rewrite list_lookup_fmap, lookup_seq_lt by lia. reflexivity.
Qed.

Lemma zero_row_lookup (j : nat) :
  default 0 (zero_row iBucketSize !! j) = 0.
Proof.
  unfold zero_row. destruct (replicate iBucketSize 0 !! j) as [x|] eqn:Hx;
    [|reflexivity].
  apply lookup_replicate in Hx as [-> _]. reflexivity.
Qed.

(** X1.  After [telemetry (iThd)] both buffers have [iThd] rows; row 0
    of both is all zero; every later row [r] still holds what the
    heap left in the arrays allocated for it, so its slot [j] reads
    as the heap word (reduced to 64 bits). *)
Theorem telemetry_new_shape (heap : nat -> nat -> Z) (iThd r j : nat) :
  (r < iThd)%nat -> (j < iBucketSize)%nat ->
  let t := telemetry_new iBucketSize heap iThd in
  length (ppHashCounts t) = iThd
  /\ length (ppTimestamps t) = iThd
  /\ cell (ppHashCounts t) r (Z.of_nat j)
     = (if (r =? 0)%nat then 0 else u64 (heap (2 * r)%nat j))
  /\ cell (ppTimestamps t) r (Z.of_nat j)
     = (if (r =? 0)%nat then 0 else u64 (heap (2 * r + 1)%nat j)).
Proof.
  intros Hr Hj t. subst t. unfold telemetry_new.
  destruct (ctor_prefix_lengths iBucketSize heap iThd iThd) as [L1 L2].
  destruct (ctor_prefix_rows iBucketSize heap iThd iThd r Hr (Nat.le_refl _))
    as [R1 R2].
  split; [exact L1|]. split; [exact L2|].
  unfold cell. rewrite R1, R2, Nat2Z.id.
  destruct (r =? 0)%nat.
  - rewrite !zero_row_lookup. split; reflexivity.
  - rewrite !new_row_lookup by exact Hj. split; reflexivity.
Qed.

(** X4.  On a telemetry object just constructed, the query for
    thread 0 gives NaN at every time and for every window. *)
Theorem fresh_ring_is_nan (heap : nat -> nat -> Z) (iThd : nat)
    (iTimeNow iLastMilisec : Z) :
  calc_telemetry_data iBucketSize (telemetry_new iBucketSize heap iThd)
    iTimeNow iLastMilisec 0 = NaN.
Proof.
  unfold calc_telemetry_data, walk_range.
  destruct (iBucketSize - 1)%nat as [|n] eqn:Hn; [reflexivity|].
  cbn [seq map walk_loop].
  assert (Hz : forall idx,
             cell (ppTimestamps (telemetry_new iBucketSize heap iThd)) 0 idx = 0).
  { intros idx. unfold cell.
    destruct iThd as [|m].
    - reflexivity.
    - destruct (telemetry_new_row0 iBucketSize heap (S m)) as [_ R]; [lia|].
      rewrite R, zero_row_lookup. reflexivity. }
  rewrite Hz. reflexivity.
Qed.

End RingExtras.

Lemma telemetry_new_shape_witness :
  let t := Telemetry.telemetry_new 16 Fixtures.sevens 3 in
  length (Telemetry.ppHashCounts t) = 3%nat
  /\ length (Telemetry.ppTimestamps t) = 3%nat
  /\ Telemetry.cell (Telemetry.ppHashCounts t) 2 (Z.of_nat 5) = 7
  /\ Telemetry.cell (Telemetry.ppTimestamps t) 2 (Z.of_nat 5) = 7.
Proof.
  apply (telemetry_new_shape 16 Fixtures.sevens 3 2 5); lia.
Defined.


Section PushExtras.
Import Mem Telemetry.

Variable iBucketSize : nat.
Variable k : nat.
Hypothesis size_pow2 : Z.of_nat iBucketSize = 2 ^ Z.of_nat k.

Lemma mask_mod (x : Z) :
  Z.land x (iBucketMask iBucketSize) = x mod Z.of_nat iBucketSize.
Proof.
  unfold iBucketMask. rewrite size_pow2.
  replace (2 ^ Z.of_nat k - 1) with (Z.ones (Z.of_nat k))
    by (rewrite Z.ones_equiv; lia).
  apply Z.land_ones. lia.
Qed.

Lemma cell_alter_same (rows : list (list Z)) (thd : nat) (row : list Z)
    (top v idx : Z) :
  rows !! thd = Some row -> 0 <= top < Z.of_nat (length row) -> 0 <= idx ->
  cell (alter (fun r => <[Z.to_nat top := v]> r) thd rows) thd idx
  = if idx =? top then u64 v else cell rows thd idx.
Proof.
  intros Hrow Htop Hidx. unfold cell.
  rewrite list_lookup_alter, Hrow. cbn [fmap option_fmap option_map].
  rewrite decide_True by reflexivity.
  destruct (Z.eqb_spec idx top) as [->|Hne].
  - rewrite list_lookup_insert_eq by lia. reflexivity.
  - rewrite list_lookup_insert_ne by lia. reflexivity.
Qed.

Lemma cell_alter_other (rows : list (list Z)) (thd thd' : nat)
    (f : list Z -> list Z) (idx : Z) :
  thd' <> thd ->
  cell (alter f thd rows) thd' idx = cell rows thd' idx.
Proof.
  intros Hne. unfold cell. rewrite list_lookup_alter_ne by congruence.
  reflexivity.
Qed.

(** X2.  [push_perf_value] on a thread whose [top] lies inside its
    rows: the slot at [top] then reads as the pushed count and
    timestamp, [top] moves on by one modulo the ring size, and every
    other slot of every thread, and every other thread's [top], read
    as before. *)
Theorem push_perf_value_slot (t : telemetry) (iThd : nat)
    (iHashCount iTimestamp top : Z) (counts stamps : list Z) :
  iBucketTop t !! iThd = Some top ->
  ppHashCounts t !! iThd = Some counts ->
  ppTimestamps t !! iThd = Some stamps ->
  0 <= top < Z.of_nat (length counts) ->
  0 <= top < Z.of_nat (length stamps) ->
  let t' := push_perf_value iBucketSize iThd iHashCount iTimestamp t in
  cell (ppHashCounts t') iThd top = u64 iHashCount
  /\ cell (ppTimestamps t') iThd top = u64 iTimestamp
  /\ iBucketTop t' !! iThd = Some ((top + 1) mod Z.of_nat iBucketSize)
  /\ (forall thd idx, 0 <= idx -> thd <> iThd \/ idx <> top ->
        cell (ppHashCounts t') thd idx = cell (ppHashCounts t) thd idx
        /\ cell (ppTimestamps t') thd idx = cell (ppTimestamps t) thd idx)
  /\ (forall thd, thd <> iThd -> iBucketTop t' !! thd = iBucketTop t !! thd).
Proof.
  intros Htop Hc Hs Hbc Hbs t'. subst t'. unfold push_perf_value.
  rewrite Htop. cbn [default from_option id ppHashCounts ppTimestamps iBucketTop].
  unfold id.
  split; [|split; [|split; [|split]]].
  - rewrite (cell_alter_same _ _ counts) by (assumption || lia).
    now rewrite Z.eqb_refl.
  - rewrite (cell_alter_same _ _ stamps) by (assumption || lia).
    now rewrite Z.eqb_refl.
  - rewrite list_lookup_insert_eq by (apply lookup_lt_Some in Htop; exact Htop).
    now rewrite mask_mod.
  - intros thd idx Hidx Hor.
    destruct (decide (thd = iThd)) as [->|Hne].
    + rewrite (cell_alter_same _ _ counts), (cell_alter_same _ _ stamps)
        by (assumption || lia).
      destruct (Z.eqb_spec idx top); [|split; reflexivity].
      destruct Hor; congruence.
    + rewrite !cell_alter_other by exact Hne. split; reflexivity.
  - intros thd Hne. apply list_lookup_insert_ne. congruence.
Qed.

(** X3.  The ring is a sliding window: after a push the backward view
    of the thread is the pushed sample followed by the former view
    without its last entry. *)
Theorem push_shifts_view (t : telemetry) (iThd : nat)
    (iHashCount iTimestamp top : Z) (counts stamps : list Z) :
  iBucketTop t !! iThd = Some top ->
  ppHashCounts t !! iThd = Some counts ->
  ppTimestamps t !! iThd = Some stamps ->
  length counts = iBucketSize -> length stamps = iBucketSize ->
  0 <= top < Z.of_nat iBucketSize ->
  (2 <= iBucketSize)%nat ->
  backward_view iBucketSize
    (push_perf_value iBucketSize iThd iHashCount iTimestamp t) iThd
  = (u64 iTimestamp, u64 iHashCount)
      :: take (iBucketSize - 2) (backward_view iBucketSize t iThd).
Proof.
  intros Htop Hc Hs Lc Ls Hb H2.
  set (t' := push_perf_value iBucketSize iThd iHashCount iTimestamp t).
  assert (Hcells : forall idx, 0 <= idx ->
            cell (ppHashCounts t') iThd idx
            = (if idx =? top then u64 iHashCount
               else cell (ppHashCounts t) iThd idx)
            /\ cell (ppTimestamps t') iThd idx
               = (if idx =? top then u64 iTimestamp
                  else cell (ppTimestamps t) iThd idx)).
  { intros idx Hidx. subst t'. unfold push_perf_value. rewrite Htop.
    cbn [default from_option ppHashCounts ppTimestamps]. unfold id.
    rewrite (cell_alter_same _ _ counts), (cell_alter_same _ _ stamps)
      by (assumption || lia).
    split; reflexivity. }
  assert (P3 : iBucketTop t' !! iThd
               = Some ((top + 1) mod Z.of_nat iBucketSize)).
  { subst t'. unfold push_perf_value. rewrite Htop.
    cbn [default from_option iBucketTop]. unfold id.
    rewrite list_lookup_insert_eq by (apply lookup_lt_Some in Htop; exact Htop).
    now rewrite mask_mod. }
  apply list_eq. intros j. unfold backward_view.
  rewrite list_lookup_fmap. rewrite P3, Htop.
  cbn [default from_option]. unfold id.
  assert (Hsz : 0 < Z.of_nat iBucketSize) by lia.
  destruct (decide (j < iBucketSize - 1)%nat) as [Hj|Hj].
  2:{ rewrite lookup_seq_ge by lia. cbn.
      destruct j as [|j]; [lia|]. rewrite lookup_cons.
      symmetry. apply lookup_ge_None. rewrite length_take, length_map, length_seq.
      lia. }
  rewrite lookup_seq_lt by lia. cbn [fmap option_fmap option_map].
  assert (Hidx : ((top + 1) mod Z.of_nat iBucketSize - Z.of_nat (1 + j))
                   mod Z.of_nat iBucketSize
                 = (top - Z.of_nat j) mod Z.of_nat iBucketSize).
  { rewrite Zminus_mod_idemp_l. f_equal. lia. }
  rewrite Hidx.
  destruct j as [|j].
  - rewrite lookup_cons. change (Z.of_nat 0) with 0.
    rewrite Z.sub_0_r, Z.mod_small by lia.
    destruct (Hcells top ltac:(lia)) as [Q1 Q2].
    rewrite Q1, Q2, Z.eqb_refl. reflexivity.
  - rewrite lookup_cons.
    rewrite lookup_take_lt by lia.
    rewrite list_lookup_fmap, lookup_seq_lt by lia.
    cbn [fmap option_fmap option_map].
    assert (Hne : (top - Z.of_nat (S j)) mod Z.of_nat iBucketSize <> top).
    { intros Heq.
      pose proof (Z.div_mod (top - Z.of_nat (S j)) (Z.of_nat iBucketSize)
                    ltac:(lia)) as Hdm.
      rewrite Heq in Hdm.
      assert (Hsj : 0 < Z.of_nat (S j) < Z.of_nat iBucketSize) by lia.
      set (q := (top - Z.of_nat (S j)) / Z.of_nat iBucketSize) in *.
      assert (Hq : q <= -1 \/ 0 <= q) by lia.
      destruct Hq; nia. }
    destruct (Hcells ((top - Z.of_nat (S j)) mod Z.of_nat iBucketSize))
      as [Q1 Q2].
    { apply Z.mod_pos_bound. lia. }
    apply Z.eqb_neq in Hne. rewrite Q1, Q2, Hne.
    do 3 f_equal; f_equal; lia.
Qed.

End PushExtras.


Lemma push_perf_value_slot_witness :
  let t' := Telemetry.push_perf_value 16 0 160 2000 Fixtures.stale_ring in
  Telemetry.cell (Telemetry.ppHashCounts t') 0 1 = 160
  /\ Telemetry.cell (Telemetry.ppTimestamps t') 0 1 = 2000
  /\ Telemetry.iBucketTop t' !! 0%nat = Some 2.
Proof.
  destruct (push_perf_value_slot 16 4 eq_refl Fixtures.stale_ring 0 160 2000 1
              (50 :: replicate 15 0) (1000 :: replicate 15 0)
              eq_refl eq_refl eq_refl ltac:(cbn; lia) ltac:(cbn; lia))
    as (H1 & H2 & H3 & _).
  split; [exact H1|]. split; [exact H2|exact H3].
Defined.

Lemma push_shifts_view_witness :
  Telemetry.backward_view 16
    (Telemetry.push_perf_value 16 0 160 2000 Fixtures.stale_ring) 0
  = (2000, 160) :: take 14 (Telemetry.backward_view 16 Fixtures.stale_ring 0).
Proof.
  apply (push_shifts_view 16 4 eq_refl Fixtures.stale_ring 0 160 2000 1
           (50 :: replicate 15 0) (1000 :: replicate 15 0));
    try reflexivity; cbn; lia.
Defined.

Section RatioExtras.
Import Mem Telemetry.

Variable iBucketSize : nat.
Variable k : nat.
Hypothesis size_pow2 : Z.of_nat iBucketSize = 2 ^ Z.of_nat k.
Hypothesis size_fits : (k <= 64)%nat.

Lemma window_split_head (now win : Z) (v : list (Z * Z)) (s : Z * Z)
    (p : list (Z * Z)) :
  fst (window_split now win v) = s :: p ->
  latest_found v = Some s.
Proof.
  destruct v as [|x rest]; cbn; [discriminate|].
  destruct (in_window now win x) eqn:Hx; cbn; [|discriminate].
  intros [= -> _]. unfold in_window in Hx.
  apply andb_true_iff in Hx as [Hw _]. now rewrite Hw.
Qed.

(** X5.  When the query returns a quotient, its time difference is a
    positive 64-bit number (the code never divides by zero), its
    hash difference is a 64-bit number, and at least two samples of
    the walk lie inside the window: with fewer the answer is NaN. *)
Theorem ratio_needs_two_samples (t : telemetry) (now win : Z) (iThread : nat)
    (fHashes fTime : Z) :
  calc_telemetry_data iBucketSize t now win iThread = Ratio fHashes fTime ->
  0 < fTime < 2 ^ 64
  /\ 0 <= fHashes < 2 ^ 64
  /\ (2 <= length (fst (window_split now win
                          (backward_view iBucketSize t iThread))))%nat.
Proof.
  rewrite (calc_telemetry_data_view iBucketSize k size_pow2 size_fits).
  cbn zeta. set (v := backward_view iBucketSize t iThread).
  rewrite walk_view_summary by reflexivity.
  unfold walk_summary.
  cbn [walk_init iEarliestStamp iEarliestHashCnt iLastestStamp iLastestHashCnt
       bHaveFullSet orb].
  change (0 =? 0) with true. cbn iota.
  unfold oldest_in_window.
  destruct (fst (window_split now win v)) as [|s p] eqn:Hp.
  - cbn. rewrite orb_true_r. discriminate.
  - rewrite (window_split_head now win v s p Hp).
    destruct p as [|s2 p].
    + cbn. rewrite Z.sub_diag.
      destruct (_ || _); [discriminate|]. cbn. discriminate.
    + destruct (last (s :: s2 :: p)) as [e|]; unfold default; cbn [from_option];
        unfold id; cbn [fst snd length];
        (destruct (_ || _); [discriminate|]);
        (destruct (u64 _ =? 0) eqn:Hz; [discriminate|]);
        intros [= <- <-]; apply Z.eqb_neq in Hz;
        (split; [match type of Hz with u64 ?x <> 0 => pose proof (u64_range x) end; lia|]);
        (split; [apply u64_range|lia]).
Qed.

End RatioExtras.

Lemma ratio_needs_two_samples_witness :
  0 < 2500 < 2 ^ 64
  /\ 0 <= 240 < 2 ^ 64
  /\ (2 <= length (fst (Telemetry.window_split 5000 3500
                          (Telemetry.backward_view 16 Fixtures.busy_ring 0))))%nat.
Proof.
  apply (ratio_needs_two_samples 16 4 eq_refl ltac:(lia) Fixtures.busy_ring
           5000 3500 0 240 2500).
  reflexivity.
Defined.


(** ** The context allocator and the self test, again *)

Section StartupExtras.
Import Mem Startup Trace.

Variable P : platform.

(** X6.  Whatever the memory mode, [minethd_alloc_ctx] frees nothing
    and either makes no allocator call and returns null, or makes one
    call and returns its answer, or makes two calls, the first of
    which (huge pages with mlock) gave null, and returns the answer
    of the second (regular pages).  So no context it gets is lost.
    In the modes [never_use] and [no_mlck] a null result always comes
    with a printed line. *)
Theorem minethd_alloc_ctx_calls_made (mode : slow_mem_cfg) (w : world) :
  let r := minethd_alloc_ctx P mode w in
  released (snd r) = released w
  /\ ((alloc_calls (snd r) = alloc_calls w /\ fst r = None)
      \/ (alloc_calls (snd r) = S (alloc_calls w)
          /\ exists fast mlock,
               fst r = fst (cryptonight_alloc_ctx P (alloc_calls w) fast mlock))
      \/ (alloc_calls (snd r) = S (S (alloc_calls w))
          /\ fst (cryptonight_alloc_ctx P (alloc_calls w) true true) = None
          /\ fst r = fst (cryptonight_alloc_ctx P (S (alloc_calls w))
                            false false)))
  /\ (fatal_mode mode = true -> fst r = None ->
      exists m, printed (snd r) = printed w ++ [MemoryAllocFailed m]).
Proof.
  destruct mode;
    unfold minethd_alloc_ctx, bind, alloc_ctx, when, print_msg, ret; cbn;
    try (destruct (cryptonight_alloc_ctx P (alloc_calls w) false false)
           as [[c|] m] eqn:Ha; cbn;
         (split; [reflexivity|]); (split; [|discriminate]);
         right; left; (split; [reflexivity|]);
         exists false, false; now rewrite Ha).
  - (* no_mlck *)
    destruct (cryptonight_alloc_ctx P (alloc_calls w) true false)
      as [[c|] m] eqn:Ha; cbn.
    + split; [reflexivity|]. split; [|discriminate].
      right; left. split; [reflexivity|]. exists true, false. now rewrite Ha.
    + split; [reflexivity|]. split; [|eauto].
      right; left. split; [reflexivity|]. exists true, false. now rewrite Ha.
  - (* print_warning *)
    destruct (cryptonight_alloc_ctx P (alloc_calls w) true true)
      as [[c|] [m|]] eqn:Ha; cbn;
      (split; [reflexivity|]); (split; [|discriminate]).
    + right; left. split; [reflexivity|]. exists true, true. now rewrite Ha.
    + right; left. split; [reflexivity|]. exists true, true. now rewrite Ha.
    + right; right. auto.
    + right; right. auto.
  - (* never_use *)
    destruct (cryptonight_alloc_ctx P (alloc_calls w) true true)
      as [[c|] m] eqn:Ha; cbn.
    + split; [reflexivity|]. split; [|discriminate].
      right; left. split; [reflexivity|]. exists true, true. now rewrite Ha.
    + split; [reflexivity|]. split; [|eauto].
      right; left. split; [reflexivity|]. exists true, true. now rewrite Ha.
  - (* unknown_value *)
    split; [reflexivity|]. split; [|discriminate]. left. auto.
Qed.

Lemma minethd_alloc_ctx_released (mode : slow_mem_cfg) (w : world) :
  released (snd (minethd_alloc_ctx P mode w)) = released w.
Proof.
  destruct mode;
    unfold minethd_alloc_ctx, bind, alloc_ctx, when, print_msg, ret; cbn;
    repeat match goal with
           | |- context [cryptonight_alloc_ctx P ?n ?a ?b] =>
               destruct (cryptonight_alloc_ctx P n a b) as [[?|] [?|]]; cbn
           end; reflexivity.
Qed.

Lemma free_all_released (cs : list nat) (w : world) :
  released (snd (free_all cs w)) = released w ++ cs.
Proof.
  revert w. induction cs as [|c cs IH]; intros w.
  - cbn. now rewrite app_nil_r.
  - cbn [free_all]. unfold bind. cbn. rewrite IH. cbn.
    now rewrite <- app_assoc.
Qed.

(** The allocation loop: on success nothing is freed and the contexts
    are the answers; on failure exactly the contexts got so far are
    freed. *)
Lemma alloc_contexts_released (mode : slow_mem_cfg) (n : nat) (ctx : list nat)
    (w : world) :
  match fst (alloc_contexts P mode n ctx w) with
  | Some cs =>
      cs = ctx ++ leading_contexts (fst (alloc_answers P mode n w))
      /\ length cs = (length ctx + n)%nat
      /\ released (snd (alloc_contexts P mode n ctx w)) = released w
  | None =>
      released (snd (alloc_contexts P mode n ctx w))
      = released w ++ ctx ++ leading_contexts (fst (alloc_answers P mode n w))
  end.
Proof.
  revert ctx w. induction n as [|n IH]; intros ctx w.
  - cbn. rewrite app_nil_r. repeat split. lia.
  - cbn [alloc_contexts alloc_answers]. unfold bind, ret.
    pose proof (minethd_alloc_ctx_released mode w) as Hrel.
    destruct (minethd_alloc_ctx P mode w) as [[c|] w']; cbn [snd] in Hrel.
    + specialize (IH (ctx ++ [c]) w').
      destruct (alloc_answers P mode n w') as [rs w''] eqn:Hrs.
      cbn [fst snd leading_contexts] in *.
      destruct (fst (alloc_contexts P mode n (ctx ++ [c]) w')) as [cs|].
      * destruct IH as (Hcs & Hl & Hr). split; [|split].
        -- rewrite Hcs, <- app_assoc. reflexivity.
        -- rewrite Hl, length_app. cbn. lia.
        -- rewrite Hr. exact Hrel.
      * rewrite IH, Hrel, <- !app_assoc. reflexivity.
    + destruct (alloc_answers P mode n w') as [rs w''].
      pose proof (free_all_released ctx w') as Hf.
      destruct (free_all ctx w') as [u w3]. cbn in *.
      rewrite Hf, Hrel, app_nil_r. reflexivity.
Qed.

(** X7.  [self_test] gives back every context it got, in the order
    it got them, whatever it returns: when it returns before the
    allocation loop it frees nothing, otherwise it frees the leading
    non-null answers of its six calls of [minethd_alloc_ctx].  When
    it returns true these are six contexts. *)
Theorem self_test_frees_contexts (mode : slow_mem_cfg) (w : world) :
  released (snd (self_test P mode w))
  = released w
      ++ (if (fst (init_call P mode) =? 0) && fatal_mode mode then []
          else leading_contexts (fst (alloc_answers P mode 6 w)))
  /\ (fst (self_test P mode w) = true ->
      length (leading_contexts (fst (alloc_answers P mode 6 w))) = 6%nat).
Proof.
  assert (Hcase : mode = unknown_value \/ mode <> unknown_value)
    by (destruct mode; (now left) || (right; discriminate)).
  destruct Hcase as [->|Hmode].
  - cbn. rewrite app_nil_r. split; [reflexivity|discriminate].
  - set (w1 := snd (match snd (init_call P mode) with
                    | Some m => print_msg (MemoryInitError m)
                    | None => ret tt
                    end w)).
    assert (Hw1 : alloc_calls w1 = alloc_calls w /\ released w1 = released w).
    { unfold w1. destruct (snd (init_call P mode)); split; reflexivity. }
    destruct Hw1 as [Hc1 Hr1].
    assert (Hrun : self_test P mode w
                   = if (fst (init_call P mode) =? 0) && fatal_mode mode
                     then (false, w1)
                     else (ctx <- alloc_contexts P mode 6 [] ;;
                           match ctx with
                           | None => ret false
                           | Some cs =>
                               free_all cs ;;;
                               when (negb (kernels_match P))
                                    (print_msg SelfTestFailed) ;;;
                               ret (kernels_match P)
                           end) w1).
    { unfold w1.
      destruct mode; try congruence; cbn [self_test]; unfold bind at 1;
        destruct (snd (init_call P _)); cbn [print_msg ret snd];
        destruct ((fst (init_call P _) =? 0) && fatal_mode _); reflexivity. }
    rewrite Hrun.
    rewrite <- (alloc_answers_calls P mode 6 w1 w Hc1).
    destruct ((fst (init_call P mode) =? 0) && fatal_mode mode).
    + cbn. rewrite app_nil_r. split; [exact Hr1|discriminate].
    + set (kont := fun ctx : option (list nat) =>
                      match ctx with
                      | None => ret false
                      | Some cs =>
                          free_all cs ;;;
                          when (negb (kernels_match P))
                               (print_msg SelfTestFailed) ;;;
                          ret (kernels_match P)
                      end).
      unfold bind.
      pose proof (alloc_contexts_released mode 6 [] w1) as Hrel.
      destruct (alloc_contexts P mode 6 [] w1) as [[cs|] w2]; cbn [fst snd] in *.
      * destruct Hrel as (Hcs & Hl & Hr). rewrite app_nil_l in Hcs.
        subst kont. cbn beta iota. unfold bind, when, ret.
        pose proof (free_all_released cs w2) as Hf.
        destruct (free_all cs w2) as [u w3]. cbn [snd] in Hf.
        assert (Hfin : released w3 = released w ++ cs)
          by (rewrite Hf, Hr, Hr1; reflexivity).
        rewrite <- Hcs.
        destruct (negb (kernels_match P)); cbn [fst snd print_msg released];
          (split; [exact Hfin|]); intros _; exact Hl.
      * rewrite app_nil_l in Hrel. subst kont. cbn beta iota. cbn [ret fst snd].
        rewrite Hrel, Hr1. split; [reflexivity|intros Hf; discriminate Hf].
Qed.

End StartupExtras.


(** ** The pool, again *)

Section PoolExtras.
Import Mem Pool Starter.

Lemma switch_wait_bound (polls : nat -> Z) (n : Z) (fuel j k : nat) :
  switch_wait polls n fuel j = Some k -> (k < j + fuel)%nat.
Proof.
  revert j. induction fuel as [|fuel IH]; intros j; simpl; [discriminate|].
  destruct (polls j <? n).
  - intros Hk. apply IH in Hk. lia.
  - intros [= <-]. lia.
Qed.

(** X8.  [switch_work] returns exactly when one of the polls it is
    given time for finds [iConsumeCnt] not below [iThreadCount]; it
    has then slept once for each earlier poll, all of which found the
    counter below, and has published the work. *)
Theorem switch_work_returns (polls : nat -> Z) (fuel : nat)
    (pWork : miner_work) (g : shared) (acts : list action) (g' : shared) :
  switch_work polls fuel pWork g = Some (acts, g') <->
  exists k, (k < fuel)%nat
            /\ iThreadCount g <= polls k
            /\ (forall j, (j < k)%nat -> polls j < iThreadCount g)
            /\ acts = replicate k (Sleep 100)
                        ++ [WriteGlobalWork pWork; StoreConsumeCnt 0;
                            IncGlobalJobNo]
            /\ g' = {| iGlobalJobNo := u64 (iGlobalJobNo g + 1);
                       iConsumeCnt := 0;
                       oGlobalWork := pWork;
                       iThreadCount := iThreadCount g |}.
Proof.
  unfold switch_work. split.
  - destruct (switch_wait polls (iThreadCount g) fuel 0) as [k|] eqn:Hw;
      [|discriminate].
    cbn. intros [= <- <-]. exists k.
    pose proof (switch_wait_bound _ _ _ _ _ Hw) as Hb.
    apply switch_wait_sound in Hw as (H1 & _ & H3).
    repeat split; [lia|exact H1|intros j Hj; apply H3; lia].
  - intros (k & Hk & Hge & Hlow & -> & ->).
    replace fuel with (S k + (fuel - S k))%nat by lia.
    rewrite switch_wait_done by assumption. reflexivity.
Qed.

(** While every poll finds the counter below the thread count,
    [switch_work] publishes nothing, however long it is given. *)
Lemma switch_work_waits (polls : nat -> Z) (fuel : nat)
    (pWork : miner_work) (g : shared) :
  (forall j, polls j < iThreadCount g) ->
  switch_work polls fuel pWork g = None.
Proof.
  intros Hlow. unfold switch_work.
  destruct (switch_wait polls (iThreadCount g) fuel 0) as [k|] eqn:Hw;
    [|reflexivity].
  apply switch_wait_sound in Hw as (Hge & _).
  specialize (Hlow k). lia.
Qed.

Lemma consume_all_spec (g : shared) (ts : list minethd) :
  fst (consume_all g ts)
  = map (fun t => set_work (oGlobalWork g) (u64 (iJobNo t + 1)) t) ts
  /\ iConsumeCnt (snd (consume_all g ts))
     = Nat.iter (length ts) (fun c => u64 (c + 1)) (iConsumeCnt g)
  /\ oGlobalWork (snd (consume_all g ts)) = oGlobalWork g
  /\ iGlobalJobNo (snd (consume_all g ts)) = iGlobalJobNo g
  /\ iThreadCount (snd (consume_all g ts)) = iThreadCount g.
Proof.
  revert g. induction ts as [|t ts IH]; intros g; [repeat split|].
  cbn [consume_all fst snd map length].
  destruct (IH (snd (consume_work g t))) as (I1 & I2 & I3 & I4 & I5).
  rewrite I1, I2, I3, I4, I5. cbn [consume_work snd store_consume_cnt
    oGlobalWork iConsumeCnt iGlobalJobNo iThreadCount].
  repeat split. rewrite Nat.iter_succ_r. reflexivity.
Qed.

Lemma count_up (n : nat) :
  Z.of_nat n < 2 ^ 64 ->
  Nat.iter n (fun c => u64 (c + 1)) 0 = Z.of_nat n.
Proof.
  induction n as [|n IH]; intros Hn; [reflexivity|].
  rewrite Nat.iter_succ, IH by lia. rewrite u64_small by lia. lia.
Qed.

(** X9.  The hand-over of a job.  Let every thread of a list have
    consumed the current job ([iJobNo] equal to [iGlobalJobNo]).
    After [switch_work] has published [pWork], no thread's [iJobNo]
    equals [iGlobalJobNo] any more, so each leaves its waiting or
    hashing loop; once each has called [consume_work], every thread
    holds [pWork], its [iJobNo] equals [iGlobalJobNo] again, and
    [iConsumeCnt] is the number of threads, so that the next
    [switch_work] of a pool of that many threads does not sleep. *)
Theorem job_hand_over (pWork : miner_work) (g : shared) (ts : list minethd) :
  Z.of_nat (length ts) < 2 ^ 64 ->
  0 <= iGlobalJobNo g < 2 ^ 64 ->
  Forall (fun t => iJobNo t = iGlobalJobNo g) ts ->
  let g1 := snd (publish pWork g) in
  let ts' := fst (consume_all g1 ts) in
  let g2 := snd (consume_all g1 ts) in
  Forall (fun t => iJobNo t <> iGlobalJobNo g1) ts
  /\ Forall (fun t' => oWork t' = pWork /\ iJobNo t' = iGlobalJobNo g2) ts'
  /\ length ts' = length ts
  /\ iConsumeCnt g2 = Z.of_nat (length ts)
  /\ oGlobalWork g2 = pWork
  /\ (iThreadCount g = Z.of_nat (length ts) ->
      forall fuel pWork',
        exists g3,
          switch_work (fun _ => iConsumeCnt g2) (S fuel) pWork' g2
          = Some ([WriteGlobalWork pWork'; StoreConsumeCnt 0; IncGlobalJobNo],
                  g3)).
Proof.
  intros Hn Hg Hsync g1 ts' g2.
  destruct (consume_all_spec g1 ts) as (C1 & C2 & C3 & C4 & C5).
  fold ts' in C1. fold g2 in C2, C3, C4, C5.
  assert (Hg1 : iGlobalJobNo g1 = u64 (iGlobalJobNo g + 1)) by reflexivity.
  assert (Hne : u64 (iGlobalJobNo g + 1) <> iGlobalJobNo g).
  { unfold u64, wrap.
    destruct (Z.eq_dec (iGlobalJobNo g + 1) (2 ^ 64)) as [He|He].
    - rewrite He, Z.mod_same by lia. lia.
    - rewrite Z.mod_small by lia. lia. }
  split; [|split; [|split; [|split; [|split]]]].
  - eapply Forall_impl; [exact Hsync|]. intros t Ht. rewrite Ht.
    intros Heq. apply Hne. symmetry. exact Heq.
  - rewrite C1. apply Forall_fmap. eapply Forall_impl; [exact Hsync|].
    intros t Ht. split; [reflexivity|]. rewrite C4. cbn [set_work iJobNo].
    rewrite Ht. reflexivity.
  - rewrite C1. apply length_map.
  - rewrite C2. apply count_up. exact Hn.
  - rewrite C3. reflexivity.
  - intros Htc fuel pWork'.
    eexists. unfold switch_work. cbn [switch_wait].
    assert (Hlt : (iConsumeCnt g2 <? iThreadCount g2) = false).
    { apply Z.ltb_ge. rewrite C5, C2, count_up by exact Hn.
      change (iThreadCount g1) with (iThreadCount g). lia. }
    rewrite Hlt. reflexivity.
Qed.

(** [uint8_t] narrowing: the thread number is the index modulo 256. *)
Lemma thread_no_mod (pWork : miner_work) (i : nat) (m a : Z) :
  iThreadNo (minethd_new pWork (Z.of_nat i) m a) = Z.of_nat (i mod 256).
Proof.
  cbn [minethd_new iThreadNo]. unfold wrap.
  change (2 ^ 8) with (Z.of_nat 256). now rewrite <- Nat2Z.inj_mod.
Qed.

(** X10.  [thread_starter] returns one thread per configured index,
    each built on [pWork] with job number 0 and started on the entry
    point of its configured width; it leaves [iGlobalJobNo] and
    [iConsumeCnt] at 0 and [iThreadCount] at the number of threads.
    The thread number is the index narrowed to 8 bits: thread [i]
    has number [i mod 256], so the numbers of the threads are
    pairwise different exactly when there are at most 256 threads. *)
Theorem thread_starter_threads (n : nat) (cfg : nat -> thd_cfg)
    (pWork : miner_work) (g : shared) :
  let r := thread_starter n cfg pWork g in
  let threads := fst (fst r) in
  let g' := snd r in
  length threads = n
  /\ length (snd (fst r)) = n
  /\ (forall i, (i < n)%nat ->
        exists t, threads !! i = Some t
                  /\ oWork t = pWork /\ iJobNo t = 0
                  /\ iThreadNo t = Z.of_nat (i mod 256)
                  /\ oWorkThd t = thread_entry (iMultiway (cfg i))
                  /\ affinity t = iCpuAff (cfg i))
  /\ iGlobalJobNo g' = 0 /\ iConsumeCnt g' = 0
  /\ iThreadCount g' = Z.of_nat n
  /\ (NoDup (map iThreadNo threads) <-> (n <= 256)%nat).
Proof.
  cbn zeta. unfold thread_starter. cbn [fst snd iGlobalJobNo iConsumeCnt
    iThreadCount].
  split; [now rewrite length_map, length_seq|].
  split; [now rewrite length_map, length_seq|].
  split.
  { intros i Hi. eexists. rewrite list_lookup_fmap, lookup_seq_lt by lia.
    split; [reflexivity|]. rewrite thread_no_mod. repeat split. }
  do 3 (split; [reflexivity|]).
  rewrite map_map.
  assert (Hmap : map (fun i : nat =>
                        iThreadNo (minethd_new pWork (Z.of_nat i)
                                     (iMultiway (cfg i)) (iCpuAff (cfg i))))
                     (seq 0 n)
                 = map (fun i : nat => Z.of_nat (i mod 256)) (seq 0 n)).
  { apply map_ext. intros i. apply thread_no_mod. }
  rewrite Hmap. split.
  - intros Hnd.
    destruct (le_lt_dec n 256) as [Hle|Hgt]; [exact Hle|exfalso].
    rewrite NoDup_alt in Hnd.
    specialize (Hnd 0%nat 256%nat 0).
    rewrite !list_lookup_fmap, !lookup_seq_lt in Hnd by lia.
    specialize (Hnd eq_refl eq_refl). discriminate.
  - intros Hle. apply NoDup_alt. intros i j x Hi Hj.
    rewrite list_lookup_fmap in Hi, Hj.
    destruct (seq 0 n !! i) as [a|] eqn:Ha; [|discriminate].
    destruct (seq 0 n !! j) as [b|] eqn:Hb; [|discriminate].
    apply lookup_seq in Ha as [-> Hia]. apply lookup_seq in Hb as [-> Hjb].
    cbn [fmap option_fmap option_map] in Hi, Hj.
    rewrite Nat.mod_small in Hi by lia. rewrite Nat.mod_small in Hj by lia.
    assert (Heq : Z.of_nat (0 + i) = Z.of_nat (0 + j)) by congruence.
    lia.
Qed.

End PoolExtras.

Lemma job_hand_over_witness :
  let g := {| Pool.iGlobalJobNo := 0; Pool.iConsumeCnt := 2;
              Pool.oGlobalWork := Fixtures.job_a; Pool.iThreadCount := 2 |} in
  let ts := [Pool.minethd_new Fixtures.job_a 0 1 (-1);
             Pool.minethd_new Fixtures.job_a 1 2 (-1)] in
  let g2 := snd (Starter.consume_all (snd (Pool.publish Fixtures.job_a g)) ts) in
  Pool.iConsumeCnt g2 = 2 /\ Pool.oGlobalWork g2 = Fixtures.job_a.
Proof.
  intros g ts g2.
  destruct (job_hand_over Fixtures.job_a g ts ltac:(cbn; lia) ltac:(cbn; lia)
              ltac:(repeat constructor)) as (_ & _ & _ & Hc & Hw & _).
  split; [exact Hc|exact Hw].
Defined.


(** ** The hashing loops, again *)

Section LoopExtras.
Import Mem Pool Worker Trace.

Variable H : nonce_helpers.
Variable hash : list byte -> Z -> list byte.
Variable N : nat.

(** X11.  A thread whose work is stalled computes no hash and pushes
    no event, however often it finds the job number unchanged: it
    stays as it is.  The first change of the job number makes it call
    [consume_work]: it then holds the work of the shared slot, its
    job number is one higher, and its hash count and its events are
    as before. *)
Theorem stalled_thread_waits (stamps : list Z) (g : shared)
    (s : Single.config) (m : Multiway.config) :
  Single.hashing s = false -> bStall (oWork (Single.thd s)) = true ->
  Multiway.hashing m = false -> bStall (oWork (Multiway.thd m)) = true ->
  let s' := Single.step H hash (Changed g) s in
  let m' := Multiway.step H hash N (Changed g) m in
  Single.run H hash (map Same stamps) s = s
  /\ Multiway.run H hash N (map Same stamps) m = m
  /\ oWork (Single.thd s') = oGlobalWork g
  /\ iJobNo (Single.thd s') = u64 (iJobNo (Single.thd s) + 1)
  /\ Single.events s' = Single.events s
  /\ Single.iCount s' = Single.iCount s
  /\ oWork (Multiway.thd m') = oGlobalWork g
  /\ iJobNo (Multiway.thd m') = u64 (iJobNo (Multiway.thd m) + 1)
  /\ Multiway.events m' = Multiway.events m
  /\ Multiway.iCount m' = Multiway.iCount m.
Proof.
  intros Hs1 Hs2 Hm1 Hm2 s' m'.
  assert (Rs : Single.ready H s = s)
    by (unfold Single.ready; now rewrite Hs1, Hs2).
  assert (Rm : Multiway.ready H m = m)
    by (unfold Multiway.ready; now rewrite Hm1, Hm2).
  split; [|split].
  - induction stamps as [|st sts IH]; [reflexivity|].
    cbn [map]. unfold Single.run in *. cbn [fold_left].
    unfold Single.step at 2. rewrite Rs, Hs1. exact IH.
  - induction stamps as [|st sts IH]; [reflexivity|].
    cbn [map]. unfold Multiway.run in *. cbn [fold_left].
    unfold Multiway.step at 2. rewrite Rm, Hm1. exact IH.
  - subst s' m'. unfold Single.step, Multiway.step. rewrite Rs, Rm.
    repeat split.
Qed.

(** *** Job ids *)

Lemma tagged_more (seen more : list miner_work) (es : list ex_event) :
  Forall (fun e => exists w, w ∈ seen /\ tagged_by w e) es ->
  Forall (fun e => exists w, w ∈ seen ++ more /\ tagged_by w e) es.
Proof.
  intros HF. eapply Forall_impl; [exact HF|]. intros e (w & Hw & Ht). exists w.
  split; [apply elem_of_app; now left|exact Ht].
Qed.

Lemma single_step_ids (seen : list miner_work) (o : obs) (c : Single.config) :
  single_ids_ok seen c ->
  single_ids_ok (seen ++ changed_works [o]) (Single.step H hash o c).
Proof.
  intros ((w & Hw & Hj & Hp) & Hres & Hev).
  assert (Hready : single_ids_ok seen (Single.ready H c)).
  { unfold Single.ready.
    destruct (Single.hashing c) eqn:Hh; [repeat split; eauto|].
    destruct (bStall (oWork (Single.thd c)));
      [repeat split; eauto; now rewrite Hh|].
    split; [exists w; auto|]. split; [reflexivity|exact Hev]. }
  clear Hw Hj Hp Hres Hev w.
  destruct Hready as ((w & Hw & Hj & Hp) & Hres & Hev).
  unfold Single.step.
  destruct o as [st|g]; cbn [changed_works].
  - rewrite app_nil_r.
    destruct (Single.hashing (Single.ready H c)) eqn:Hh;
      [|repeat split; eauto; now rewrite Hh].
    specialize (Hres eq_refl).
    assert (Ht : forall t,
               t = (if Single.stats_due (Single.iCount (Single.ready H c))
                    then set_stats (Single.iCount (Single.ready H c)) st
                           (Single.thd (Single.ready H c))
                    else Single.thd (Single.ready H c)) ->
               oWork t = oWork (Single.thd (Single.ready H c)))
      by (intros t ->; destruct (Single.stats_due _); reflexivity).
    unfold Single.round.
    cbn [Single.thd Single.hashing Single.result Single.events set_work oWork
         set_blob sJobID iPoolId res_sJobID iTarget].
    rewrite !(Ht _ eq_refl).
    split; [exists w; auto|]. split; [intros _; exact Hres|].
    apply Forall_app. split; [exact Hev|].
    destruct (_ <? _); [|constructor].
    constructor; [|constructor].
    exists w. split; [exact Hw|]. split; cbn; congruence.
  - split; [|split].
    + exists (oGlobalWork g). split; [|split; reflexivity].
      apply elem_of_app. right. left.
    + discriminate.
    + apply tagged_more. exact Hev.
Qed.

Lemma multi_step_ids (seen : list miner_work) (o : obs) (c : Multiway.config) :
  multi_ids_ok seen c ->
  multi_ids_ok (seen ++ changed_works [o]) (Multiway.step H hash N o c).
Proof.
  intros ((w & Hw & Hj & Hp) & Hev).
  assert (Hr : Multiway.thd (Multiway.ready H c) = Multiway.thd c
               /\ Multiway.events (Multiway.ready H c) = Multiway.events c).
  { unfold Multiway.ready. destruct (Multiway.hashing c); [auto|].
    destruct (bStall (oWork (Multiway.thd c))); auto. }
  destruct Hr as [Rt Re].
  unfold Multiway.step.
  destruct o as [st|g]; cbn [changed_works].
  - rewrite app_nil_r.
    destruct (Multiway.hashing (Multiway.ready H c));
      [|split; [exists w; rewrite Rt; auto|rewrite Re; exact Hev]].
    assert (Ht : oWork (if Multiway.stats_due (Multiway.iCount (Multiway.ready H c))
                        then set_stats (Multiway.iCount (Multiway.ready H c)) st
                               (Multiway.thd (Multiway.ready H c))
                        else Multiway.thd (Multiway.ready H c))
                 = oWork (Multiway.thd c))
      by (rewrite Rt; destruct (Multiway.stats_due _); reflexivity).
    unfold Multiway.round. split.
    { exists w. cbn [Multiway.thd]. rewrite Ht. auto. }
    cbn [Multiway.events]. rewrite Ht, Re.
    apply Forall_app. split; [exact Hev|].
    apply Forall_forall. intros e He. apply list_elem_of_In in He.
    unfold Multiway.emit_solutions in He. apply in_flat_map in He as (i & _ & He).
    unfold Multiway.emit_lane in He.
    destruct (_ <? _); [|destruct He]. destruct He as [<-|[]].
    exists w. split; [exact Hw|]. split; cbn; congruence.
  - split.
    + exists (oGlobalWork g). split; [|split; reflexivity].
      apply elem_of_app. right. left.
    + cbn [Multiway.consume Multiway.events]. rewrite Re.
      apply tagged_more. exact Hev.
Qed.

Lemma changed_works_app (a b : list obs) :
  changed_works (a ++ b) = changed_works a ++ changed_works b.
Proof.
  induction a as [|[st|g] a IH]; cbn; [reflexivity|exact IH|now rewrite IH].
Qed.

(** X12.  Every event a thread pushes carries the job id and the pool
    id of a work item the thread has held: the one it was constructed
    on or one it found in the shared slot at a [consume_work]. *)
Theorem events_carry_their_job (os : list obs) (t : minethd)
    (result0 : job_result) (junk_hash junk_blob : nat -> byte) (iNonce0 : Z) :
  Forall (fun e => exists w, w ∈ oWork t :: changed_works os /\ tagged_by w e)
         (Single.events (Single.run H hash os (Single.work_start t result0)))
  /\ Forall (fun e => exists w, w ∈ oWork t :: changed_works os /\ tagged_by w e)
            (Multiway.events
               (Multiway.run H hash N os
                  (Multiway.work_start N t junk_hash junk_blob iNonce0))).
Proof.
  split.
  - assert (Hgen : forall os c seen,
               single_ids_ok seen c ->
               single_ids_ok (seen ++ changed_works os) (Single.run H hash os c)).
    { clear os. intros os. induction os as [|o os IH]; intros c seen Hc.
      - cbn. now rewrite app_nil_r.
      - change (o :: os) with ([o] ++ os).
        rewrite changed_works_app, app_assoc.
        apply IH. now apply single_step_ids. }
    apply (Hgen os (Single.work_start t result0) [oWork t]).
    split; [exists (oWork t); repeat split; left|].
    split; [discriminate|constructor].
  - assert (Hgen : forall os c seen,
               multi_ids_ok seen c ->
               multi_ids_ok (seen ++ changed_works os) (Multiway.run H hash N os c)).
    { clear os. intros os. induction os as [|o os IH]; intros c seen Hc.
      - cbn. now rewrite app_nil_r.
      - change (o :: os) with ([o] ++ os).
        rewrite changed_works_app, app_assoc.
        apply IH. now apply multi_step_ids. }
    apply (Hgen os (Multiway.work_start N t junk_hash junk_blob iNonce0)
             [oWork t]).
    split; [exists (oWork t); repeat split; left|constructor].
Qed.

End LoopExtras.


Section SingleNonceExtras.
Import Mem Pool Worker Trace.

Variable H : nonce_helpers.
Variable hash : list byte -> Z -> list byte.

Lemma single_round_blob (st : Z) (c : Single.config) :
  bWorkBlob (oWork (Single.thd (Single.round hash st c)))
  = store_u32 39 (u32 (res_iNonce (Single.result c) + 1))
      (bWorkBlob (oWork (Single.thd c))).
Proof.
  unfold Single.round. cbn [Single.thd set_work oWork set_blob bWorkBlob].
  unfold Single.piNonce. destruct (Single.stats_due _); reflexivity.
Qed.

Lemma single_round_frame (st : Z) (c : Single.config) (j : nat) :
  (j < 39)%nat \/ (43 <= j)%nat ->
  bWorkBlob (oWork (Single.thd (Single.round hash st c))) !! j
  = bWorkBlob (oWork (Single.thd c)) !! j.
Proof.
  intros Hj. rewrite single_round_blob. unfold store_u32.
  apply store_bytes_frame. rewrite le_encode_length. lia.
Qed.

Lemma single_run_state (stamps : list Z) (c : Single.config) :
  Single.hashing c = true ->
  let c_r := Single.run H hash (map Same stamps) c in
  Single.hashing c_r = true
  /\ u32 (res_iNonce (Single.result c_r))
     = u32 (res_iNonce (Single.result c) + Z.of_nat (length stamps))
  /\ length (bWorkBlob (oWork (Single.thd c_r)))
     = length (bWorkBlob (oWork (Single.thd c)))
  /\ (forall j, (j < 39)%nat \/ (43 <= j)%nat ->
        bWorkBlob (oWork (Single.thd c_r)) !! j
        = bWorkBlob (oWork (Single.thd c)) !! j).
Proof.
  revert c. induction stamps as [|st sts IH]; intros c Hh.
  - cbn. rewrite Z.add_0_r. auto.
  - cbn [map length]. unfold Single.run. cbn [fold_left].
    fold (Single.run H hash (map Same sts) (Single.step H hash (Same st) c)).
    rewrite single_step_same by exact Hh.
    destruct (IH (Single.round hash st c) eq_refl) as (I1 & I2 & I3 & I4).
    cbn zeta. split; [exact I1|]. split; [|split].
    + rewrite I2. cbn [Single.round Single.result res_iNonce].
      rewrite u32_add_l. f_equal. lia.
    + rewrite I3, single_round_blob. apply store_u32_length.
    + intros j Hj. rewrite I4 by exact Hj. now apply single_round_frame.
Qed.

(** X13.  Within a job [work_main] tries consecutive nonces.  Take a
    thread in its inner loop with a work blob of at least 43 bytes,
    let it make [r] rounds and then one more.  That round hashes the
    nonce [n + r + 1] (in 32-bit arithmetic), [n] being the nonce
    before the first of these rounds: its result carries this nonce,
    bytes 39..42 of the blob the kernel ran on hold it, every other
    byte of the blob is as before the first round, and the digest of
    the result is what the kernel wrote for this blob. *)
Theorem single_job_nonces (stamps : list Z) (st : Z) (c : Single.config) :
  Single.hashing c = true ->
  (43 <= length (bWorkBlob (oWork (Single.thd c))))%nat ->
  let c_r := Single.run H hash (map Same stamps) c in
  let c' := Single.step H hash (Same st) c_r in
  let w' := oWork (Single.thd c') in
  res_iNonce (Single.result c')
  = u32 (res_iNonce (Single.result c) + Z.of_nat (length stamps) + 1)
  /\ load 4 39 (bWorkBlob w') = res_iNonce (Single.result c')
  /\ (forall j, (j < 39)%nat \/ (43 <= j)%nat ->
        bWorkBlob w' !! j = bWorkBlob (oWork (Single.thd c)) !! j)
  /\ bResult (Single.result c')
     = store_bytes 0 (hash (bWorkBlob w') (iWorkSize w'))
         (bResult (Single.result c_r)).
Proof.
  intros Hh Hlen c_r c' w'.
  destruct (single_run_state stamps c Hh) as (S1 & S2 & S3 & S4).
  fold c_r in S1, S2, S3, S4.
  assert (Hc' : c' = Single.round hash st c_r)
    by (apply single_step_same; exact S1).
  assert (Hn : res_iNonce (Single.result c')
               = u32 (res_iNonce (Single.result c)
                      + Z.of_nat (length stamps) + 1)).
  { rewrite Hc'. cbn [Single.round Single.result res_iNonce].
    rewrite <- u32_add_l, S2, u32_add_l. reflexivity. }
  split; [exact Hn|]. split; [|split].
  - subst w'. rewrite Hc' at 1. rewrite single_round_blob.
    rewrite load_store_u32 by lia. rewrite u32_idem, Hc'. reflexivity.
  - intros j Hj. subst w'. rewrite Hc', single_round_frame by exact Hj.
    now apply S4.
  - subst w'. rewrite Hc'. unfold Single.round.
    cbn [Single.result bResult Single.thd set_work oWork set_blob
         bWorkBlob iWorkSize].
    reflexivity.
Qed.

End SingleNonceExtras.

Lemma single_job_nonces_witness :
  let c := Single.begin_job Fixtures.plain_helpers
             (Single.work_start (Pool.minethd_new Fixtures.job_a 0 1 (-1))
                {| Worker.bResult := replicate 32 x00;
                   Worker.res_sJobID := []; Worker.res_iNonce := 0 |}) in
  let c' := Single.step Fixtures.plain_helpers Fixtures.zero_kernel
              (Worker.Same 30)
              (Single.run Fixtures.plain_helpers Fixtures.zero_kernel
                 (map Worker.Same [10; 20]) c) in
  Worker.res_iNonce (Single.result c') = 8
  /\ Mem.load 4 39 (Pool.bWorkBlob (Pool.oWork (Single.thd c'))) = 8.
Proof.
  intros c c'.
  destruct (single_job_nonces Fixtures.plain_helpers Fixtures.zero_kernel
              [10; 20] 30 c eq_refl ltac:(cbn; lia)) as (Hn & Hl & _).
  split; [etransitivity; [exact Hn|reflexivity]|].
  etransitivity; [exact Hl|]. etransitivity; [exact Hn|reflexivity].
Defined.


Section LaneExtras.
Import Mem Pool Worker Trace Multiway.

Variable H : nonce_helpers.
Variable hash_fn : list byte -> Z -> list byte.
Variable N : nat.

(** Copying [src] to the lanes [a .. a + n - 1]: each of them holds
    [src], the bytes outside them stay. *)
Lemma copy_lanes (src : list byte) (n a : nat) (blob : list byte) :
  (length src * (a + n) <= length blob)%nat ->
  let b' := fold_left (fun b (i : nat) => store_bytes (length src * i) src b)
                      (seq a n) blob in
  length b' = length blob
  /\ (forall i x, (a <= i < a + n)%nat -> (x < length src)%nat ->
                  b' !! (length src * i + x)%nat = src !! x)
  /\ (forall j, (j < length src * a)%nat \/ (length src * (a + n) <= j)%nat ->
                b' !! j = blob !! j).
Proof.
  induction n as [|n IH]; intros Hfit b'.
  - subst b'. cbn. split; [reflexivity|]. split; [intros; lia|reflexivity].
  - subst b'. rewrite seq_S, fold_left_app. cbn [fold_left].
    destruct IH as (I1 & I2 & I3); [nia|].
    set (b := fold_left (fun b (i : nat) => store_bytes (length src * i) src b)
                        (seq a n) blob) in *.
    split; [|split].
    + rewrite store_bytes_length. exact I1.
    + intros i x Hi Hx. destruct (decide (i = a + n)%nat) as [->|Hne].
      * apply store_bytes_hit; [rewrite I1; nia|exact Hx].
      * rewrite store_bytes_frame by (left; nia). apply I2; [lia|exact Hx].
    + intros j Hj. rewrite store_bytes_frame by nia. apply I3. nia.
Qed.

Lemma lane_eq (ws : nat) (blob src : list byte) (i : nat) :
  length src = ws ->
  (forall x, (x < ws)%nat -> blob !! (ws * i + x)%nat = src !! x) ->
  lane ws blob i = src.
Proof.
  intros Hlen Hx. unfold lane. apply list_eq. intros x.
  rewrite lookup_take. destruct (decide (x < ws)%nat) as [Hlt|Hge].
  - rewrite lookup_drop. now apply Hx.
  - symmetry. apply lookup_ge_None. lia.
Qed.

(** X14.  After a [consume_work] of [multiway_work_main], each of
    the [N] lanes of the interleaved blob is a copy of the first
    [iWorkSize] bytes of the work blob just consumed, and the nonce
    pointer of lane [i] points to byte 39 of that lane. *)
Theorem consume_copies_blob (t : minethd) (junk_hash junk_blob : nat -> byte)
    (iNonce0 : Z) (os : list obs) (g : shared) (i : nat) :
  (N <= MAX_N)%nat -> (i < N)%nat ->
  0 <= iWorkSize (oGlobalWork g) <= 112 ->
  length (Pool.bWorkBlob (oGlobalWork g)) = blob_capacity ->
  let c := run H hash_fn N os (work_start N t junk_hash junk_blob iNonce0) in
  let c' := step H hash_fn N (Changed g) c in
  let ws := Z.to_nat (iWorkSize (oGlobalWork g)) in
  oWork (thd c') = oGlobalWork g
  /\ lane ws (bWorkBlob c') i = take ws (Pool.bWorkBlob (oGlobalWork g))
  /\ piNonce c' !! i = Some (Some (ws * i + 39)%nat).
Proof.
  intros HN Hi Hws Hlen c c' ws. unfold MAX_N in HN. unfold blob_capacity in Hlen.
  assert (Hok : pointers_ok N c)
    by (apply run_pointers_ok, work_start_pointers_ok).
  destruct Hok as [Hblen _]. unfold blob_capacity, MAX_N in Hblen.
  destruct (ready_fields H c) as (_ & _ & Hb & _).
  assert (Hsrc : length (take ws (Pool.bWorkBlob (oGlobalWork g))) = ws)
    by (rewrite length_take; lia).
  split; [reflexivity|]. split.
  - subst c'. unfold step. cbn [consume bWorkBlob thd consume_work fst
      set_work oWork]. unfold refresh_blob. rewrite Hb. fold ws.
    destruct (copy_lanes (take ws (Pool.bWorkBlob (oGlobalWork g))) N 0
                (bWorkBlob c)) as (_ & C2 & _).
    { rewrite Hsrc, Hblen. nia. }
    rewrite Hsrc in C2.
    apply lane_eq; [exact Hsrc|].
    intros x Hx. apply C2; lia.
  - subst c'. unfold step. cbn [consume piNonce]. unfold refresh_pointers.
    rewrite list_lookup_fmap, lookup_seq_lt by lia. reflexivity.
Qed.

(** The bytes [write_nonces] leaves: the nonce in each slot, the old
    byte everywhere else. *)
Lemma write_nonces_bytes (ws n a : nat) (k : Z) (blob : list byte) :
  (4 <= ws)%nat ->
  (ws * (a + n) + 43 <= length blob + ws)%nat ->
  let r := write_nonces
             (map (fun i : nat => Some (ws * i + 39)%nat) (seq a n)) k blob in
  (forall i y, (a <= i < a + n)%nat -> (y < 4)%nat ->
     snd r !! (ws * i + 39 + y)%nat
     = le_encode 4 (u32 (k + 1 + Z.of_nat (i - a))) !! y)
  /\ (forall j, (forall i, (a <= i < a + n)%nat ->
                   (j < ws * i + 39)%nat \/ (ws * i + 43 <= j)%nat) ->
                snd r !! j = blob !! j).
Proof.
  intros Hws. revert a k blob.
  induction n as [|n IH]; intros a k blob Hfit r.
  - subst r. cbn. split; [intros; lia|reflexivity].
  - subst r. cbn [seq map write_nonces].
    set (blob' := store_u32 (ws * a + 39) (u32 (k + 1)) blob).
    destruct (IH (S a) (u32 (k + 1)) blob') as (IH1 & IH2).
    { unfold blob'. rewrite store_u32_length. lia. }
    split.
    + intros i y Hi Hy. destruct (decide (i = a)) as [->|Hne].
      * rewrite IH2 by (intros i' Hi'; left; nia).
        unfold blob', store_u32.
        rewrite store_bytes_hit
          by (rewrite ?le_encode_length; lia || nia).
        do 3 f_equal. lia.
      * rewrite IH1 by lia. do 2 f_equal.
        rewrite <- Z.add_assoc, u32_add_l. f_equal. lia.
    + intros j Hj. rewrite IH2 by (intros i' Hi'; apply Hj; lia).
      unfold blob', store_u32. apply store_bytes_frame.
      rewrite le_encode_length. specialize (Hj a ltac:(lia)). lia.
Qed.

Lemma step_lanes_hold_job (o : obs) (c : config) :
  (N <= MAX_N)%nat ->
  pointers_ok N c -> lanes_hold_job N c ->
  lanes_hold_job N (step H hash_fn N o c).
Proof.
  unfold MAX_N. intros HN [Hlen Hp] Hl.
  destruct (ready_fields H c) as (Ht & Hpn & Hb & Hc & _).
  unfold step. destruct o as [st|g].
  - destruct (hashing (ready H c)).
    + unfold lanes_hold_job.
      rewrite (round_oWork hash_fn N st (ready H c)), Ht.
      cbn [round consumes bWorkBlob]. rewrite Hc, Hpn, Hb.
      intros Hcons Hfit i x Hi Hx Hout.
      destruct (consumes c) as [|n] eqn:Hn; [lia|]. rewrite Hp.
      destruct Hfit as [Hfl Hfw].
      unfold blob_capacity, MAX_N in Hlen.
      destruct (write_nonces_bytes
                  (Z.to_nat (iWorkSize (oWork (thd c)))) N 0
                  (iNonce (ready H c)) (bWorkBlob c)) as (_ & W2);
        [lia|nia|].
      unfold refresh_pointers, lane_slot. rewrite W2.
      * apply Hl; [lia|split; assumption|assumption..].
      * intros i' Hi'.
        destruct (Nat.lt_total i i') as [Hlt|[->|Hgt]]; [left|lia|right]; nia.
    + unfold lanes_hold_job. rewrite Ht, Hc, Hb. exact Hl.
  - unfold lanes_hold_job.
    cbn [consume thd consumes bWorkBlob consume_work fst set_work oWork].
    rewrite Hb. intros _ [Hfl Hfw] i x Hi Hx Hout.
    unfold blob_capacity in Hfl. unfold blob_capacity, MAX_N in Hlen.
    set (ws := Z.to_nat (iWorkSize (oGlobalWork g))) in *.
    assert (Hsrc : length (take ws (Pool.bWorkBlob (oGlobalWork g))) = ws)
      by (rewrite length_take; lia).
    unfold refresh_blob. fold ws.
    destruct (copy_lanes (take ws (Pool.bWorkBlob (oGlobalWork g))) N 0
                (bWorkBlob c)) as (_ & C2 & _).
    { rewrite Hsrc, Hlen. nia. }
    rewrite Hsrc in C2. rewrite C2 by lia.
    apply lookup_take_lt. exact Hx.
Qed.

Lemma run_lanes_hold_job (os : list obs) (c : config) :
  (N <= MAX_N)%nat ->
  pointers_ok N c -> lanes_hold_job N c ->
  lanes_hold_job N (run H hash_fn N os c).
Proof.
  intros HN. revert c. induction os as [|o os IH]; intros c Hp Hl; [exact Hl|].
  apply IH; [now apply step_pointers_ok|now apply step_lanes_hold_job].
Qed.

(** X15.  What the multiway kernel hashes.  In every round a thread
    makes after a [consume_work], on a work item of 43 to 112 bytes,
    lane [i] of the blob handed to the kernel is the work blob of the
    job with the nonce [k + 1 + i] (in 32-bit arithmetic, [k] the
    nonce counter the round begins with) in bytes 39..42 and
    nothing else changed; the kernel's output goes to [bHashOut]. *)
Theorem kernel_hashes_job_blob (t : minethd) (junk_hash junk_blob : nat -> byte)
    (iNonce0 : Z) (os : list obs) (iStamp : Z) (i : nat) :
  (N <= MAX_N)%nat -> (i < N)%nat ->
  let c := run H hash_fn N os (work_start N t junk_hash junk_blob iNonce0) in
  let w := oWork (thd c) in
  let ws := Z.to_nat (iWorkSize w) in
  let k := iNonce (ready H c) in
  let c' := step H hash_fn N (Same iStamp) c in
  (0 < consumes c)%nat ->
  bStall w = false ->
  work_fits w ->
  lane ws (bWorkBlob c') i
  = store_u32 39 (u32 (k + 1 + Z.of_nat i)) (take ws (Pool.bWorkBlob w))
  /\ bHashOut c'
     = store_bytes 0 (hash_fn (bWorkBlob c') (iWorkSize w)) (bHashOut c).
Proof.
  intros HN Hi c w ws k c' Hcons Hstall Hfit.
  assert (Hok : pointers_ok N c)
    by (apply run_pointers_ok, work_start_pointers_ok).
  assert (Hl : lanes_hold_job N c).
  { apply run_lanes_hold_job; [exact HN|apply work_start_pointers_ok|].
    intros Hc. cbn in Hc. lia. }
  destruct Hok as [Hlen Hp]. unfold MAX_N in HN.
  unfold blob_capacity, MAX_N in Hlen.
  destruct (consumes c) as [|n] eqn:Hn; [lia|].
  destruct (ready_fields H c) as (Ht & Hpn & Hb & Hc & Hout & _).
  pose proof Hfit as [Hfl Hfw]. unfold blob_capacity in Hfl.
  fold w in Hfl, Hfw.
  destruct (write_nonces_bytes ws N 0 k (bWorkBlob c)) as (W1 & W2);
    [lia|nia|].
  assert (Hblob : bWorkBlob c'
                  = snd (write_nonces
                           (map (fun i : nat => Some (ws * i + 39)%nat) (seq 0 N))
                           k (bWorkBlob c))).
  { subst c'. unfold step. rewrite ready_hashing by exact Hstall.
    cbn [round bWorkBlob]. rewrite Hpn, Hp, Hb. reflexivity. }
  split.
  - rewrite Hblob. apply lane_eq.
    + rewrite store_u32_length, length_take. lia.
    + intros x Hx.
      destruct (decide (39 <= x < 43)%nat) as [Hin|Hout'].
      * replace (ws * i + x)%nat with (ws * i + 39 + (x - 39))%nat by lia.
        rewrite W1 by lia.
        replace x with (39 + (x - 39))%nat at 2 by lia.
        unfold store_u32. rewrite store_bytes_hit
          by (rewrite ?le_encode_length, ?length_take; lia).
        do 3 f_equal. lia.
      * rewrite W2.
        2:{ intros i' Hi'.
            destruct (Nat.lt_total i i') as [Hlt|[->|Hgt]];
              [left|lia|right]; nia. }
        unfold store_u32. rewrite store_bytes_frame
          by (rewrite le_encode_length; lia).
        rewrite lookup_take_lt by exact Hx.
        apply Hl; [lia|exact Hfit|exact Hi|exact Hx|lia].
  - subst c'. unfold step. rewrite ready_hashing by exact Hstall.
    cbn [round bHashOut bWorkBlob thd]. rewrite Hout, Ht.
    destruct (stats_due (iCount (ready H c))); reflexivity.
Qed.

End LaneExtras.


Section CounterExtras.
Import Mem Pool Worker Trace Multiway.

Variable H : nonce_helpers.
Variable hash_fn : list byte -> Z -> list byte.
Variable N : nat.

(** The counter moves on by one for every pointer that is set,
    whatever the blob holds. *)
Lemma write_nonces_all_set (offs : list nat) (k : Z) (blob : list byte) :
  u32 (fst (write_nonces (map Some offs) k blob))
  = u32 (k + Z.of_nat (length offs)).
Proof.
  revert k blob. induction offs as [|off offs IH]; intros k blob.
  - cbn. now rewrite Z.add_0_r.
  - cbn [map write_nonces length]. rewrite IH, u32_add_l. f_equal. lia.
Qed.

Lemma refresh_pointers_set (w : miner_work) :
  refresh_pointers N w = map Some (map (lane_slot w) (seq 0 N)).
Proof. unfold refresh_pointers. now rewrite map_map. Qed.

(** X16.  After a [consume_work], the nonce counter and the hash
    count of [multiway_work_main] move in step: [r] rounds of a job
    advance the nonce counter by [r * N] (in 32-bit arithmetic) and
    the hash count by [r * N] (in 64-bit arithmetic).  So the rounds
    of a job test one contiguous range of nonces, [N] per round. *)
Theorem multiway_counters_in_step (t : minethd)
    (junk_hash junk_blob : nat -> byte) (iNonce0 : Z)
    (os : list obs) (stamps : list Z) :
  let c := run H hash_fn N os (work_start N t junk_hash junk_blob iNonce0) in
  let c_r := run H hash_fn N (map Same stamps) c in
  (0 < consumes c)%nat ->
  hashing c = true ->
  u32 (iNonce c_r) = u32 (iNonce c + Z.of_nat (length stamps) * Z.of_nat N)
  /\ u64 (iCount c_r) = u64 (iCount c + Z.of_nat (length stamps) * Z.of_nat N)
  /\ oWork (thd c_r) = oWork (thd c)
  /\ consumes c_r = consumes c.
Proof.
  intros c c_r Hcons Hh.
  assert (Hok : pointers_ok N c)
    by (apply run_pointers_ok, work_start_pointers_ok).
  destruct (multi_run_count H hash_fn N stamps c Hh) as [_ Hcount].
  fold c_r in Hcount.
  split; [|split; [exact Hcount|]].
  - subst c_r. clearbody c. clear Hcount.
    revert c Hcons Hh Hok. induction stamps as [|st sts IH]; intros c Hcons Hh Hok.
    + cbn. now rewrite Z.add_0_r.
    + cbn [map length]. unfold run. cbn [fold_left].
      fold (run H hash_fn N (map Same sts) (step H hash_fn N (Same st) c)).
      assert (Hok' : pointers_ok N (step H hash_fn N (Same st) c))
        by (now apply step_pointers_ok).
      rewrite multi_step_same in * by exact Hh.
      rewrite IH; [|exact Hcons|reflexivity|exact Hok'].
      cbn [round iNonce].
      destruct Hok as [_ Hp].
      destruct (consumes c) as [|n]; [lia|]. rewrite Hp, refresh_pointers_set.
      rewrite <- u32_add_l, write_nonces_all_set, u32_add_l.
      rewrite !length_map, length_seq. f_equal. lia.
  - subst c_r. clearbody c. clear Hcount Hok.
    revert c Hcons Hh. induction stamps as [|st sts IH]; intros c Hcons Hh;
      [split; reflexivity|].
    cbn [map]. unfold run. cbn [fold_left].
    fold (run H hash_fn N (map Same sts) (step H hash_fn N (Same st) c)).
    rewrite multi_step_same by exact Hh.
    destruct (IH (round hash_fn N st c) Hcons eq_refl) as [I1 I2].
    rewrite I1, I2, round_oWork. split; reflexivity.
Qed.

End CounterExtras.

Section StartExtras.
Import Mem Pool Starter.

Lemma signal_ready_iter (m : nat) (g : shared) :
  iConsumeCnt (Nat.iter m signal_ready g)
  = Nat.iter m (fun c => u64 (c + 1)) (iConsumeCnt g)
  /\ iThreadCount (Nat.iter m signal_ready g) = iThreadCount g
  /\ iGlobalJobNo (Nat.iter m signal_ready g) = iGlobalJobNo g.
Proof.
  induction m as [|m (I1 & I2 & I3)]; [repeat split|].
  rewrite !Nat.iter_succ. cbn [signal_ready store_consume_cnt iConsumeCnt
    iThreadCount iGlobalJobNo].
  rewrite I1, I2, I3. repeat split.
Qed.

(** X17.  The first job is published only when every thread has
    started.  After [thread_starter] has started [n] threads, a
    [switch_work] that finds only [m < n] of them arrived at their
    loop ([iConsumeCnt++]) publishes nothing, however long it polls;
    once all [n] have arrived it publishes at its first poll, as job
    number 1. *)
Theorem first_job_waits_for_threads (n m fuel : nat) (cfg : nat -> thd_cfg)
    (pWork pWork' : miner_work) (g : shared) :
  Z.of_nat n < 2 ^ 64 -> (m < n)%nat ->
  let g0 := snd (thread_starter n cfg pWork g) in
  let some := Nat.iter m signal_ready g0 in
  let all := Nat.iter n signal_ready g0 in
  switch_work (fun _ => iConsumeCnt some) fuel pWork' some = None
  /\ switch_work (fun _ => iConsumeCnt all) (S fuel) pWork' all
     = Some ([WriteGlobalWork pWork'; StoreConsumeCnt 0; IncGlobalJobNo],
             {| iGlobalJobNo := 1; iConsumeCnt := 0;
                oGlobalWork := pWork'; iThreadCount := Z.of_nat n |}).
Proof.
  intros Hn Hm g0 some all.
  destruct (signal_ready_iter m g0) as (S1 & S2 & _).
  destruct (signal_ready_iter n g0) as (A1 & A2 & A3).
  fold some in S1, S2. fold all in A1, A2, A3.
  change (iConsumeCnt g0) with 0 in S1, A1.
  change (iThreadCount g0) with (Z.of_nat n) in S2, A2.
  change (iGlobalJobNo g0) with 0 in A3.
  rewrite count_up in S1, A1 by lia.
  split.
  - apply switch_work_waits. intros _. rewrite S1, S2. lia.
  - unfold switch_work. cbn [switch_wait].
    assert (Hlt : (iConsumeCnt all <? iThreadCount all) = false)
      by (apply Z.ltb_ge; rewrite A1, A2; lia).
    rewrite Hlt. cbn [publish]. unfold inc_global_job_no, store_consume_cnt,
      write_global_work. cbn [iGlobalJobNo iConsumeCnt oGlobalWork iThreadCount].
    rewrite A3, A2. reflexivity.
Qed.

End StartExtras.

Lemma stalled_thread_waits_witness :
  Single.run Fixtures.plain_helpers Fixtures.zero_kernel
    (map Worker.Same [10; 20; 30]) Fixtures2.idle_single
  = Fixtures2.idle_single
  /\ Multiway.run Fixtures.plain_helpers Fixtures.zero_kernel 2
       (map Worker.Same [10; 20; 30]) Fixtures2.idle_double
     = Fixtures2.idle_double.
Proof.
  destruct (stalled_thread_waits Fixtures.plain_helpers Fixtures.zero_kernel 2
              [10; 20; 30] Fixtures2.slot_a
              Fixtures2.idle_single Fixtures2.idle_double
              eq_refl eq_refl eq_refl eq_refl) as (Hs & Hm & _).
  split; [exact Hs|exact Hm].
Defined.

Lemma consume_copies_blob_witness :
  let c' := Multiway.step Fixtures.plain_helpers Fixtures.zero_kernel 2
              (Worker.Changed Fixtures2.slot_a) Fixtures2.idle_double in
  Trace.lane 76 (Multiway.bWorkBlob c') 1 = replicate 76 x00
  /\ Multiway.piNonce c' !! 1%nat = Some (Some 115%nat).
Proof.
  intros c'.
  destruct (consume_copies_blob Fixtures.plain_helpers Fixtures.zero_kernel 2
              (Pool.minethd_new Fixtures2.idle_work 0 2 (-1))
              Fixtures.zero_junk Fixtures.zero_junk 0 [] Fixtures2.slot_a 1
              ltac:(unfold Worker.MAX_N; lia) ltac:(lia) ltac:(cbn; lia) eq_refl)
    as (_ & Hl & Hp).
  split; [etransitivity; [exact Hl|reflexivity]|exact Hp].
Defined.

Lemma kernel_hashes_job_blob_witness :
  let c := Multiway.run Fixtures.plain_helpers Fixtures.zero_kernel 2
             [Worker.Changed Fixtures2.slot_a] Fixtures2.idle_double in
  let c' := Multiway.step Fixtures.plain_helpers Fixtures.zero_kernel 2
              (Worker.Same 10) c in
  Trace.lane 76 (Multiway.bWorkBlob c') 1
  = Mem.store_u32 39 7 (replicate 76 x00).
Proof.
  intros c c'.
  destruct (kernel_hashes_job_blob Fixtures.plain_helpers Fixtures.zero_kernel 2
              (Pool.minethd_new Fixtures2.idle_work 0 2 (-1))
              Fixtures.zero_junk Fixtures.zero_junk 0
              [Worker.Changed Fixtures2.slot_a] 10 1
              ltac:(unfold Worker.MAX_N; lia) ltac:(lia)
              ltac:(cbn; lia) eq_refl
              ltac:(split; [reflexivity|cbn; lia])) as [Hl _].
  etransitivity; [exact Hl|reflexivity].
Defined.

Lemma multiway_counters_in_step_witness :
  let c := Multiway.run Fixtures.plain_helpers Fixtures.zero_kernel 2
             [Worker.Changed Fixtures2.slot_a; Worker.Same 5]
             Fixtures2.idle_double in
  let c_r := Multiway.run Fixtures.plain_helpers Fixtures.zero_kernel 2
               (map Worker.Same [10; 20; 30]) c in
  Mem.u32 (Multiway.iNonce c_r) = 13 /\ Mem.u64 (Multiway.iCount c_r) = 8.
Proof.
  intros c c_r.
  destruct (multiway_counters_in_step Fixtures.plain_helpers Fixtures.zero_kernel 2
              (Pool.minethd_new Fixtures2.idle_work 0 2 (-1))
              Fixtures.zero_junk Fixtures.zero_junk 0
              [Worker.Changed Fixtures2.slot_a; Worker.Same 5] [10; 20; 30]
              ltac:(cbn; lia) eq_refl) as (Hn & Hc & _).
  split; [etransitivity; [exact Hn|reflexivity]|].
  etransitivity; [exact Hc|reflexivity].
Defined.

Lemma first_job_waits_for_threads_witness :
  let g0 := snd (Starter.thread_starter 2 Fixtures2.two_threads
                   Fixtures2.idle_work Fixtures2.slot_a) in
  Pool.switch_work (fun _ => Pool.iConsumeCnt (Nat.iter 1 Starter.signal_ready g0))
    9 Fixtures.job_a (Nat.iter 1 Starter.signal_ready g0) = None.
Proof.
  exact (proj1 (first_job_waits_for_threads 2 1 9 Fixtures2.two_threads
                  Fixtures2.idle_work Fixtures.job_a Fixtures2.slot_a
                  ltac:(cbn; lia) ltac:(lia))).
Defined.
